(** * r2web: session orchestration, package loading, scraping and the wasm proxy

    A shallow embedding of the parts of r2web that the specification talks
    about, and the theorems that relate the specification to the code:

    - [Js]        the JavaScript string primitives the code relies on
                  ([trim], [split], [startsWith], [parseInt], regex tests,
                  [TextEncoder.encode]);
    - [HexDump]   [parseHexdump] of the terminal page;
    - [Loader]    [initializeWasmer] of the terminal page (cache, fetch,
                  progress reporting);
    - [Tab]       the [R2Tab] component: the create effect, [restartSession],
                  [connectStreams] and its [term.onData] handler;
    - [Proxy]     the [/wasm/:version] route of the proxy server.

    JavaScript strings are modelled as [string]: a character is one UTF-16
    code unit below 256.  Numbers that the code only uses as integers are
    [Z] or [N]; the progress percentage is a rational. *)

From Stdlib Require Import ZArith QArith Qminmax Ascii String Strings.Byte List Bool Lia.
From stdpp Require Import gmap strings.
Import ListNotations.

Local Open Scope Z_scope.
Local Open Scope nat_scope.
Local Open Scope string_scope.
Local Open Scope list_scope.

(* ===================================================================== *)
(** ** JavaScript string primitives *)
(* ===================================================================== *)

Module Js.

Definition code (c : ascii) : N := N_of_ascii c.

(** WhiteSpace and LineTerminator code units below 256: TAB, LF, VT, FF,
    CR, SP and NBSP.  [String.prototype.trim] strips them and the regular
    expression class [\s] matches them. *)
Definition isWhiteSpace (c : ascii) : bool :=
  let n := code c in
  ((9 <=? n) && (n <=? 13) || (n =? 32) || (n =? 160))%N.

Fixpoint trimStart (s : string) : string :=
  match s with
  | EmptyString => EmptyString
  | String c s' => if isWhiteSpace c then trimStart s' else s
  end.

Fixpoint trimEnd (s : string) : string :=
  match s with
  | EmptyString => EmptyString
  | String c s' =>
      match trimEnd s' with
      | EmptyString => if isWhiteSpace c then EmptyString else String c EmptyString
      | t => String c t
      end
  end.

(** [s.trim()] *)
Definition trim (s : string) : string := trimEnd (trimStart s).

(** A string in a boolean position: only the empty string is falsy. *)
Definition truthy (s : string) : bool :=
  match s with EmptyString => false | _ => true end.

Fixpoint strlen (s : string) : nat :=
  match s with EmptyString => 0 | String _ s' => S (strlen s') end.

(** [s.startsWith(p)] *)
Fixpoint startsWith (p s : string) : bool :=
  match p, s with
  | EmptyString, _ => true
  | String a p', String b s' => Ascii.eqb a b && startsWith p' s'
  | String _ _, EmptyString => false
  end.

(** [s.split(sep)] for a one-character separator: the pieces between the
    occurrences of [sep]; the empty string gives one empty piece. *)
Fixpoint splitChar (sep : ascii) (s : string) : list string :=
  match s with
  | EmptyString => [EmptyString]
  | String c s' =>
      if Ascii.eqb c sep then EmptyString :: splitChar sep s'
      else match splitChar sep s' with
           | t :: ts => String c t :: ts
           | [] => [String c EmptyString]
           end
  end.

(** [s.split(/\s+/)]: the pieces between the maximal runs of white space.
    A run at the start or at the end of [s] leaves an empty piece there,
    as in JavaScript. *)
Fixpoint splitWs (s : string) : list string :=
  match s with
  | EmptyString => [EmptyString]
  | String c s' =>
      if isWhiteSpace c then
        match s' with
        | EmptyString => [EmptyString; EmptyString]
        | String c' _ =>
            if isWhiteSpace c' then splitWs s' else EmptyString :: splitWs s'
        end
      else match splitWs s' with
           | t :: ts => String c t :: ts
           | [] => [String c EmptyString]
           end
  end.

Definition between (lo hi : N) (c : ascii) : bool :=
  ((lo <=? code c) && (code c <=? hi))%N.

Definition isHexDigit (c : ascii) : bool :=
  between 48 57 c || between 97 102 c || between 65 70 c.

Fixpoint all (p : ascii -> bool) (s : string) : bool :=
  match s with
  | EmptyString => true
  | String c s' => p c && all p s'
  end.

(** [/^[0-9a-fA-F]+$/.test(s)] *)
Definition isHexString (s : string) : bool := truthy s && all isHexDigit s.

(** [/^[ -~]+$/.test(s)] *)
Definition isPrintable (s : string) : bool := truthy s && all (between 32 126) s.

(** The value of a digit in radices up to 36. *)
Definition digitValue (c : ascii) : option N :=
  if between 48 57 c then Some (code c - 48)%N
  else if between 97 122 c then Some (code c - 87)%N
  else if between 65 90 c then Some (code c - 55)%N
  else None.

(** The value of the longest prefix of [s] made of digits of [radix];
    [acc] is [None] until a digit has been read. *)
Fixpoint digits (radix : N) (acc : option N) (s : string) : option N :=
  match s with
  | EmptyString => acc
  | String c s' =>
      match digitValue c with
      | Some d =>
          if (d <? radix)%N
          then digits radix (Some (match acc with Some a => a * radix + d | None => d end)%N) s'
          else acc
      | None => acc
      end
  end.

Definition stripHexPrefix (s : string) : string :=
  match s with
  | String "0" (String "x" r) => r
  | String "0" (String "X" r) => r
  | _ => s
  end.

(** [parseInt(s, radix)] for a radix between 2 and 36; [None] is [NaN].
    The result is the exact integer; JavaScript rounds it to a double
    when it exceeds 2^53. *)
Definition parseInt (s : string) (radix : N) : option Z :=
  let s1 := trimStart s in
  let '(sign, s2) :=
    match s1 with
    | String "-" r => ((-1)%Z, r)
    | String "+" r => (1%Z, r)
    | _ => (1%Z, s1)
    end in
  let s3 := if (radix =? 16)%N then stripHexPrefix s2 else s2 in
  match digits radix None s3 with
  | Some n => Some (sign * Z.of_N n)%Z
  | None => None
  end.

Definition byteOfN (n : N) : Byte.byte :=
  match Byte.of_N n with Some b => b | None => Byte.x00 end.

(** [new TextEncoder().encode(s)]: UTF-8, one byte for a code unit below
    128 and two bytes for the others. *)
Fixpoint encode (s : string) : list Byte.byte :=
  match s with
  | EmptyString => []
  | String c s' =>
      let n := code c in
      (if (n <? 128)%N then [byteOfN n]
       else [byteOfN (192 + n / 64)%N; byteOfN (128 + n mod 64)%N]) ++ encode s'
  end.

End Js.

(* ===================================================================== *)
(** ** The hexdump parser *)
(* ===================================================================== *)

Module HexDump.
Import Js.

(** [HexLine] of the hex view; [offsetNum] is [None] when [parseInt]
    gives [NaN]. *)
Record HexLine := {
  offset : string;
  offsetNum : option Z;
  bytes : list string;
  ascii : string
}.

(** [hexGroup.substring(j, j + 2)] for [j = 0, 2, 4, ...], keeping only
    the pieces of length 2: a last odd character is dropped. *)
Fixpoint bytePairs (hexGroup : string) : list string :=
  match hexGroup with
  | String a (String b rest) => String a (String b EmptyString) :: bytePairs rest
  | _ => []
  end.

(** One round of the inner loop over [parts[1..]]: the pair is the
    [bytes] array and the [ascii] accumulator. *)
Definition classify (acc : list string * string) (hexGroup : string)
  : list string * string :=
  if isHexString hexGroup && Nat.leb 2 (strlen hexGroup)
  then (fst acc ++ bytePairs hexGroup, snd acc)
  else if isPrintable hexGroup
       then (fst acc, String.append (snd acc) (String.append hexGroup " "))
       else acc.

Definition scanParts (parts : list string) : list string * string :=
  fold_left classify (tl parts) ([], EmptyString).

(** [line.trim().split(/\s+/)] *)
Definition partsOf (line : string) : list string := splitWs (trim line).

(** The byte pairs the inner loop collects for [line]. *)
Definition lineBytes (line : string) : list string := fst (scanParts (partsOf line)).

(** The body of the loop [for (const line of linesArray)]; [lines] is the
    result array, and [push] appends to it. *)
Definition loopBody (lines : list HexLine) (line : string) : list HexLine :=
  if negb (startsWith "0x" line) then lines
  else
    let parts := partsOf line in
    if Nat.ltb (length parts) 3 then lines
    else
      let offset := hd EmptyString parts in
      let acc := scanParts parts in
      let ascii := trim (snd acc) in
      let offsetNum := parseInt offset 16 in
      if Nat.eqb (length (fst acc)) 16
      then lines ++ [ {| offset := offset; offsetNum := offsetNum;
                         bytes := fst acc; ascii := ascii |} ]
      else lines.

(** [output.split("\n").filter((line) => line.trim())] *)
Definition linesArray (output : string) : list string :=
  List.filter (fun line => truthy (trim line)) (splitChar "010" output).

Definition parseHexdump (output : string) : list HexLine :=
  fold_left loopBody (linesArray output) [].

End HexDump.


(* ===================================================================== *)
(** ** The package loader: [initializeWasmer] *)
(* ===================================================================== *)

Module Loader.
Import Js.

(** A package decoded by [Wasmer.fromWasm] from a binary image. *)
Inductive Wasmer := WasmerPkg (image : list Byte.byte).

Inductive Phase := initializing | downloading | processing | complete.

(** What one run of [initializeWasmer] does, in program order.  [Await] is
    a suspension point ([await]): the task yields to the event loop there.
    The page is rendered by React 18 ([ReactDOM.createRoot]), which applies
    the state updates of one synchronous stretch together, so the states a
    render can show are those reached at an [Await] or at the end. *)
Inductive Effect :=
| Await
| ImportSdk                                   (* import("@wasmer/sdk") *)
| InitSdk                                     (* init({ module: wasmerSDKModule }) *)
| CachesOpen (name : string)                  (* caches.open(name) *)
| CacheMatch (key : string)                   (* cache.match(key) *)
| SetPkg (p : Wasmer)
| SetDownloadPhase (ph : Phase)
| SetIsDownloading (b : bool)
| SetDownloadProgress (v : Q)
| Fetch (url : string)
| CachePut (key : string) (payload : list Byte.byte)
| ConsoleError
| SetTimeout (ms : nat).

Inductive Outcome := Returned | Rejected.

(** [reader.read()]: a chunk, or a rejection; the end of the list is
    [done]. *)
Inductive Read := Chunk (value : list Byte.byte) | ReadFails.

Record Response := {
  contentLength : option string;      (* headers.get("content-length") *)
  body : option (list Read)           (* response.body?.getReader() *)
}.

(** What the run depends on besides its arguments. *)
Record World := {
  cache : gmap string (list Byte.byte);            (* caches.open("wasm-cache") *)
  fetch : string -> option Response;               (* [None]: fetch rejects *)
  fromWasm : list Byte.byte -> option Wasmer;      (* [None]: fromWasm throws *)
  cachePutFails : bool;
  MODE : string;                                   (* import.meta.env.MODE *)
  VITE_VERCEL_PROJECT_PRODUCTION_URL : string;     (* empty when unset *)
  BASE_URL : string
}.

Definition wasmUrl (w : World) (version : string) : string :=
  if String.eqb version "6.0.9"
  then "https://radareorg.github.io/r2wasm/radare2.wasm"
  else if String.eqb (MODE w) "production" && truthy (VITE_VERCEL_PROJECT_PRODUCTION_URL w)
       then String.append "https://"
              (String.append (VITE_VERCEL_PROJECT_PRODUCTION_URL w)
                 (String.append "/api/vercel?version=" version))
       else String.append (BASE_URL w) (String.append "/wasm/" version).

(** [contentLength ? parseInt(contentLength, 10) : 0]; [None] is [NaN]. *)
Definition totalOf (r : Response) : option Z :=
  match contentLength r with
  | Some s => if truthy s then parseInt s 10 else Some 0%Z
  | None => Some 0%Z
  end.

(** [total > 0] *)
Definition positive (total : option Z) : bool :=
  match total with Some t => (0 <? t)%Z | None => false end.

Section Progress.

(** The progress percentage is computed in double precision.  [round] is
    the rounding of a real result to a double; the model only relies on
    its being monotone and exact on small integers, see [Rounding] below. *)
Variable round : Q -> Q.

(** [Math.min(30 + (loaded / total) * 50, 80)] *)
Definition progressOf (loaded total : Z) : Q :=
  (Qmin (round (30 + round (round (inject_Z loaded / inject_Z total) * 50))) 80)%Q.

(** The loop [while (true) { const { done, value } = await reader.read(); ... }]:
    the effects, and the chunks read unless a read rejected. *)
Fixpoint readLoop (total : option Z) (loaded : Z) (chunks : list (list Byte.byte))
    (reads : list Read) : list Effect * option (list (list Byte.byte)) :=
  match reads with
  | [] => ([Await], Some chunks)
  | ReadFails :: _ => ([Await], None)
  | Chunk value :: rest =>
      let chunks := chunks ++ [value] in
      let loaded := (loaded + Z.of_nat (length value))%Z in
      let report :=
        if positive total
        then [SetDownloadProgress
                (progressOf loaded (match total with Some t => t | None => 0%Z end))]
        else [] in
      let '(effects, result) := readLoop total loaded chunks rest in
      (Await :: report ++ effects, result)
  end.

(** After the loop: concatenation, decoding, caching, completion. *)
Definition finish (w : World) (version : string) (doCache : bool)
    (chunks : list (list Byte.byte)) : list Effect * Outcome :=
  let buffer := List.concat chunks in
  let before := [SetDownloadPhase processing; SetDownloadProgress 85%Q;
                 SetDownloadProgress 90%Q] in
  match fromWasm w buffer with
  | None => (before, Rejected)
  | Some packageInstance =>
      let decoded := before ++ [SetPkg packageInstance; SetDownloadProgress 95%Q] in
      let done := [SetDownloadProgress 100%Q; SetDownloadPhase complete; SetTimeout 500] in
      if doCache
      then if cachePutFails w
           then (decoded ++ [CachePut version buffer; Await], Rejected)
           else (decoded ++ [CachePut version buffer; Await] ++ done, Returned)
      else (decoded ++ done, Returned)
  end.

(** What every run begins with. *)
Definition start (version : string) : list Effect :=
  [ImportSdk; Await; InitSdk; Await; CachesOpen "wasm-cache"; Await;
   CacheMatch version; Await].

(** [initializeWasmer()], for the [version] and [cache] parameters of the
    page URL. *)
Definition initializeWasmer (w : World) (version : string) (doCache : bool)
  : list Effect * Outcome :=
  let start := start version in
  match cache w !! version with
  | Some payload =>
      match fromWasm w payload with
      | Some packageInstance => (start ++ [Await; SetPkg packageInstance], Returned)
      | None => (start ++ [Await], Rejected)
      end
  | None =>
      let announce := [SetDownloadPhase initializing; SetIsDownloading true;
                       SetDownloadProgress 10%Q;
                       SetDownloadPhase downloading; SetDownloadProgress 30%Q;
                       Fetch (wasmUrl w version); Await] in
      match fetch w (wasmUrl w version) with
      | None => (start ++ announce ++ [ConsoleError; SetIsDownloading false], Returned)
      | Some response =>
          let total := totalOf response in
          let '(streamed, result) :=
            match body response with
            | Some reads => readLoop total 0 [] reads
            | None => ([], Some [])
            end in
          match result with
          | None => (start ++ announce ++ streamed, Rejected)
          | Some chunks =>
              let '(rest, outcome) := finish w version doCache chunks in
              (start ++ announce ++ streamed ++ rest, outcome)
          end
      end
  end.

End Progress.

(** The state of the terminal page that the run writes. *)
Record Page := {
  pkg : option Wasmer;
  isDownloading : bool;
  downloadProgress : Q;
  downloadPhase : Phase
}.

(** The [useState] initial values. *)
Definition initialPage : Page :=
  {| pkg := None; isDownloading := false; downloadProgress := 0%Q;
     downloadPhase := initializing |}.

Definition apply (e : Effect) (s : Page) : Page :=
  match e with
  | SetPkg p =>
      {| pkg := Some p; isDownloading := isDownloading s;
         downloadProgress := downloadProgress s; downloadPhase := downloadPhase s |}
  | SetDownloadPhase ph =>
      {| pkg := pkg s; isDownloading := isDownloading s;
         downloadProgress := downloadProgress s; downloadPhase := ph |}
  | SetIsDownloading b =>
      {| pkg := pkg s; isDownloading := b;
         downloadProgress := downloadProgress s; downloadPhase := downloadPhase s |}
  | SetDownloadProgress v =>
      {| pkg := pkg s; isDownloading := isDownloading s;
         downloadProgress := v; downloadPhase := downloadPhase s |}
  | _ => s
  end.

(** The page states that a render can show while a run executes: the state
    at each suspension point and the state at the end. *)
Fixpoint shown (effects : list Effect) (s : Page) : list Page :=
  match effects with
  | [] => [s]
  | Await :: rest => s :: shown rest s
  | e :: rest => shown rest (apply e s)
  end.

(** The progress values in the order of the [setDownloadProgress] calls. *)
Fixpoint progressValues (effects : list Effect) : list Q :=
  match effects with
  | [] => []
  | SetDownloadProgress v :: rest => v :: progressValues rest
  | _ :: rest => progressValues rest
  end.

(** The progress values set while the phase last set is [ph]. *)
Fixpoint valuesIn (ph : Phase) (current : Phase) (effects : list Effect) : list Q :=
  match effects with
  | [] => []
  | SetDownloadPhase p :: rest => valuesIn ph p rest
  | SetDownloadProgress v :: rest =>
      match ph, current with
      | initializing, initializing | downloading, downloading
      | processing, processing | complete, complete => v :: valuesIn ph current rest
      | _, _ => valuesIn ph current rest
      end
  | _ :: rest => valuesIn ph current rest
  end.

Definition isFetch (e : Effect) : bool :=
  match e with Fetch _ => true | _ => false end.

Definition isProgressReport (e : Effect) : bool :=
  match e with
  | SetDownloadPhase _ | SetIsDownloading _ | SetDownloadProgress _ => true
  | _ => false
  end.

Fixpoint nondecreasing (l : list Q) : Prop :=
  match l with
  | a :: (b :: _) as rest => (a <= b)%Q /\ nondecreasing rest
  | _ => True
  end.

(** What the model assumes of rounding to a double. *)
Record Rounding (round : Q -> Q) : Prop := {
  round_mono : forall x y, (x <= y)%Q -> (round x <= round y)%Q;
  round_exact : forall z : Z, (Z.abs z <= 2 ^ 53)%Z -> (round (inject_Z z) == inject_Z z)%Q
}.

End Loader.

(* ===================================================================== *)
(** ** The [R2Tab] component *)
(* ===================================================================== *)

Module Tab.
Import Js.

Definition Wasmer := Loader.Wasmer.

(** The primary file, [{ name, data }]. *)
Record FileEntry := { name : string; data : list Byte.byte }.

(** Objects are identified by the order of their allocation: the n-th
    [new Directory()], the n-th instance that [run] resolved to, the n-th
    [new Terminal()].  A writer is identified by the instance whose
    standard input it writes. *)
Definition Directory := nat.
Definition Terminal := nat.
Definition Writer := nat.
Record Instance := { id : nat; hasStdin : bool }.

Inductive AbortController := NewAbortController.

(** The observable actions of the component, in program order. *)
Inductive Event :=
| TermWrite (s : string)                    (* term.write(s) *)
| TermWriteln (s : string)                  (* term.writeln(s) *)
| TermClear                                 (* term.clear() *)
| WriterClose (w : Writer)                  (* r2Writer.close() *)
| InstanceFree (i : nat)                    (* instance.free() *)
| NewDirectory (d : Directory)              (* new Directory() *)
| Run (pkg : Wasmer) (args : list string) (file : FileEntry)
      (mydir : Directory) (result : option Instance)
                                            (* pkg.entrypoint.run({ args, mount }) *)
| StdinWrite (w : Writer) (chunk : list Byte.byte)   (* stdin.write(chunk) *)
| Abort                                     (* cancelController.abort() *)
| Prompt (message : string)                 (* prompt(message) *)
| ClipboardRead                             (* navigator.clipboard.readText() *)
| ConsoleLog (s : string).

(** The [useState] cells of the component that the session code reads or
    writes. *)
Record Hooks := {
  termInstance : option Terminal;
  r2Writer : option Writer;
  dir : option Directory;
  instance : option Instance
}.

(** The bindings that the closures created by one render see: the props
    and the state values of that render.  A closure keeps the bindings of
    the render that created it, whatever the state becomes later. *)
Record Scope := {
  pkg : option Wasmer;
  file : option FileEntry;
  seen : Hooks
}.

(** The [term.onData] handler registered by one call of [connectStreams],
    with the variables of that call. *)
Record Conn := {
  scope : Scope;                  (* the render whose [connectStreams] ran *)
  stdin : option Writer;          (* instance.stdin?.getWriter() *)
  cancelController : option AbortController;
  history : list string;
  historyIndex : Z;
  currentInput : string
}.

(** The component instance and what surrounds it. *)
Record State := {
  props_pkg : option Wasmer;      (* the [pkg] prop *)
  props_file : option FileEntry;  (* the [file] prop *)
  hooks : Hooks;                  (* the current values of the state cells *)
  onDataDisposableRef : option Conn;   (* the live [onData] handler *)
  fileStore : option FileEntry;   (* what fileStore.getFile() returns; the
                                     module store/FileStore is not among the
                                     sources, its content is a parameter *)
  directories : nat;              (* how many directories were allocated *)
  instances : nat;                (* how many instances were started *)
  log : list Event
}.

(** What the operations depend on and do not decide. *)
Record Env := {
  closeThrows : Writer -> bool;          (* r2Writer.close() rejects *)
  freeThrows : nat -> bool;              (* instance.free() throws *)
  runResult : nat -> option bool         (* the n-th run: rejects, or resolves
                                            to an instance with or without stdin *)
}.

(** What the page supplies to one keystroke. *)
Record Ui := {
  promptAnswer : option string;   (* the result of prompt(...) *)
  cursorLine : string             (* the terminal line under the cursor *)
}.

(** *** A state and exception monad for the component code *)

Inductive Result (A : Type) := Done (a : A) | Thrown.
Arguments Done {A} a.
Arguments Thrown {A}.

Definition M (A : Type) := State -> Result A * State.

Definition ret {A} (a : A) : M A := fun s => (Done a, s).

Definition bind {A B} (m : M A) (k : A -> M B) : M B :=
  fun s => match m s with
           | (Done a, s') => k a s'
           | (Thrown, s') => (Thrown, s')
           end.

Definition throw {A} : M A := fun s => (Thrown, s).

(** [try { m } catch (_) { }] *)
Definition try_ {A} (m : M A) : M unit :=
  fun s => (Done tt, snd (m s)).

Notation "x <- m ;; k" := (bind m (fun x => k))
  (at level 95, m at next level, right associativity).
Notation "m ;;; k" := (bind m (fun _ => k))
  (at level 95, right associativity).

Definition setLog (l : list Event) (s : State) : State :=
  {| props_pkg := props_pkg s; props_file := props_file s; hooks := hooks s;
     onDataDisposableRef := onDataDisposableRef s; fileStore := fileStore s;
     directories := directories s; instances := instances s; log := l |}.

Definition setHooks (h : Hooks) (s : State) : State :=
  {| props_pkg := props_pkg s; props_file := props_file s; hooks := h;
     onDataDisposableRef := onDataDisposableRef s; fileStore := fileStore s;
     directories := directories s; instances := instances s; log := log s |}.

Definition setRef (c : option Conn) (s : State) : State :=
  {| props_pkg := props_pkg s; props_file := props_file s; hooks := hooks s;
     onDataDisposableRef := c; fileStore := fileStore s;
     directories := directories s; instances := instances s; log := log s |}.

Definition emit (e : Event) : M unit :=
  fun s => (Done tt, setLog (log s ++ [e]) s).

Definition emits (es : list Event) : M unit :=
  fun s => (Done tt, setLog (log s ++ es) s).

(** [new Directory()] *)
Definition newDirectory : M Directory :=
  fun s =>
    let d := directories s in
    (Done d,
     {| props_pkg := props_pkg s; props_file := props_file s; hooks := hooks s;
        onDataDisposableRef := onDataDisposableRef s; fileStore := fileStore s;
        directories := S d; instances := instances s;
        log := log s ++ [NewDirectory d] |}).

Definition setDir (d : Directory) : M unit :=
  fun s => (Done tt,
            setHooks {| termInstance := termInstance (hooks s); r2Writer := r2Writer (hooks s);
                        dir := Some d; instance := instance (hooks s) |} s).

Definition setInstance (i : Instance) : M unit :=
  fun s => (Done tt,
            setHooks {| termInstance := termInstance (hooks s); r2Writer := r2Writer (hooks s);
                        dir := dir (hooks s); instance := Some i |} s).

Definition setr2Writer (w : option Writer) : M unit :=
  fun s => (Done tt,
            setHooks {| termInstance := termInstance (hooks s); r2Writer := w;
                        dir := dir (hooks s); instance := instance (hooks s) |} s).

(** [await pkg.entrypoint!.run({ args, mount: { "./": { [file.name]: file.data }, mydir } })] *)
Definition run (env : Env) (pkg : Wasmer) (file : FileEntry) (mydir : Directory)
  : M Instance :=
  fun s =>
    let n := instances s in
    let args := ["-e"; "io.cache=1"; "-e"; "anal.depth=24"; name file] in
    match runResult env n with
    | None => (Thrown, setLog (log s ++ [Run pkg args file mydir None]) s)
    | Some withStdin =>
        let i := {| id := n; hasStdin := withStdin |} in
        (Done i,
         {| props_pkg := props_pkg s; props_file := props_file s; hooks := hooks s;
            onDataDisposableRef := onDataDisposableRef s; fileStore := fileStore s;
            directories := directories s; instances := S n;
            log := log s ++ [Run pkg args file mydir (Some i)] |})
    end.

(** [r2Writer?.close?.()] *)
Definition closeWriter (env : Env) (w : option Writer) : M unit :=
  match w with
  | None => ret tt
  | Some w => emit (WriterClose w) ;;; if closeThrows env w then throw else ret tt
  end.

(** [instance?.free()] *)
Definition freeInstance (env : Env) (i : option Instance) : M unit :=
  match i with
  | None => ret tt
  | Some i => emit (InstanceFree (id i)) ;;; if freeThrows env (id i) then throw else ret tt
  end.

(** [connectStreams(instance, term)], as defined by the render [sc]: the
    handler it registers calls the [restartSession] of that render.  The
    pipes from the output streams of the instance to the terminal are left
    out; what the terminal shows under the cursor is an input of the
    handler ([cursorLine]). *)
Definition connectStreams (sc : Scope) (i : Instance) (term : Terminal) : M unit :=
  let stdin := if hasStdin i then Some (id i) else None in
  setr2Writer stdin ;;;
  fun s =>
    (Done tt,
     setRef (Some {| scope := sc; stdin := stdin; cancelController := None;
                     history := []; historyIndex := (-1)%Z;
                     currentInput := EmptyString |}) s).

Definition ESC : string := String "027" EmptyString.
Definition CR : string := String "013" EmptyString.

(** [restartSession], as defined by the render [sc]. *)
Definition restartSession (env : Env) (sc : Scope) : M unit :=
  match pkg sc, termInstance (seen sc) with
  | Some pkg, Some term =>
      file <- (fun s => (Done (fileStore s), s)) ;;
      match file with
      | None => emit (TermWriteln "Error: No file provided")
      | Some file =>
          emits [TermWrite (String.append ESC "[A"); TermWrite (String.append ESC "[2K");
                 TermWrite CR; TermWriteln "Restarting session..."] ;;;
          try_ (closeWriter env (r2Writer (seen sc))) ;;;
          try_ (freeInstance env (instance (seen sc))) ;;;
          mydir <- newDirectory ;;
          setDir mydir ;;;
          newInstance <- run env pkg file mydir ;;
          setInstance newInstance ;;;
          connectStreams sc newInstance term
      end
  | _, _ => ret tt
  end.

(** The body of the effect [useEffect(() => { ... }, [pkg, termInstance, file])],
    as defined by the render [sc]. *)
Definition createEffect (env : Env) (sc : Scope) : M unit :=
  match pkg sc, termInstance (seen sc) with
  | Some pkg, Some term =>
      match file sc with
      | None => emit (TermWriteln "Error: No file provided")
      | Some file =>
          emits [TermWrite (String.append ESC "[A"); TermWrite (String.append ESC "[2K");
                 TermWrite CR] ;;;
          mydir <- newDirectory ;;
          setDir mydir ;;;
          newInstance <- run env pkg file mydir ;;
          setInstance newInstance ;;;
          connectStreams sc newInstance term
      end
  | _, _ => ret tt
  end.

(** *** The [term.onData] handler of [connectStreams] *)

Definition withInput (input : string) (c : Conn) : Conn :=
  {| scope := scope c; stdin := stdin c; cancelController := cancelController c;
     history := history c; historyIndex := historyIndex c; currentInput := input |}.

Definition withIndex (i : Z) (c : Conn) : Conn :=
  {| scope := scope c; stdin := stdin c; cancelController := cancelController c;
     history := history c; historyIndex := i; currentInput := currentInput c |}.

Definition withHistory (h : list string) (c : Conn) : Conn :=
  {| scope := scope c; stdin := stdin c; cancelController := cancelController c;
     history := h; historyIndex := historyIndex c; currentInput := currentInput c |}.

Definition withController (k : option AbortController) (c : Conn) : Conn :=
  {| scope := scope c; stdin := stdin c; cancelController := k;
     history := history c; historyIndex := historyIndex c; currentInput := currentInput c |}.

(** [stdin?.write(encoder.encode(text))] *)
Definition stdinWrite (c : Conn) (text : string) : list Event :=
  match stdin c with
  | Some w => [StdinWrite w (encode text)]
  | None => []
  end.

(** [history[i]].  The handler only reads the array at an index within it
    (lemma [history_read_in_range]); the default is never returned there. *)
Definition entry (h : list string) (i : Z) : string :=
  nth (Z.to_nat i) h EmptyString.

(** [s.slice(0, -1)] *)
Fixpoint dropLast (s : string) : string :=
  match s with
  | EmptyString => EmptyString
  | String _ EmptyString => EmptyString
  | String c s' => String c (dropLast s')
  end.

Definition isLineTerminator (c : ascii) : bool :=
  Ascii.eqb c "010" || Ascii.eqb c "013".

(** The longest prefix of [s] that has no line terminator and ends with a
    closing bracket: what the greedy [.*\]] matches at the start of [s]. *)
Fixpoint upToLastBracket (s : string) : option string :=
  match s with
  | EmptyString => None
  | String c s' =>
      if isLineTerminator c then None
      else match upToLastBracket s' with
           | Some t => Some (String c t)
           | None => if Ascii.eqb c "]" then Some (String c EmptyString) else None
           end
  end.

Fixpoint skip (n : nat) (s : string) : string :=
  match n, s with
  | S n', String _ s' => skip n' s'
  | _, _ => s
  end.

(** [line.match(/\[0x.*\]/)?.[0]]: the leftmost match. *)
Fixpoint matchPrompt (line : string) : option string :=
  match line with
  | EmptyString => None
  | String _ rest =>
      match (if startsWith "[0x" line then upToLastBracket (skip 3 line) else None) with
      | Some t => Some (String.append "[0x" t)
      | None => matchPrompt rest
      end
  end.

Definition CtrlC : string := String "003" EmptyString.
Definition CtrlV : string := String "022" EmptyString.
Definition CtrlR : string := String "018" EmptyString.
Definition CtrlL : string := String "012" EmptyString.
Definition CtrlF : string := String "006" EmptyString.
Definition CtrlG : string := String "007" EmptyString.
Definition Backspace : string := String "127" EmptyString.
Definition ArrowUp : string := String.append ESC "[A".
Definition ArrowDown : string := String.append ESC "[B".
Definition eraseLine : string := String.append ESC (String.append "[2K" CR).

(** The callback passed to [term.onData]: the new values of the variables
    of [connectStreams], the actions performed, and whether
    [restartSession()] was called. *)
Definition handler (ui : Ui) (c : Conn) (data : string) : Conn * list Event * bool :=
  if String.eqb data CtrlC then
    match cancelController c with
    | Some _ =>
        (withController None c,
         [Abort; TermWrite (String.append "^C" CR)] ++ stdinWrite c CR, false)
    | None => (c, [], false)
    end
  else if String.eqb data CtrlV then (c, [ClipboardRead], false)
  else if String.eqb data CtrlR || String.eqb data "R" then (c, [], true)
  else if String.eqb data CtrlL || String.eqb data "L" then (c, [TermClear], false)
  else if String.eqb data CtrlF || String.eqb data "F" then
    match promptAnswer ui with
    | Some searchTerm =>
        (c, Prompt "Enter search term:" ::
            (if truthy searchTerm
             then stdinWrite c (String.append "/ " searchTerm) ++ stdinWrite c CR
             else []), false)
    | None => (c, [Prompt "Enter search term:"], false)
    end
  else if String.eqb data CtrlG || String.eqb data "G" then
    match promptAnswer ui with
    | Some address =>
        (c, Prompt "Enter address:" ::
            (if truthy address
             then stdinWrite c (String.append "s " address) ++ stdinWrite c CR
             else []), false)
    | None => (c, [Prompt "Enter address:"], false)
    end
  else if String.eqb data CR then
    let forwarded := stdinWrite c (currentInput c) ++ stdinWrite c CR in
    if truthy (trim (currentInput c)) then
      let history' := history c ++ [currentInput c] in
      let prompt := cursorLine ui in
      let shown :=
        match matchPrompt prompt with
        | Some cprompt => String.append eraseLine (String.append cprompt " ")
        | None => String.append eraseLine "]> "
        end in
      (withInput EmptyString
         (withIndex (Z.of_nat (length history')) (withHistory history' c)),
       [ConsoleLog (String.append "Prompt: " prompt); TermWrite shown] ++ forwarded, false)
    else (withInput EmptyString c, forwarded, false)
  else if String.eqb data ArrowUp then
    if (0 <? historyIndex c)%Z then
      let i := (historyIndex c - 1)%Z in
      (withInput (entry (history c) i) (withIndex i c),
       [TermWrite (String.append eraseLine (entry (history c) i))], false)
    else (c, [], false)
  else if String.eqb data ArrowDown then
    if (historyIndex c <? Z.of_nat (length (history c)) - 1)%Z then
      let i := (historyIndex c + 1)%Z in
      (withInput (entry (history c) i) (withIndex i c),
       [TermWrite (String.append eraseLine (entry (history c) i))], false)
    else if (historyIndex c =? Z.of_nat (length (history c)) - 1)%Z then
      (withInput EmptyString (withIndex (historyIndex c + 1)%Z c),
       [TermWrite eraseLine], false)
    else (c, [], false)
  else if String.eqb data Backspace then
    if Nat.ltb 0 (strlen (currentInput c)) then
      (withInput (dropLast (currentInput c)) c,
       [TermWrite (String.append ESC (String.append "[D " (String.append ESC "[D")))], false)
    else (c, [], false)
  else
    (withController (Some NewAbortController)
       (withInput (String.append (currentInput c) data) c),
     TermWrite data :: (match cancelController c with Some _ => [Abort] | None => [] end),
     false).

(** The continuation of [navigator.clipboard.readText()]: the text, or a
    rejection. *)
Definition pasted (c : Conn) (text : option string) : Conn * list Event :=
  match text with
  | Some text => (withInput (String.append (currentInput c) text) c, [TermWrite text])
  | None =>
      (c, [ConsoleLog "Error reading clipboard:";
           TermWrite (String.append CR (String.append (String "010" "Error: Failed to read clipboard")
                                          (String.append CR (String "010" EmptyString))))])
  end.

(** One unit of terminal input delivered to the live handler.  The
    handler does not await [restartSession()]: a rejection is not seen.
    The restart is taken to finish before the next unit of input. *)
Definition onData (env : Env) (ui : Ui) (data : string) : M unit :=
  fun s =>
    match onDataDisposableRef s with
    | None => (Done tt, s)
    | Some c =>
        let '(c', events, restart) := handler ui c data in
        (emits events ;;;
         (fun s => (Done tt, setRef (Some c') s)) ;;;
         (if restart then try_ (restartSession env (scope c)) else ret tt)) s
    end.

(** A sequence of input units, each with what the page supplies. *)
Fixpoint typed (env : Env) (ui : Ui) (keys : list string) : M unit :=
  match keys with
  | [] => ret tt
  | k :: rest => onData env ui k ;;; typed env ui rest
  end.

(** The bindings of the latest render. *)
Definition currentScope (s : State) : Scope :=
  {| pkg := props_pkg s; file := props_file s; seen := hooks s |}.

(** The effect [useEffect(() => { ... }, [pkg, termInstance, file])] runs
    with the closures of the render that scheduled it, and again only when
    one of its three dependencies changes: the state cells it sets are not
    among them. *)
Definition create (env : Env) : M unit :=
  fun s => createEffect env (currentScope s) s.

(** [ref.restartSession()]: [useImperativeHandle] republishes the handle at
    every render, so the page's Restart button calls the [restartSession]
    of the latest render. *)
Definition handleRestart (env : Env) : M unit :=
  fun s => restartSession env (currentScope s) s.

End Tab.

(* ===================================================================== *)
(** ** The proxy route [GET /wasm/:version] *)
(* ===================================================================== *)

Module Proxy.

(** The three streams of the route: [response.data], the stream made by
    [unzipper.ParseOne(/radare2\.wasm$/)], and the response [res]. *)
Inductive Stream := Upstream | ParseOne | Res.

Definition sameStream (a b : Stream) : bool :=
  match a, b with
  | Upstream, Upstream | ParseOne, ParseOne | Res, Res => true
  | _, _ => false
  end.

(** [src.pipe(dst)]: Node forwards the data of [src] to [dst] and returns
    [dst], so that pipes chain.  It does not forward the ['error'] events
    of [src]. *)
Definition pipe (src dst : Stream) : Stream := dst.

Inductive Chunk := Payload (bytes : list Byte.byte) | Text (s : string).

(** The response: [headerBlocks] counts how many times a status line and
    headers were written to the connection. *)
Record ServerResponse := {
  headersSent : bool;
  statusCode : nat;
  headers : list (string * string);
  body : list Chunk;
  ended : bool;
  headerBlocks : nat
}.

(** The response as the route receives it, after [app.use(cors())]. *)
Definition fresh : ServerResponse :=
  {| headersSent := false; statusCode := 200;
     headers := [("Access-Control-Allow-Origin", "*")];
     body := []; ended := false; headerBlocks := 0 |}.

(** [res.set({ ... })]: a field replaces the header of the same name. *)
Definition set (fields : list (string * string)) (r : ServerResponse) : ServerResponse :=
  {| headersSent := headersSent r; statusCode := statusCode r;
     headers :=
       List.filter (fun h => negb (existsb (String.eqb (fst h)) (List.map fst fields)))
         (headers r) ++ fields;
     body := body r; ended := ended r;
     headerBlocks := headerBlocks r |}.

(** [res.status(code)] *)
Definition status (code : nat) (r : ServerResponse) : ServerResponse :=
  {| headersSent := headersSent r; statusCode := code;
     headers := headers r; body := body r; ended := ended r;
     headerBlocks := headerBlocks r |}.

(** The first write or the end of the response sends the header block. *)
Definition flushHeaders (r : ServerResponse) : ServerResponse :=
  if headersSent r then r
  else {| headersSent := true; statusCode := statusCode r;
          headers := headers r; body := body r; ended := ended r;
          headerBlocks := S (headerBlocks r) |}.

(** [res.write(chunk)], as the pipe calls it. *)
Definition write (c : Chunk) (r : ServerResponse) : ServerResponse :=
  let r := flushHeaders r in
  {| headersSent := headersSent r; statusCode := statusCode r;
     headers := headers r; body := body r ++ [c]; ended := ended r;
     headerBlocks := headerBlocks r |}.

(** [res.end()] *)
Definition finish (r : ServerResponse) : ServerResponse :=
  let r := flushHeaders r in
  {| headersSent := headersSent r; statusCode := statusCode r;
     headers := headers r; body := body r; ended := true;
     headerBlocks := headerBlocks r |}.

(** [res.send(text)] on a response whose headers were not sent. *)
Definition send (text : string) (r : ServerResponse) : ServerResponse :=
  finish (write (Text text) r).

(** The route while the streams run. *)
Record Route := {
  res : ServerResponse;
  errorListeners : list Stream;   (* the streams that carry the route's
                                     ['error'] listener *)
  uncaught : bool;                (* an ['error'] event found no listener:
                                     Node throws it, nothing handles it *)
  console : list string
}.

(** What the streams do after the route has set them up. *)
Inductive StreamEvent :=
| Data (bytes : list Byte.byte)   (* ParseOne emits bytes of the entry *)
| End                             (* ParseOne ends *)
| Error (on : Stream).            (* a stream emits ['error'] *)

Definition withRes (r : ServerResponse) (k : Route) : Route :=
  {| res := r; errorListeners := errorListeners k; uncaught := uncaught k;
     console := console k |}.

Definition logged (line : string) (k : Route) : Route :=
  {| res := res k; errorListeners := errorListeners k; uncaught := uncaught k;
     console := console k ++ [line] |}.

(** The listener [(err) => { console.error(...); if (!res.headersSent) { ... } }] *)
Definition onError (k : Route) : Route :=
  let k := logged "Error extracting WASM:" k in
  if headersSent (res k) then k
  else withRes (send "Error extracting WASM file" (status 500 (res k))) k.

Definition deliver (k : Route) (e : StreamEvent) : Route :=
  if uncaught k then k
  else match e with
       | Data bytes => withRes (write (Payload bytes) (res k)) k
       | End => withRes (finish (res k)) k
       | Error on =>
           if existsb (sameStream on) (errorListeners k) then onError k
           else {| res := res k; errorListeners := errorListeners k; uncaught := true;
                   console := console k |}
       end.

Definition zipUrl (version : string) : string :=
  String.append "https://github.com/radareorg/radare2/releases/download/"
    (String.append version
       (String.append "/radare2-" (String.append version "-wasi.zip"))).

(** The stream on which the route registers its listener:
    [response.data.pipe(ParseOne).pipe(res).on('error', ...)]. *)
Definition listenerTarget : Stream := pipe (pipe Upstream ParseOne) Res.

(** The handler of [app.get('/wasm/:version', ...)].  [fetched] tells
    whether [axios.get(zipUrl, ...)] resolved; [events] is what the streams
    do afterwards. *)
Definition handle (version : string) (fetched : bool) (events : list StreamEvent) : Route :=
  let k := {| res := fresh; errorListeners := []; uncaught := false;
              console := [String.append "Fetching and extracting WASM for version "
                            (String.append version "...")] |} in
  if fetched then
    let r := set [("Content-Type", "application/wasm");
                  ("Access-Control-Allow-Origin", "*");
                  ("Access-Control-Allow-Methods", "GET, OPTIONS");
                  ("Access-Control-Allow-Headers", "*")] (res k) in
    fold_left deliver events
      {| res := r; errorListeners := [listenerTarget]; uncaught := false;
         console := console k |}
  else
    let k := logged "Error fetching ZIP file:" k in
    if headersSent (res k) then k
    else withRes (send "Error fetching ZIP file" (status 500 (res k))) k.

End Proxy.

(* ===================================================================== *)
(** ** More JavaScript primitives *)
(* ===================================================================== *)

Module JsMore.
Import Js.

(** [s.repeat(n)] *)
Fixpoint repeatString (s : string) (n : nat) : string :=
  match n with
  | 0 => EmptyString
  | S n' => String.append s (repeatString s n')
  end.

(** [a < b] on strings: the order of the code units, a proper prefix
    being smaller. *)
Fixpoint ltString (a b : string) : bool :=
  match a, b with
  | _, EmptyString => false
  | EmptyString, String _ _ => true
  | String x a', String y b' =>
      ((code x <? code y) || ((code x =? code y) && ltString a' b'))%N
  end.

(** [a >= b] on strings *)
Definition geString (a b : string) : bool := negb (ltString a b).

(** [parts.join(sep)] *)
Fixpoint join (sep : string) (parts : list string) : string :=
  match parts with
  | [] => EmptyString
  | [p] => p
  | p :: rest => String.append p (String.append sep (join sep rest))
  end.

(** The digit of a value below 16, as [toString(16)] writes it. *)
Definition hexDigit (d : N) : ascii :=
  ascii_of_N (if (d <? 10)%N then 48 + d else 87 + d)%N.

(** The digits of [n] in base 16 put in front of [acc], the last one
    first; [fuel] bounds the number of digits. *)
Fixpoint toHex (fuel : nat) (n : N) (acc : string) : string :=
  match fuel with
  | 0 => acc
  | S fuel' =>
      let acc' := String (hexDigit (n mod 16)) acc in
      if (n / 16 =? 0)%N then acc' else toHex fuel' (n / 16)%N acc'
  end.

(** [n.toString(16)] for an integer [n >= 0]. *)
Definition toString16 (n : N) : string :=
  toHex (S (N.to_nat (N.log2 n))) n EmptyString.

(** [s.padStart(width, "0")] *)
Definition padStart0 (width : nat) (s : string) : string :=
  String.append (repeatString "0" (width - strlen s)) s.

(** [array.slice(start, end)] *)
Definition slice {A : Type} (l : list A) (start stop : Z) : list A :=
  let len := Z.of_nat (length l) in
  let from := if (start <? 0)%Z then Z.max (len + start) 0 else Z.min start len in
  let to := if (stop <? 0)%Z then Z.max (len + stop) 0 else Z.min stop len in
  firstn (Z.to_nat (to - from)) (skipn (Z.to_nat from) l).

(** [array[i]]: [None] is [undefined]. *)
Definition at_ {A : Type} (l : list A) (i : Z) : option A :=
  if (i <? 0)%Z then None else nth_error l (Z.to_nat i).

(** [array.indexOf(x)] on numbers *)
Fixpoint indexOf (x : Z) (l : list Z) : Z :=
  match l with
  | [] => (-1)%Z
  | y :: rest =>
      if (y =? x)%Z then 0%Z
      else let i := indexOf x rest in if (i <? 0)%Z then (-1)%Z else (i + 1)%Z
  end.

(** The lower case of a code unit below 256: the letters A to Z and the
    capital letters of Latin-1. *)
Definition lowerChar (c : ascii) : ascii :=
  let n := code c in
  if ((65 <=? n) && (n <=? 90) || (192 <=? n) && (n <=? 222) && negb (n =? 215))%N
  then ascii_of_N (n + 32) else c.

(** [s.toLowerCase()], for a text of code units below 256: there the
    lower case of a text is made of the lower cases of its code units.
    Outside this range the lower case of a letter can depend on its
    neighbours. *)
Fixpoint toLowerCase (s : string) : string :=
  match s with
  | EmptyString => EmptyString
  | String c s' => String (lowerChar c) (toLowerCase s')
  end.

(** [s.includes(sub)] *)
Fixpoint includes (s sub : string) : bool :=
  startsWith sub s
  || match s with
     | EmptyString => false
     | String _ s' => includes s' sub
     end.

End JsMore.

(* ===================================================================== *)
(** ** The terminal page: tabs and buttons *)
(* ===================================================================== *)

Module Page.
Import Js JsMore HexDump.

(** *** The tab bar *)

(** The [tabs] and [activeTab] state cells; [activeTab] is [None] when it
    has been set to [undefined]. *)
Record Bar := { tabs : list Z; activeTab : option Z }.

(** The initial values of the two cells. *)
Definition initialBar : Bar := {| tabs := [0%Z]; activeTab := Some 0%Z |}.

(** [Math.max(...prev)] of a non-empty array *)
Definition maxOf (prev : list Z) : Z :=
  match prev with
  | [] => 0%Z
  | x :: rest => fold_left Z.max rest x
  end.

(** The + button: [setTabs((prev) => { ... setActiveTab(nextId); return newArr; })] *)
Definition addTab (b : Bar) : Bar :=
  let prev := tabs b in
  let nextId := match prev with [] => 0%Z | _ => (maxOf prev + 1)%Z end in
  {| tabs := prev ++ [nextId]; activeTab := Some nextId |}.

(** [activeTab === id] *)
Definition isActive (b : Bar) (id : Z) : bool :=
  match activeTab b with Some a => (a =? id)%Z | None => false end.

(** The x of the tab [id]: the update of the two cells. *)
Definition closeTab (id : Z) (b : Bar) : Bar :=
  let prev := tabs b in
  let idx := indexOf id prev in
  let remaining := List.filter (fun tid => negb (tid =? id)%Z) prev in
  {| tabs := remaining;
     activeTab :=
       if isActive b id
       then match remaining with
            | [] => Some (-1)%Z
            | _ => at_ remaining (Z.max 0 (idx - 1))
            end
       else activeTab b |}.

Definition setActive (a : option Z) (b : Bar) : Bar := {| tabs := tabs b; activeTab := a |}.

(** [order.indexOf(activeTab)] *)
Definition curIndex (b : Bar) : Z :=
  match activeTab b with Some a => indexOf a (tabs b) | None => (-1)%Z end.

(** Alt+digit, for the number [num] of the key. *)
Definition altDigit (num : Z) (b : Bar) : Bar :=
  if ((1 <=? num) && (num <=? 9))%Z
  then setActive (at_ (tabs b) (Z.min (num - 1) (Z.of_nat (length (tabs b)) - 1))) b
  else b.

(** Alt+ArrowRight: [order[(curIndex + 1) % order.length]].  The
    remainder by 0 is [NaN], and the element at [NaN] is [undefined]. *)
Definition altRight (b : Bar) : Bar :=
  let len := Z.of_nat (length (tabs b)) in
  setActive (if (len =? 0)%Z then None
             else at_ (tabs b) (Z.rem (curIndex b + 1) len)) b.

(** Alt+ArrowLeft: [order[(curIndex - 1 + order.length) % order.length]] *)
Definition altLeft (b : Bar) : Bar :=
  let len := Z.of_nat (length (tabs b)) in
  setActive (if (len =? 0)%Z then None
             else at_ (tabs b) (Z.rem (curIndex b - 1 + len) len)) b.

(** *** Buttons that depend on the version *)

(** [currentVersion >= "6.0.9"]: the structured views and the graph *)
Definition hasStructuredViews (currentVersion : string) : bool :=
  geString currentVersion "6.0.9".

(** [currentVersion >= "6.0.3"]: saving the modified file *)
Definition canSaveFile (currentVersion : string) : bool :=
  geString currentVersion "6.0.3".

(** The name under which the modified file is written and downloaded:
    [`${name.split(".").slice(0, -1).join(".")}_m.${name.split(".").pop()}`] *)
Definition savedName (name : string) : string :=
  let parts := splitChar "." name in
  String.append (join "." (removelast parts))
    (String.append "_m." (List.last parts EmptyString)).

End Page.

(* ===================================================================== *)
(** ** The tab component: banner, handle *)
(* ===================================================================== *)

Module TabHandle.
Import Js JsMore.

(** [fullWidthLine(char)], for a terminal of [cols] columns. *)
Definition fullWidthLine (cols : nat) (char : string) : string :=
  repeatString char cols.

(** [centerPad(text)], for a terminal of [cols] columns. *)
Definition centerPad (cols : nat) (text : string) : string :=
  let padding := Z.max 0 (Z.of_nat cols - Z.of_nat (strlen text)) in
  let left := (padding / 2)%Z in
  let right := (padding - left)%Z in
  String.append (repeatString " " (Z.to_nat left))
    (String.append text (repeatString " " (Z.to_nat right))).

Definition welcomeLines (cols : nat) : list string :=
  [fullWidthLine cols "-";
   centerPad cols "Welcome to r2web!";
   centerPad cols "Source: https://github.com/radareorg/r2web";
   fullWidthLine cols "-";
   EmptyString].

(** What [dispose] releases. *)
Inductive Release :=
| CloseWriter (w : Tab.Writer)
| FreeInstance (i : nat)
| DisposeHandler
| DisposeTerminal (t : Tab.Terminal).

(** A step of [dispose]: what it did, and whether it threw. *)
Definition Steps := (list Release * bool)%type.

(** [a; b]: when [a] throws, [b] does not run. *)
Definition andThen (a b : Steps) : Steps :=
  if snd a then a else (fst a ++ fst b, snd b).

(** [try { a } catch { }] *)
Definition caught (a : Steps) : Steps := (fst a, false).

(** One call on an object that may be absent, and may throw. *)
Definition call (target : option Release) (throws : bool) : Steps :=
  match target with
  | Some r => ([r], throws)
  | None => ([], false)
  end.

(** Which of the four calls of [dispose] throw. *)
Record Faults := {
  closeFails : bool; freeFails : bool; handlerFails : bool; terminalFails : bool
}.

(** [dispose], as published by the render [sc], with a handler registered
    or not. *)
Definition dispose (faults : Faults) (sc : Tab.Scope) (handler : bool) : Steps :=
  andThen (caught (call (option_map CloseWriter (Tab.r2Writer (Tab.seen sc)))
                     (closeFails faults)))
    (andThen (caught (call (option_map (fun i => FreeInstance (Tab.id i))
                              (Tab.instance (Tab.seen sc)))
                        (freeFails faults)))
       (andThen (caught (call (if handler then Some DisposeHandler else None)
                           (handlerFails faults)))
          (caught (call (option_map DisposeTerminal (Tab.termInstance (Tab.seen sc)))
                     (terminalFails faults))))).

(** The files of a mounted directory, by path. *)
Definition Files := gmap string (list Byte.byte).

(** [uploadFiles(files)], as published by the render [sc], on the files
    of the directory of that render: each file is written at the path
    made of a slash and its name.  The writes are started in the order of
    the list and are not ordered among themselves. *)
Definition uploadFiles (sc : Tab.Scope) (uploads : list Tab.FileEntry)
    (content : Files) : Files :=
  match Tab.dir (Tab.seen sc) with
  | None => content
  | Some _ =>
      fold_left (fun d f => <[String "/" (Tab.name f) := Tab.data f]> d) uploads content
  end.

End TabHandle.

(* ===================================================================== *)
(** ** The strings view *)
(* ===================================================================== *)

Module StringsView.
Import Js JsMore.

Definition ITEMS_PER_PAGE : nat := 100.

(** [Math.ceil(filteredStrings.length / ITEMS_PER_PAGE)] *)
Definition totalPages (count : nat) : nat :=
  (count + (ITEMS_PER_PAGE - 1)) / ITEMS_PER_PAGE.

(** [filteredStrings.slice(startIndex, endIndex)] *)
Definition visibleStrings {A : Type} (filteredStrings : list A) (currentPage : Z) : list A :=
  let startIndex := ((currentPage - 1) * Z.of_nat ITEMS_PER_PAGE)%Z in
  let endIndex := (startIndex + Z.of_nat ITEMS_PER_PAGE)%Z in
  slice filteredStrings startIndex endIndex.

(** [handlePageChange(page)]: the new current page. *)
Definition handlePageChange (count : nat) (currentPage page : Z) : Z :=
  if ((1 <=? page) && (page <=? Z.of_nat (totalPages count)))%Z then page else currentPage.

(** [handlePageJump()]: the new current page, for the text of the page
    field. *)
Definition handlePageJump (count : nat) (currentPage : Z) (pageInput : string) : Z :=
  match parseInt pageInput 10 with
  | Some pageNum =>
      if ((1 <=? pageNum) && (pageNum <=? Z.of_nat (totalPages count)))%Z
      then pageNum else currentPage
  | None => currentPage
  end.

(** [formatAddress(addr)], for an address that is an integer [>= 0]. *)
Definition formatAddress (addr : N) : string :=
  String.append "0x" (padStart0 8 (toString16 addr)).

(** An entry of the output of [izj]. *)
Record StringInfo := {
  vaddr : N;
  paddr : N;
  ordinal : N;
  size : N;
  length : N;
  section : string;
  type : string;
  string_ : string
}.

(** The three filters of the view, for the debounced search term and the
    two selections. *)
Definition matchesSearch (debouncedSearchTerm : string) (s : StringInfo) : bool :=
  String.eqb debouncedSearchTerm EmptyString
  || includes (toLowerCase (string_ s)) (toLowerCase debouncedSearchTerm)
  || includes (toString16 (vaddr s)) (toLowerCase debouncedSearchTerm)
  || includes (toString16 (paddr s)) (toLowerCase debouncedSearchTerm).

Definition matchesSection (filterSection : string) (s : StringInfo) : bool :=
  String.eqb filterSection "all" || String.eqb (section s) filterSection.

Definition matchesType (filterType : string) (s : StringInfo) : bool :=
  String.eqb filterType "all" || String.eqb (type s) filterType.

Definition filteredStrings (strings : list StringInfo)
    (debouncedSearchTerm filterSection filterType : string) : list StringInfo :=
  List.filter (fun s => matchesSearch debouncedSearchTerm s
                        && matchesSection filterSection s
                        && matchesType filterType s) strings.

End StringsView.

(* ===================================================================== *)
(** * Theorems *)
(* ===================================================================== *)

(** ** The hexdump parser *)

Module HexDumpSpec.
Import Js HexDump.

Definition sampleLine : string :=
  "0x00000000 41 42 43 44 45 46 47 48 49 4a 4b 4c 4d 4e 4f 50  ABCDEFGHIJKLMNOP".

(** The same line without its last byte. *)
Definition shortLine : string :=
  "0x00000000 41 42 43 44 45 46 47 48 49 4a 4b 4c 4d 4e 4f  ABCDEFGHIJKLMNO".

(** A line whose sixteen bytes spell only hexadecimal letters. *)
Definition hexLettersLine : string :=
  "0x00000010 41 42 43 44 45 46 41 42 43 44 45 46 41 42 43 44  ABCDEFABCDEFABCD".

Lemma loopBody_appends (lines : list HexLine) (line : string) :
  loopBody lines line = lines ++ loopBody [] line.
Proof.
  unfold loopBody.
  destruct (negb (startsWith "0x" line)); [now rewrite app_nil_r|].
  destruct (Nat.ltb (length (partsOf line)) 3); [now rewrite app_nil_r|].
  destruct (Nat.eqb (length (fst (scanParts (partsOf line)))) 16);
    [reflexivity | now rewrite app_nil_r].
Qed.

Lemma fold_loopBody (ls : list string) (acc : list HexLine) :
  fold_left loopBody ls acc = acc ++ flat_map (loopBody []) ls.
Proof.
  revert acc; induction ls as [|l ls IH]; intros acc; simpl.
  - now rewrite app_nil_r.
  - rewrite IH, (loopBody_appends acc l), <- app_assoc. reflexivity.
Qed.

Lemma loopBody_needs_16 (lines : list HexLine) (line : string) :
  length (lineBytes line) <> 16 -> loopBody lines line = lines.
Proof.
  intros Hn. unfold loopBody, lineBytes in *.
  destruct (negb (startsWith "0x" line)); [reflexivity|].
  destruct (Nat.ltb (length (partsOf line)) 3); [reflexivity|].
  destruct (Nat.eqb_spec (length (fst (scanParts (partsOf line)))) 16) as [E|E];
    [contradiction | reflexivity].
Qed.

Lemma loopBody_record (line : string) (r : HexLine) :
  In r (loopBody [] line) -> length (bytes r) = 16.
Proof.
  unfold loopBody.
  destruct (negb (startsWith "0x" line)); [intros []|].
  destruct (Nat.ltb (length (partsOf line)) 3); [intros []|].
  destruct (Nat.eqb_spec (length (fst (scanParts (partsOf line)))) 16) as [E|E];
    [|intros []].
  intros [<- | []]. exact E.
Qed.

Lemma bytePairs_nonempty (s : string) :
  2 <= strlen s -> 1 <= length (bytePairs s).
Proof.
  destruct s as [|a [|b r]]; simpl; lia.
Qed.

Lemma classify_hex (acc : list string * string) (tok : string) :
  isHexString tok = true -> 2 <= strlen tok ->
  classify acc tok = (fst acc ++ bytePairs tok, snd acc).
Proof.
  intros Hh Hl. unfold classify. rewrite Hh.
  destruct (Nat.leb_spec 2 (strlen tok)) as [_|Hlt]; [reflexivity | lia].
Qed.

(** C1.  The sample line yields exactly one record, with numeric offset 0,
    the sixteen byte pairs "41" to "50" and the text "ABCDEFGHIJKLMNOP".
    For every input, the result is made of what each line contributes, and
    a line whose byte pairs are not exactly 16 contributes nothing: the
    loop body leaves the result array as it was, so every record of a
    result has 16 byte pairs.  The parser has no error result. *)
Theorem parseHexdump_sample_and_partial_lines :
  parseHexdump sampleLine =
    [ {| offset := "0x00000000"; offsetNum := Some 0%Z;
         bytes := ["41"; "42"; "43"; "44"; "45"; "46"; "47"; "48";
                   "49"; "4a"; "4b"; "4c"; "4d"; "4e"; "4f"; "50"];
         ascii := "ABCDEFGHIJKLMNOP" |} ]
  /\ (forall output,
        parseHexdump output = flat_map (loopBody []) (linesArray output))
  /\ (forall lines line,
        length (lineBytes line) <> 16 -> loopBody lines line = lines)
  /\ (forall output,
        Forall (fun r => length (bytes r) = 16) (parseHexdump output)).
Proof.
  split; [vm_compute; reflexivity|]. split; [|split].
  - intros output. unfold parseHexdump. now rewrite fold_loopBody.
  - apply loopBody_needs_16.
  - intros output. unfold parseHexdump. rewrite fold_loopBody. simpl.
    apply List.Forall_forall. intros r Hr. apply in_flat_map in Hr.
    destruct Hr as (line & _ & Hr). exact (loopBody_record line r Hr).
Qed.

(** The line with fifteen byte pairs is dropped. *)
Lemma parseHexdump_short_line_dropped :
  length (lineBytes shortLine) = 15
  /\ loopBody [] shortLine = []
  /\ parseHexdump shortLine = [].
Proof.
  split; [vm_compute; reflexivity|]. split.
  - apply (proj1 (proj2 (proj2 parseHexdump_sample_and_partial_lines))).
    vm_compute. discriminate.
  - vm_compute. reflexivity.
Defined.

(** C10.  The classification of a token does not look at its position: a
    token of hexadecimal digits only, of length at least 2, always adds its
    byte pairs to [bytes] and never touches the text.  So a line whose data
    tokens give 16 byte pairs and whose last token, the text column, is
    made of hexadecimal digits only gives more than 16 byte pairs, and the
    loop body drops it. *)
Theorem hex_text_column_counts_as_bytes :
  (forall acc tok,
      isHexString tok = true -> 2 <= strlen tok ->
      classify acc tok = (fst acc ++ bytePairs tok, snd acc))
  /\ (forall lines line offset data column,
        partsOf line = offset :: data ++ [column] ->
        length (fst (fold_left classify data ([], EmptyString))) = 16 ->
        isHexString column = true -> 2 <= strlen column ->
        16 < length (lineBytes line) /\ loopBody lines line = lines).
Proof.
  split; [apply classify_hex|].
  intros lines line off data col Hparts H16 Hhex Hlen.
  assert (Hb : 16 < length (lineBytes line)).
  { unfold lineBytes, scanParts. rewrite Hparts. simpl tl.
    rewrite fold_left_app. simpl fold_left.
    rewrite (classify_hex _ col Hhex Hlen). simpl fst.
    rewrite length_app, H16.
    pose proof (bytePairs_nonempty col Hlen). lia. }
  split; [exact Hb|]. apply loopBody_needs_16. lia.
Qed.

(** The line of sixteen bytes that spell "ABCDEFABCDEFABCD" gives 24 byte
    pairs and is dropped. *)
Lemma hex_letters_line_dropped :
  16 < length (lineBytes hexLettersLine) /\ loopBody [] hexLettersLine = [].
Proof.
  apply (proj2 hex_text_column_counts_as_bytes [] hexLettersLine "0x00000010"
           ["41"; "42"; "43"; "44"; "45"; "46"; "41"; "42";
            "43"; "44"; "45"; "46"; "41"; "42"; "43"; "44"]
           "ABCDEFABCDEFABCD").
  - vm_compute. reflexivity.
  - vm_compute. reflexivity.
  - vm_compute. reflexivity.
  - vm_compute. lia.
Defined.

(** A line whose last token is CAFEBABE: 16 + 4 byte pairs, no record. *)
Example cafebabe_line_dropped :
  length (lineBytes
            "0x00000020 ca fe ba be ca fe ba be ca fe ba be ca fe ba be  CAFEBABE") = 20
  /\ parseHexdump
       "0x00000020 ca fe ba be ca fe ba be ca fe ba be ca fe ba be  CAFEBABE" = [].
Proof. split; vm_compute; reflexivity. Qed.

Example cafebabe_is_bytes :
  classify (["00"], "text ") "CAFEBABE" = (["00"; "CA"; "FE"; "BA"; "BE"], "text ").
Proof. reflexivity. Qed.

End HexDumpSpec.

(** ** The package loader *)

Module LoaderSpec.
Import Js Loader.
Local Open Scope Q_scope.

Ltac qarith := unfold Qle, Qlt, Qeq in *; simpl in *; lia.

(** A reported value of the streaming band. *)
Definition inBand (v : Q) : Prop := 30 <= v /\ v <= 80.

(** The value 100 is on the page only together with the phase [complete]. *)
Definition fullOnlyWhenComplete (s : Page) : Prop :=
  downloadProgress s == 100 -> downloadPhase s = complete.

Definition low (s : Page) : Prop := downloadProgress s <= 95.

(** Every report of the value 100 is followed at once by
    [setDownloadPhase("complete")]: no other call and no suspension point
    lies between the two. *)
Fixpoint fullThenComplete (effects : list Effect) : Prop :=
  match effects with
  | [] => True
  | SetDownloadProgress v :: rest =>
      (v == 100 -> exists rest', rest = SetDownloadPhase complete :: rest')
      /\ fullThenComplete rest
  | _ :: rest => fullThenComplete rest
  end.

(** The page after the calls of a run, each setter applied in call order. *)
Definition pageAfter (effects : list Effect) (s : Page) : Page :=
  fold_left (fun s e => apply e s) effects s.

(** Three properties of a run, for the effects [e] that follow a report of [lo]
    while the phase is [cur] and the page is [s]. *)
Definition Ok (lo : Q) (cur : Phase) (s : Page) (e : list Effect) : Prop :=
  nondecreasing (lo :: progressValues e)
  /\ Forall inBand (valuesIn downloading cur e)
  /\ Forall fullOnlyWhenComplete (shown e s).

Lemma low_not_full (s : Page) : low s -> fullOnlyWhenComplete s.
Proof.
  unfold low, fullOnlyWhenComplete. intros Hl He. exfalso.
  rewrite He in Hl. qarith.
Qed.

Section WithRounding.
Variable round : Q -> Q.
Hypothesis R : Rounding round.

Lemma round_0 : round 0 == 0.
Proof. apply (round_exact round R 0%Z). simpl. lia. Qed.

Lemma round_30 : round 30 == 30.
Proof. apply (round_exact round R 30%Z). simpl. lia. Qed.

Lemma round_nonneg (x : Q) : 0 <= x -> 0 <= round x.
Proof.
  intros H. apply Qle_trans with (round 0).
  - rewrite round_0. apply Qle_refl.
  - now apply (round_mono round R).
Qed.

Lemma ratio_nonneg (loaded total : Z) :
  (0 <= loaded)%Z -> (0 < total)%Z -> 0 <= inject_Z loaded / inject_Z total.
Proof.
  intros Hl Ht. unfold Qdiv. apply Qmult_le_0_compat.
  - change 0 with (inject_Z 0). rewrite <- Zle_Qle. exact Hl.
  - apply Qinv_le_0_compat. change 0 with (inject_Z 0). rewrite <- Zle_Qle. lia.
Qed.

Lemma progressOf_band (loaded total : Z) :
  (0 <= loaded)%Z -> (0 < total)%Z -> inBand (progressOf round loaded total).
Proof.
  intros Hl Ht. unfold inBand, progressOf. split; [|apply Q.le_min_r].
  apply Q.min_glb; [|qarith].
  apply Qle_trans with (round 30).
  - rewrite round_30. apply Qle_refl.
  - apply (round_mono round R).
    rewrite <- (Qplus_0_r 30) at 1. apply Qplus_le_r.
    apply round_nonneg. apply Qmult_le_0_compat; [|qarith].
    apply round_nonneg. now apply ratio_nonneg.
Qed.

Lemma progressOf_mono (l1 l2 total : Z) :
  (0 < total)%Z -> (l1 <= l2)%Z ->
  progressOf round l1 total <= progressOf round l2 total.
Proof.
  intros Ht Hl. unfold progressOf. apply Q.min_le_compat_r.
  apply (round_mono round R). apply Qplus_le_r.
  apply (round_mono round R). apply Qmult_le_compat_r; [|qarith].
  apply (round_mono round R). unfold Qdiv. apply Qmult_le_compat_r.
  - rewrite <- Zle_Qle. exact Hl.
  - apply Qinv_le_0_compat. change 0 with (inject_Z 0). rewrite <- Zle_Qle. lia.
Qed.

(** The effects of the streaming loop followed, when no read rejected, by
    those of [finish]. *)
Definition thenFinish (w : World) (version : string) (doCache : bool)
    (x : list Effect * option (list (list Byte.byte))) : list Effect :=
  fst x ++ match snd x with
           | Some chunks => fst (finish w version doCache chunks)
           | None => []
           end.

Lemma finish_ok (w : World) (version : string) (doCache : bool)
    (chunks : list (list Byte.byte)) (lo : Q) (s : Page) :
  lo <= 80 -> low s ->
  Ok lo downloading s (Await :: fst (finish w version doCache chunks))
  /\ Ok lo downloading s (fst (finish w version doCache chunks)).
Proof.
  intros Hlo Hs. pose proof (low_not_full s Hs) as Hp.
  unfold finish.
  destruct (fromWasm w (concat chunks)); [destruct doCache; [destruct (cachePutFails w)|]|];
    unfold Ok; simpl;
    repeat match goal with
           | |- _ /\ _ => split
           | |- Forall _ [] => constructor
           | |- Forall _ (_ :: _) => constructor
           | |- True => exact I
           | |- fullOnlyWhenComplete _ =>
               first [ exact Hp
                     | unfold fullOnlyWhenComplete; simpl; intros He;
                       first [ reflexivity | exfalso; qarith ] ]
           | |- (_ <= _)%Q => qarith
           end.
Qed.

Lemma loop_ok (w : World) (version : string) (doCache : bool) (total : option Z)
    (reads : list Read) :
  forall (loaded : Z) (chunks : list (list Byte.byte)) (s : Page) (lo : Q),
    (0 <= loaded)%Z -> lo <= 80 -> low s ->
    (forall t l', total = Some t -> (0 < t)%Z -> (loaded <= l')%Z ->
                  lo <= progressOf round l' t) ->
    Ok lo downloading s
       (thenFinish w version doCache (readLoop round total loaded chunks reads)).
Proof.
  induction reads as [|r rest IH]; intros loaded chunks s lo Hl Hlo Hs Hnext.
  - apply (finish_ok w version doCache chunks lo s Hlo Hs).
  - destruct r as [value|].
    + simpl readLoop.
      set (loaded' := (loaded + Z.of_nat (length value))%Z).
      assert (Hl' : (0 <= loaded')%Z) by (unfold loaded'; lia).
      assert (Hle : (loaded <= loaded')%Z) by (unfold loaded'; lia).
      specialize (IH loaded' (chunks ++ [value])).
      destruct (readLoop round total loaded' (chunks ++ [value]) rest) as [e' r'] eqn:E.
      unfold thenFinish in *. simpl fst in *. simpl snd in *.
      destruct total as [t|]; simpl positive.
      * destruct (Z.ltb_spec 0 t) as [Ht|Ht].
        -- set (v := progressOf round loaded' t).
           assert (Hv : inBand v) by (apply progressOf_band; assumption).
           assert (Hs' : low (apply (SetDownloadProgress v) s)).
           { unfold low. simpl. destruct Hv as [_ Hv]. qarith. }
           destruct (IH (apply (SetDownloadProgress v) s) v Hl' (proj2 Hv) Hs') as (I1 & I2 & I3).
           { intros t0 l' Et Ht0 Hl0. injection Et as <-.
             apply progressOf_mono; assumption. }
           unfold Ok. simpl. repeat split.
           ++ apply (Hnext t loaded' eq_refl Ht Hle).
           ++ exact I1.
           ++ constructor; [exact Hv | exact I2].
           ++ constructor; [apply low_not_full; exact Hs | exact I3].
        -- destruct (IH s lo Hl' Hlo Hs) as (I1 & I2 & I3).
           { intros t0 l' Et Ht0 Hl0. apply Hnext; try assumption. lia. }
           unfold Ok. simpl. repeat split; try assumption.
           constructor; [apply low_not_full; exact Hs | exact I3].
      * destruct (IH s lo Hl' Hlo Hs) as (I1 & I2 & I3).
        { intros t0 l' Et. discriminate. }
        unfold Ok. simpl. repeat split; try assumption.
        constructor; [apply low_not_full; exact Hs | exact I3].
    + unfold thenFinish, Ok. simpl. repeat split; try constructor.
      * apply low_not_full; exact Hs.
      * constructor; [apply low_not_full; exact Hs | constructor].
Qed.

(** The run after a cache miss and a fetch that resolved. *)
Lemma miss_effects (w : World) (version : string) (doCache : bool) (response : Response)
    (pre1 pre2 : list Effect) :
  fst (let '(streamed, result) :=
         match body response with
         | Some reads => readLoop round (totalOf response) 0 [] reads
         | None => ([], Some [])
         end in
       match result with
       | None => (pre1 ++ pre2 ++ streamed, Rejected)
       | Some chunks =>
           let '(rest, outcome) := finish w version doCache chunks in
           (pre1 ++ pre2 ++ streamed ++ rest, outcome)
       end)
  = pre1 ++ pre2 ++ thenFinish w version doCache
                      (match body response with
                       | Some reads => readLoop round (totalOf response) 0 [] reads
                       | None => ([], Some [])
                       end).
Proof.
  unfold thenFinish.
  destruct (match body response with
            | Some reads => readLoop round (totalOf response) 0 [] reads
            | None => ([], Some [])
            end) as [streamed [chunks|]]; simpl.
  - destruct (finish w version doCache chunks) as [rest outcome]. reflexivity.
  - now rewrite app_nil_r.
Qed.

(** Within one run of the package loader the progress values are
    reported in non-decreasing order, every value reported while the phase
    is [downloading] lies between 30 and 80, and no page state reached at
    a suspension point or at the end of the run has the value 100 with a
    phase other than [complete]. *)
Lemma reports_ordered_banded_and_coherent_at_waits
    (w : World) (version : string) (doCache : bool) :
  nondecreasing (progressValues (fst (initializeWasmer round w version doCache)))
  /\ Forall (fun v => 30 <= v /\ v <= 80)
       (valuesIn downloading initializing (fst (initializeWasmer round w version doCache)))
  /\ Forall (fun s => downloadProgress s == 100 -> downloadPhase s = complete)
       (shown (fst (initializeWasmer round w version doCache)) initialPage).
Proof.
  assert (H0 : fullOnlyWhenComplete initialPage)
    by (unfold fullOnlyWhenComplete; simpl; intros He; exfalso; qarith).
  unfold initializeWasmer, start.
  destruct (cache w !! version) as [payload|].
  - destruct (fromWasm w payload); simpl; repeat split;
      repeat (constructor; try exact H0).
  - destruct (fetch w (wasmUrl w version)) as [response|].
    + rewrite miss_effects.
      set (s2 := {| pkg := None; isDownloading := true; downloadProgress := 30;
                    downloadPhase := downloading |}).
      assert (Hs2 : low s2) by (unfold low; simpl; qarith).
      assert (HX : Ok 30 downloading s2
                     (thenFinish w version doCache
                        (match body response with
                         | Some reads => readLoop round (totalOf response) 0 [] reads
                         | None => ([], Some [])
                         end))).
      { destruct (body response) as [reads|].
        - apply loop_ok; [lia | qarith | exact Hs2 |].
          intros t l' _ Ht Hl. apply progressOf_band; assumption.
        - apply (finish_ok w version doCache [] 30 s2); [qarith | exact Hs2]. }
      destruct HX as (X1 & X2 & X3).
      simpl. repeat split.
      * qarith.
      * exact X1.
      * constructor; [split; qarith | exact X2].
      * repeat (constructor; try exact H0).
        -- apply low_not_full; exact Hs2.
        -- exact X3.
    + simpl.
      repeat match goal with
             | |- _ /\ _ => split
             | |- Forall _ [] => constructor
             | |- Forall _ (_ :: _) => constructor
             | |- True => exact I
             | |- (_ == _)%Q -> _ => simpl; intros He; exfalso; qarith
             | |- (_ <= _)%Q => qarith
             end.
Qed.

Lemma pageAfter_shown (e : list Effect) : forall s, In (pageAfter e s) (shown e s).
Proof.
  induction e as [|x e IH]; intros s; [now left|].
  change (pageAfter (x :: e) s) with (pageAfter e (apply x s)).
  destruct x; try exact (IH _). right. exact (IH s).
Qed.

Lemma progressOf_not_full (loaded total : Z) : ~ progressOf round loaded total == 100.
Proof.
  intros H. assert (Hle : progressOf round loaded total <= 80) by apply Q.le_min_r.
  rewrite H in Hle. qarith.
Qed.

(** In call order, after the phase [downloading] was set: what [finish]
    does, and what the streaming loop followed by [finish] does. *)
Definition InOrder (e : list Effect) : Prop :=
  valuesIn complete downloading e = []
  /\ valuesIn initializing downloading e = []
  /\ fullThenComplete e.

Lemma finish_in_order (w : World) (version : string) (doCache : bool)
    (chunks : list (list Byte.byte)) :
  InOrder (fst (finish w version doCache chunks)).
Proof.
  unfold finish, InOrder.
  destruct (fromWasm w (concat chunks)); [destruct doCache; [destruct (cachePutFails w)|]|];
    simpl;
    repeat match goal with
           | |- _ /\ _ => split
           | |- True => exact I
           | |- _ = _ => reflexivity
           | |- (100 == 100)%Q -> _ => intros _; eexists; reflexivity
           | |- (_ == _)%Q -> _ => intros He; exfalso; qarith
           end.
Qed.

Lemma loop_in_order (w : World) (version : string) (doCache : bool) (total : option Z)
    (reads : list Read) :
  forall (loaded : Z) (chunks : list (list Byte.byte)),
    InOrder (thenFinish w version doCache (readLoop round total loaded chunks reads)).
Proof.
  induction reads as [|r rest IH]; intros loaded chunks.
  - exact (finish_in_order w version doCache chunks).
  - destruct r as [value|]; [|unfold InOrder; simpl; auto].
    simpl readLoop.
    specialize (IH (loaded + Z.of_nat (length value))%Z (chunks ++ [value])).
    destruct (readLoop round total (loaded + Z.of_nat (length value))
                (chunks ++ [value]) rest) as [e' r'].
    unfold thenFinish, InOrder in *. simpl fst in *. simpl snd in *.
    destruct IH as (I1 & I2 & I3).
    destruct (positive total); simpl; repeat split; try assumption.
    intros He. exfalso. exact (progressOf_not_full _ _ He).
Qed.

(** C4.  Within one run of the package loader, in the order of the calls:
    the progress values are reported in non-decreasing order, and every
    value reported while the phase is [downloading] lies between 30 and
    80.  No value is reported while the phase is [complete], and only the
    value 10 while it is [initializing]: the value 100 is reported while
    the phase is still [processing].  Every report of 100 is followed at
    once by [setDownloadPhase("complete")], so that the page which the
    calls of a run leave behind has the value 100 only together with the
    phase [complete]. *)
Theorem progress_monotone_banded_and_full_before_complete
    (w : World) (version : string) (doCache : bool) :
  nondecreasing (progressValues (fst (initializeWasmer round w version doCache)))
  /\ Forall (fun v => 30 <= v /\ v <= 80)
       (valuesIn downloading initializing (fst (initializeWasmer round w version doCache)))
  /\ valuesIn complete initializing (fst (initializeWasmer round w version doCache)) = []
  /\ Forall (fun v => v == 10)
       (valuesIn initializing initializing (fst (initializeWasmer round w version doCache)))
  /\ fullThenComplete (fst (initializeWasmer round w version doCache))
  /\ (downloadProgress (pageAfter (fst (initializeWasmer round w version doCache)) initialPage)
      == 100 ->
      downloadPhase (pageAfter (fst (initializeWasmer round w version doCache)) initialPage)
      = complete).
Proof.
  destruct (reports_ordered_banded_and_coherent_at_waits w version doCache)
    as (H1 & H2 & H3).
  split; [exact H1|]. split; [exact H2|].
  assert (H : valuesIn complete initializing (fst (initializeWasmer round w version doCache))
              = []
              /\ Forall (fun v => v == 10)
                   (valuesIn initializing initializing
                      (fst (initializeWasmer round w version doCache)))
              /\ fullThenComplete (fst (initializeWasmer round w version doCache))).
  { clear H1 H2 H3. unfold initializeWasmer, start.
    destruct (cache w !! version) as [payload|].
    - destruct (fromWasm w payload); simpl; repeat split; constructor.
    - destruct (fetch w (wasmUrl w version)) as [response|].
      + rewrite miss_effects.
        assert (HX : InOrder (thenFinish w version doCache
                                (match body response with
                                 | Some reads => readLoop round (totalOf response) 0 [] reads
                                 | None => ([], Some [])
                                 end))).
        { destruct (body response) as [reads|]; [apply loop_in_order|].
          exact (finish_in_order w version doCache []). }
        destruct HX as (X1 & X2 & X3). simpl. rewrite X1, X2.
        repeat split; try (intros He; exfalso; qarith); try exact X3.
        repeat constructor.
      + simpl. repeat split; try (intros He; exfalso; qarith).
        repeat constructor. }
  destruct H as (H4 & H5 & H6).
  split; [exact H4|]. split; [exact H5|]. split; [exact H6|].
  rewrite List.Forall_forall in H3. apply H3. apply pageAfter_shown.
Qed.

End WithRounding.

(** C5.  When the cache holds the requested version, the run decodes the
    cached bytes and returns: it calls [fetch] nowhere and sets neither
    the phase, nor the progress, nor the downloading flag.  All it does is
    load the SDK, look the version up in the cache, read the cached bytes
    and set the package. *)
Theorem cache_hit_decodes_without_fetch_or_progress
    (round : Q -> Q) (w : World) (version : string) (doCache : bool)
    (payload : list Byte.byte) :
  cache w !! version = Some payload ->
  List.filter isFetch (fst (initializeWasmer round w version doCache)) = []
  /\ List.filter isProgressReport (fst (initializeWasmer round w version doCache)) = []
  /\ (forall p, fromWasm w payload = Some p ->
        initializeWasmer round w version doCache
        = ([ImportSdk; Await; InitSdk; Await; CachesOpen "wasm-cache"; Await;
            CacheMatch version; Await; Await; SetPkg p], Returned)).
Proof.
  intros Hhit. unfold initializeWasmer, start. rewrite Hhit.
  destruct (fromWasm w payload) as [p|]; simpl; repeat split; try reflexivity.
  - intros p' E. injection E as <-. reflexivity.
  - intros p' E. discriminate.
Qed.

(** Rounding that changes nothing is a rounding. *)
Lemma exact_rounding : Rounding (fun q => q).
Proof.
  split.
  - intros x y H. exact H.
  - intros z _. apply Qeq_refl.
Defined.

Definition wasmHeader : list Byte.byte := [Byte.x00; Byte.x61; Byte.x73; Byte.x6d].

(** A world whose cache holds version 6.0.9. *)
Definition cachedWorld : World :=
  {| cache := {[ "6.0.9" := wasmHeader ]};
     fetch := fun _ => None;
     fromWasm := fun image => Some (WasmerPkg image);
     cachePutFails := false;
     MODE := "development";
     VITE_VERCEL_PROJECT_PRODUCTION_URL := EmptyString;
     BASE_URL := EmptyString |}.

(** A world with an empty cache, where the binary arrives in two chunks of
    two bytes and the response announces four. *)
Definition downloadWorld : World :=
  {| cache := ∅;
     fetch := fun _ => Some {| contentLength := Some "4";
                               body := Some [Chunk [Byte.x00; Byte.x61];
                                             Chunk [Byte.x73; Byte.x6d]] |};
     fromWasm := fun image => Some (WasmerPkg image);
     cachePutFails := false;
     MODE := "development";
     VITE_VERCEL_PROJECT_PRODUCTION_URL := EmptyString;
     BASE_URL := EmptyString |}.

(** The run of [downloadWorld]: the values in call order, those of the
    downloading phase, and the last three effects.  The value 100 is set
    in the same synchronous stretch as the phase [complete], just before
    it. *)
Example download_run_values :
  progressValues (fst (initializeWasmer (fun q => q) downloadWorld "6.0.9" false))
  = [10; 30; 220 # 4; 320 # 4; 85; 90; 95; 100]
  /\ valuesIn downloading initializing
       (fst (initializeWasmer (fun q => q) downloadWorld "6.0.9" false))
     = [30; 220 # 4; 320 # 4]
  /\ skipn 25 (fst (initializeWasmer (fun q => q) downloadWorld "6.0.9" false))
     = [SetDownloadProgress 100; SetDownloadPhase complete; SetTimeout 500].
Proof. repeat split; vm_compute; reflexivity. Qed.

Lemma cached_version_is_loaded_from_cache :
  initializeWasmer (fun q => q) cachedWorld "6.0.9" true
  = ([ImportSdk; Await; InitSdk; Await; CachesOpen "wasm-cache"; Await;
      CacheMatch "6.0.9"; Await; Await; SetPkg (WasmerPkg wasmHeader)], Returned).
Proof.
  apply (proj2 (proj2 (cache_hit_decodes_without_fetch_or_progress
                         (fun q => q) cachedWorld "6.0.9" true wasmHeader eq_refl))).
  reflexivity.
Defined.

Lemma download_run_in_call_order :
  nondecreasing
    (progressValues (fst (initializeWasmer (fun q => q) downloadWorld "6.0.9" false)))
  /\ Forall (fun v => 30 <= v /\ v <= 80)
       (valuesIn downloading initializing
          (fst (initializeWasmer (fun q => q) downloadWorld "6.0.9" false)))
  /\ valuesIn complete initializing
       (fst (initializeWasmer (fun q => q) downloadWorld "6.0.9" false)) = []
  /\ Forall (fun v => v == 10)
       (valuesIn initializing initializing
          (fst (initializeWasmer (fun q => q) downloadWorld "6.0.9" false)))
  /\ fullThenComplete (fst (initializeWasmer (fun q => q) downloadWorld "6.0.9" false))
  /\ (downloadProgress
        (pageAfter (fst (initializeWasmer (fun q => q) downloadWorld "6.0.9" false))
           initialPage) == 100 ->
      downloadPhase
        (pageAfter (fst (initializeWasmer (fun q => q) downloadWorld "6.0.9" false))
           initialPage) = complete).
Proof.
  exact (progress_monotone_banded_and_full_before_complete
           (fun q => q) exact_rounding downloadWorld "6.0.9" false).
Defined.

(** The specification has the value 100 reported only when the phase is
    [complete].  In the run of [downloadWorld] the value 100 is the last
    of the four values reported while the phase is [processing], and
    nothing is reported while the phase is [complete]. *)
Lemma full_is_reported_while_processing :
  valuesIn processing initializing
    (fst (initializeWasmer (fun q => q) downloadWorld "6.0.9" false))
  = [85; 90; 95; 100]
  /\ valuesIn complete initializing
       (fst (initializeWasmer (fun q => q) downloadWorld "6.0.9" false))
     = [].
Proof. split; vm_compute; reflexivity. Qed.

End LoaderSpec.

(** ** The terminal tab *)

Module TabSpec.
Import Js Tab.

Definition sampleFile : FileEntry :=
  {| name := "a.out"; data := [Byte.x7f; Byte.x45; Byte.x4c; Byte.x46] |}.

Definition samplePkg : Wasmer :=
  Loader.WasmerPkg [Byte.x00; Byte.x61; Byte.x73; Byte.x6d].

(** The component once its terminal exists, with the given props; the page
    passes [fileStore.getFile()] as the [file] prop. *)
Definition mounted (pkg : option Wasmer) (file : option FileEntry) : State :=
  {| props_pkg := pkg; props_file := file;
     hooks := {| termInstance := Some 0; r2Writer := None; dir := None; instance := None |};
     onDataDisposableRef := None; fileStore := file;
     directories := 0; instances := 0; log := [] |}.

(** Nothing throws, and every run resolves to an instance with a standard
    input. *)
Definition calm : Env :=
  {| closeThrows := fun _ => false; freeThrows := fun _ => false;
     runResult := fun _ => Some true |}.

(** Closing and freeing throw. *)
Definition rough : Env :=
  {| closeThrows := fun _ => true; freeThrows := fun _ => true;
     runResult := fun _ => Some true |}.

Definition quiet : Ui :=
  {| promptAnswer := None; cursorLine := "[0x00000000]> " |}.

(** The session created for [a.out]. *)
Definition started : State :=
  snd (create calm (mounted (Some samplePkg) (Some sampleFile))).


(** The variables of the handler after the keys [keys]. *)
Definition afterKeys (ui : Ui) (c : Conn) (keys : list string) : Conn :=
  fold_left (fun c k => fst (fst (handler ui c k))) keys c.

(** The pending buffer after each of the keys [keys]. *)
Fixpoint pendingSequence (ui : Ui) (c : Conn) (keys : list string) : list string :=
  match keys with
  | [] => []
  | k :: rest =>
      let c' := fst (fst (handler ui c k)) in
      currentInput c' :: pendingSequence ui c' rest
  end.

(** The bytes that a list of actions writes to the instance input. *)
Fixpoint forwarded (events : list Event) : list Byte.byte :=
  match events with
  | [] => []
  | StdinWrite _ chunk :: rest => chunk ++ forwarded rest
  | _ :: rest => forwarded rest
  end.

(** The handler variables of a new connection to instance 0. *)
Definition freshConn : Conn :=
  {| scope := currentScope (mounted (Some samplePkg) (Some sampleFile));
     stdin := Some 0; cancelController := None; history := [];
     historyIndex := (-1)%Z; currentInput := EmptyString |}.

(** The handler after the lines "a", "b" and "c" were submitted. *)
Definition submittedABC : Conn :=
  afterKeys quiet freshConn ["a"; CR; "b"; CR; "c"; CR].

Lemma started_has_fresh_handler : onDataDisposableRef started = Some freshConn.
Proof. reflexivity. Qed.

Lemma handler_enter (ui : Ui) (c : Conn) :
  handler ui c CR =
    let forwarded := stdinWrite c (currentInput c) ++ stdinWrite c CR in
    if truthy (trim (currentInput c)) then
      let history' := history c ++ [currentInput c] in
      let shown :=
        match matchPrompt (cursorLine ui) with
        | Some cprompt => String.append eraseLine (String.append cprompt " ")
        | None => String.append eraseLine "]> "
        end in
      (withInput EmptyString
         (withIndex (Z.of_nat (length history')) (withHistory history' c)),
       [ConsoleLog (String.append "Prompt: " (cursorLine ui)); TermWrite shown] ++ forwarded,
       false)
    else (withInput EmptyString c, forwarded, false).
Proof. reflexivity. Qed.

Lemma handler_up (ui : Ui) (c : Conn) :
  handler ui c ArrowUp =
    if (0 <? historyIndex c)%Z then
      let i := (historyIndex c - 1)%Z in
      (withInput (entry (history c) i) (withIndex i c),
       [TermWrite (String.append eraseLine (entry (history c) i))], false)
    else (c, [], false).
Proof. reflexivity. Qed.

Lemma handler_down (ui : Ui) (c : Conn) :
  handler ui c ArrowDown =
    if (historyIndex c <? Z.of_nat (length (history c)) - 1)%Z then
      let i := (historyIndex c + 1)%Z in
      (withInput (entry (history c) i) (withIndex i c),
       [TermWrite (String.append eraseLine (entry (history c) i))], false)
    else if (historyIndex c =? Z.of_nat (length (history c)) - 1)%Z then
      (withInput EmptyString (withIndex (historyIndex c + 1)%Z c),
       [TermWrite eraseLine], false)
    else (c, [], false).
Proof. reflexivity. Qed.

Lemma handler_interrupt (ui : Ui) (c : Conn) :
  handler ui c CtrlC =
    match cancelController c with
    | Some _ =>
        (withController None c,
         [Abort; TermWrite (String.append "^C" CR)] ++ stdinWrite c CR, false)
    | None => (c, [], false)
    end.
Proof. reflexivity. Qed.

(** Where the handler reads [history[i]], [i] is an index of the array. *)
Lemma history_read_in_range (h : list string) (i : Z) :
  (0 <= i < Z.of_nat (length h))%Z ->
  nth_error h (Z.to_nat i) = Some (entry h i).
Proof.
  intros Hi. unfold entry. apply nth_error_nth'. lia.
Qed.

(** *** Input history *)

(** C2, as the code has it.  After "a", "b" and "c" were submitted the
    cursor is one past the end; previous, previous, previous, next show
    c, b, a, b, and a fourth previous stays on a: the cursor stops at
    index 0 and does not wrap.  A cursor within [0, history.length] stays
    there under both keys; a move to an index of the array replaces the
    pending buffer with that entry, and the move past the last entry
    empties the pending buffer. *)
Theorem history_navigation :
  (history submittedABC = ["a"; "b"; "c"] /\ historyIndex submittedABC = 3%Z)
  /\ pendingSequence quiet submittedABC [ArrowUp; ArrowUp; ArrowUp; ArrowDown]
     = ["c"; "b"; "a"; "b"]
  /\ pendingSequence quiet submittedABC [ArrowUp; ArrowUp; ArrowUp; ArrowUp]
     = ["c"; "b"; "a"; "a"]
  /\ (forall ui c key,
        key = ArrowUp \/ key = ArrowDown ->
        (0 <= historyIndex c <= Z.of_nat (length (history c)))%Z ->
        history (fst (fst (handler ui c key))) = history c
        /\ (0 <= historyIndex (fst (fst (handler ui c key)))
            <= Z.of_nat (length (history c)))%Z)
  /\ (forall ui c,
        (0 < historyIndex c <= Z.of_nat (length (history c)))%Z ->
        historyIndex (fst (fst (handler ui c ArrowUp))) = (historyIndex c - 1)%Z
        /\ nth_error (history c) (Z.to_nat (historyIndex c - 1))
           = Some (currentInput (fst (fst (handler ui c ArrowUp)))))
  /\ (forall ui c,
        (0 <= historyIndex c < Z.of_nat (length (history c)) - 1)%Z ->
        historyIndex (fst (fst (handler ui c ArrowDown))) = (historyIndex c + 1)%Z
        /\ nth_error (history c) (Z.to_nat (historyIndex c + 1))
           = Some (currentInput (fst (fst (handler ui c ArrowDown)))))
  /\ (forall ui c,
        historyIndex c = (Z.of_nat (length (history c)) - 1)%Z ->
        historyIndex (fst (fst (handler ui c ArrowDown))) = Z.of_nat (length (history c))
        /\ currentInput (fst (fst (handler ui c ArrowDown))) = EmptyString).
Proof.
  split; [split; reflexivity|].
  split; [reflexivity|]. split; [reflexivity|].
  split; [|split; [|split]].
  - intros ui c key [-> | ->] Hi.
    + rewrite handler_up. destruct (Z.ltb_spec 0 (historyIndex c)); simpl; split;
        try reflexivity; lia.
    + rewrite handler_down.
      destruct (Z.ltb_spec (historyIndex c) (Z.of_nat (length (history c)) - 1));
        [simpl; split; [reflexivity | lia]|].
      destruct (Z.eqb_spec (historyIndex c) (Z.of_nat (length (history c)) - 1));
        simpl; split; try reflexivity; lia.
  - intros ui c Hi. rewrite handler_up.
    destruct (Z.ltb_spec 0 (historyIndex c)); [|lia]. simpl. split; [reflexivity|].
    apply history_read_in_range. lia.
  - intros ui c Hi. rewrite handler_down.
    destruct (Z.ltb_spec (historyIndex c) (Z.of_nat (length (history c)) - 1)); [|lia].
    simpl. split; [reflexivity|]. apply history_read_in_range. lia.
  - intros ui c Hi. rewrite handler_down.
    destruct (Z.ltb_spec (historyIndex c) (Z.of_nat (length (history c)) - 1)); [lia|].
    destruct (Z.eqb_spec (historyIndex c) (Z.of_nat (length (history c)) - 1)); [|lia].
    simpl. split; [lia | reflexivity].
Qed.

(** The sequence that the specification gives, b, a, a, b, is not the one
    the handler produces. *)
Lemma history_navigation_is_not_b_a_a_b :
  history submittedABC = ["a"; "b"; "c"]
  /\ historyIndex submittedABC = Z.of_nat (length (history submittedABC))
  /\ pendingSequence quiet submittedABC [ArrowUp; ArrowUp; ArrowUp; ArrowDown]
     <> ["b"; "a"; "a"; "b"].
Proof.
  split; [vm_compute; reflexivity|]. split; [vm_compute; reflexivity|].
  intros H. vm_compute in H. discriminate H.
Qed.

(** At the first entry, previous leaves the cursor and the buffer alone. *)
Lemma previous_stops_at_first_entry :
  history (fst (fst (handler quiet (afterKeys quiet submittedABC [ArrowUp; ArrowUp; ArrowUp])
                       ArrowUp))) = ["a"; "b"; "c"]
  /\ (0 <= historyIndex (fst (fst (handler quiet
                                     (afterKeys quiet submittedABC [ArrowUp; ArrowUp; ArrowUp])
                                     ArrowUp)))
      <= Z.of_nat (length ["a"; "b"; "c"]))%Z.
Proof.
  apply (proj1 (proj2 (proj2 (proj2 history_navigation))) quiet
           (afterKeys quiet submittedABC [ArrowUp; ArrowUp; ArrowUp]) ArrowUp).
  - left. reflexivity.
  - vm_compute. split; discriminate.
Defined.

(** Before the first submission the cursor is -1; from then on it is
    within the array bounds, whatever is typed. *)
Lemma cursor_invariant (ui : Ui) (c : Conn) (data : string) :
  (historyIndex c = (-1)%Z /\ history c = []
   \/ (0 <= historyIndex c <= Z.of_nat (length (history c)))%Z) ->
  (historyIndex (fst (fst (handler ui c data))) = (-1)%Z
   /\ history (fst (fst (handler ui c data))) = []
   \/ (0 <= historyIndex (fst (fst (handler ui c data)))
       <= Z.of_nat (length (history (fst (fst (handler ui c data))))))%Z).
Proof.
  intros H. unfold handler.
  repeat match goal with
         | |- context [if ?b then _ else _] => destruct b eqn:?
         | |- context [match ?o with Some _ => _ | None => _ end] => destruct o
         end; simpl; try exact H;
    rewrite ?length_app; simpl; try lia;
    repeat match goal with
           | E : (_ <? _)%Z = true |- _ => apply Z.ltb_lt in E
           | E : (_ <? _)%Z = false |- _ => apply Z.ltb_ge in E
           | E : (_ =? _)%Z = true |- _ => apply Z.eqb_eq in E
           end; destruct H as [[H1 H2]|H]; try rewrite H2 in *; simpl in *; lia.
Qed.

(** *** Interrupt *)

(** C3, as the code has it.  When the handler tracks a cancel token,
    Ctrl+C aborts it, forgets it, writes the marker "^C" and forwards one
    line terminator to the instance input; when it tracks none, Ctrl+C
    does nothing at all.  Either way no action of the handler carries the
    interrupt byte to the instance, and the pending buffer and the history
    are untouched. *)
Theorem interrupt_depends_on_cancel_token :
  (forall ui c k w,
      cancelController c = Some k -> stdin c = Some w ->
      cancelController (fst (fst (handler ui c CtrlC))) = None
      /\ snd (fst (handler ui c CtrlC))
         = [Abort; TermWrite (String.append "^C" CR); StdinWrite w [Byte.x0d]])
  /\ (forall ui c,
        cancelController c = None -> handler ui c CtrlC = (c, [], false))
  /\ (forall ui c,
        forwarded (snd (fst (handler ui c CtrlC))) = []
        \/ forwarded (snd (fst (handler ui c CtrlC))) = [Byte.x0d])
  /\ (forall ui c,
        currentInput (fst (fst (handler ui c CtrlC))) = currentInput c
        /\ history (fst (fst (handler ui c CtrlC))) = history c
        /\ snd (handler ui c CtrlC) = false).
Proof.
  repeat split.
  - rewrite handler_interrupt, H. reflexivity.
  - rewrite handler_interrupt, H. unfold stdinWrite. rewrite H0. reflexivity.
  - intros ui c H. rewrite handler_interrupt, H. reflexivity.
  - intros ui c. rewrite handler_interrupt. unfold stdinWrite.
    destruct (cancelController c), (stdin c); simpl; auto.
  - rewrite handler_interrupt. destruct (cancelController c); reflexivity.
  - rewrite handler_interrupt. destruct (cancelController c); reflexivity.
  - rewrite handler_interrupt. destruct (cancelController c); reflexivity.
Qed.

(** Ctrl+C in a session that tracks no cancel token, such as a session
    that has just started: no marker is written, nothing is forwarded. *)
Lemma interrupt_in_fresh_session_does_nothing :
  cancelController freshConn = None
  /\ onDataDisposableRef started = Some freshConn
  /\ snd (fst (handler quiet freshConn CtrlC)) = []
  /\ snd (onData calm quiet CtrlC started) = started.
Proof. repeat split. Qed.

(** Ctrl+C after a key was typed. *)
Lemma interrupt_after_typing :
  cancelController (fst (fst (handler quiet (afterKeys quiet freshConn ["p"]) CtrlC))) = None
  /\ snd (fst (handler quiet (afterKeys quiet freshConn ["p"]) CtrlC))
     = [Abort; TermWrite (String.append "^C" CR); StdinWrite 0 [Byte.x0d]].
Proof.
  apply (proj1 interrupt_depends_on_cancel_token quiet
           (afterKeys quiet freshConn ["p"]) NewAbortController 0);
    reflexivity.
Defined.

(** *** Submitting a line *)

(** C8.  With "pd" in the pending buffer, the line terminator forwards the
    bytes of "pd" and then the line terminator, p d CR, to the instance
    input, appends "pd" to the history, puts the cursor one past the end
    of the history and empties the pending buffer.  In a session that has
    just started, typing p, d and the line terminator leaves "pd" as
    history entry 0 and these three bytes as all that was forwarded. *)
Theorem submit_pd_forwards_and_records :
  (forall ui c w,
      stdin c = Some w -> currentInput c = "pd" ->
      forwarded (snd (fst (handler ui c CR))) = [Byte.x70; Byte.x64; Byte.x0d]
      /\ history (fst (fst (handler ui c CR))) = history c ++ ["pd"]
      /\ historyIndex (fst (fst (handler ui c CR)))
         = Z.of_nat (length (history (fst (fst (handler ui c CR)))))
      /\ currentInput (fst (fst (handler ui c CR))) = EmptyString
      /\ (history c = [] -> nth_error (history (fst (fst (handler ui c CR)))) 0 = Some "pd"))
  /\ (forwarded (log (snd (typed calm quiet ["p"; "d"; CR] started)))
      = [Byte.x70; Byte.x64; Byte.x0d]
      /\ forwarded (log started) = []
      /\ option_map history (onDataDisposableRef (snd (typed calm quiet ["p"; "d"; CR] started)))
         = Some ["pd"]
      /\ option_map historyIndex
           (onDataDisposableRef (snd (typed calm quiet ["p"; "d"; CR] started)))
         = Some 1%Z
      /\ option_map currentInput
           (onDataDisposableRef (snd (typed calm quiet ["p"; "d"; CR] started)))
         = Some EmptyString).
Proof.
  split; [|repeat split].
  intros ui c w Hw Hin. rewrite handler_enter. unfold stdinWrite. rewrite Hw, Hin.
  simpl. destruct (matchPrompt (cursorLine ui)); simpl; repeat split;
    try reflexivity; intros ->; reflexivity.
Qed.

Lemma submit_pd_after_typing_it :
  forwarded (snd (fst (handler quiet (afterKeys quiet freshConn ["p"; "d"]) CR)))
  = [Byte.x70; Byte.x64; Byte.x0d]
  /\ history (fst (fst (handler quiet (afterKeys quiet freshConn ["p"; "d"]) CR))) = ["pd"].
Proof.
  destruct (proj1 submit_pd_forwards_and_records quiet
              (afterKeys quiet freshConn ["p"; "d"]) 0 eq_refl eq_refl)
    as (H1 & H2 & _).
  split; [exact H1 | exact H2].
Defined.

(** *** Creating and restarting a session *)









(** Until the package and the terminal are both in place, the effect and
    [restartSession] return at once and write nothing. *)
Lemma not_ready_is_silent (env : Env) (sc : Scope) (s : State) :
  pkg sc = None \/ termInstance (seen sc) = None ->
  createEffect env sc s = (Done tt, s) /\ restartSession env sc s = (Done tt, s).
Proof.
  intros [H|H]; unfold createEffect, restartSession; rewrite H;
    destruct (pkg sc); try destruct (termInstance (seen sc)); split; reflexivity.
Qed.

Definition closing (w : option Writer) : list Event :=
  match w with Some w => [WriterClose w] | None => [] end.

Definition freeing (i : option Instance) : list Event :=
  match i with Some i => [InstanceFree (id i)] | None => [] end.

Definition args (f : FileEntry) : list string :=
  ["-e"; "io.cache=1"; "-e"; "anal.depth=24"; name f].

(** What a restart does, in order: it closes the writer and frees the
    instance that its closure sees, whether or not they throw, then takes
    a new directory and runs the package on the file of the file store. *)
Lemma restart_steps (env : Env) (sc : Scope) (s : State)
    (p : Wasmer) (term : Terminal) (f : FileEntry) :
  pkg sc = Some p -> termInstance (seen sc) = Some term -> fileStore s = Some f ->
  log (snd (restartSession env sc s))
  = log s
    ++ [TermWrite (String.append ESC "[A"); TermWrite (String.append ESC "[2K");
        TermWrite CR; TermWriteln "Restarting session..."]
    ++ closing (r2Writer (seen sc)) ++ freeing (instance (seen sc))
    ++ [NewDirectory (directories s);
        Run p (args f) f (directories s)
          (option_map (fun b => {| id := instances s; hasStdin := b |})
             (runResult env (instances s)))]
  /\ dir (hooks (snd (restartSession env sc s))) = Some (directories s)
  /\ directories (snd (restartSession env sc s)) = S (directories s).
Proof.
  intros Hp Ht Hf. destruct s as [pp pf h r fs nd ni lg]. simpl in Hf. subst fs.
  unfold restartSession. rewrite Hp, Ht.
  destruct (runResult env ni) as [b|] eqn:E;
    destruct (r2Writer (seen sc)) as [w|]; destruct (instance (seen sc)) as [i|];
    unfold closeWriter, freeInstance;
    try destruct (closeThrows env w); try destruct (freeThrows env (id i));
    cbv beta iota zeta delta
      [bind emits emit try_ ret throw newDirectory setDir run setInstance
       connectStreams setr2Writer setRef setHooks setLog closing freeing args
       fst snd log hooks dir directories instances props_pkg props_file
       onDataDisposableRef fileStore termInstance r2Writer instance];
    rewrite E;
    cbv beta iota zeta delta
      [fst snd log hooks dir directories instances option_map setLog setHooks setRef];
    rewrite <- ?app_assoc; repeat split.
Qed.

(** The directory of a restart is a new one: it differs from every
    directory allocated before, and so from the one the session had. *)
Lemma restart_directory_is_new (env : Env) (sc : Scope) (s : State)
    (p : Wasmer) (term : Terminal) (f : FileEntry) (d : Directory) :
  pkg sc = Some p -> termInstance (seen sc) = Some term -> fileStore s = Some f ->
  d < directories s ->
  dir (hooks (snd (restartSession env sc s))) <> Some d.
Proof.
  intros Hp Ht Hf Hd.
  destruct (restart_steps env sc s p term f Hp Ht Hf) as (_ & -> & _).
  intros E. injection E as E. lia.
Qed.

Definition isRelease (e : Event) : bool :=
  match e with
  | WriterClose _ | InstanceFree _ => true
  | _ => false
  end.

(** The page's Restart button calls the [restartSession] of the latest
    render: the writer and the instance of the running session are closed
    and freed, also when closing and freeing throw, before the new
    directory and the new run. *)
Lemma button_restart_releases_previous_instance :
  log (snd (handleRestart rough started))
  = log started
    ++ [TermWrite (String.append ESC "[A"); TermWrite (String.append ESC "[2K");
        TermWrite CR; TermWriteln "Restarting session...";
        WriterClose 0; InstanceFree 0; NewDirectory 1;
        Run samplePkg (args sampleFile) sampleFile 1 (Some {| id := 1; hasStdin := true |})]
  /\ fst (handleRestart rough started) = Done tt.
Proof. split; reflexivity. Qed.

(** C7, at the input on which the code departs from it.  The session for
    a.out runs instance 0, whose writer is writer 0, on directory 0.  The
    terminal then delivers Ctrl+R.  The handler was registered by the
    [connectStreams] of the render in which the session was created, and
    the [restartSession] it calls sees the state cells of that render:
    no writer and no instance.  The restart takes the new directory 1 and
    runs instance 1 on the same package and file, but it neither closes
    writer 0 nor frees instance 0. *)
Theorem ctrl_r_restart_keeps_previous_instance :
  (instance (hooks started) = Some {| id := 0; hasStdin := true |}
   /\ r2Writer (hooks started) = Some 0 /\ dir (hooks started) = Some 0)
  /\ log (snd (onData calm quiet CtrlR started))
     = log started
       ++ [TermWrite (String.append ESC "[A"); TermWrite (String.append ESC "[2K");
           TermWrite CR; TermWriteln "Restarting session...";
           NewDirectory 1;
           Run samplePkg (args sampleFile) sampleFile 1
             (Some {| id := 1; hasStdin := true |})]
  /\ List.filter isRelease (log (snd (onData calm quiet CtrlR started))) = []
  /\ (instance (hooks (snd (onData calm quiet CtrlR started)))
      = Some {| id := 1; hasStdin := true |}
      /\ dir (hooks (snd (onData calm quiet CtrlR started))) = Some 1)
  /\ option_map (fun c => (r2Writer (seen (scope c)), instance (seen (scope c))))
       (onDataDisposableRef started) = Some (None, None).
Proof. repeat split. Qed.

(** The same happens when the key "R" is typed, and at every later
    Ctrl+R: the handler of the new connection belongs to the same render. *)
Lemma second_ctrl_r_restart_releases_nothing :
  List.filter isRelease (log (snd (typed calm quiet [CtrlR; "R"; CtrlR] started))) = []
  /\ instance (hooks (snd (typed calm quiet [CtrlR; "R"; CtrlR] started)))
     = Some {| id := 3; hasStdin := true |}.
Proof. split; reflexivity. Qed.

End TabSpec.

(** ** The proxy route *)

Module ProxySpec.
Import Proxy.

(** The header block is counted once it is sent. *)
Definition counted (r : ServerResponse) : Prop :=
  headerBlocks r = if headersSent r then 1 else 0.

Lemma flushHeaders_counted (r : ServerResponse) :
  counted r -> counted (flushHeaders r) /\ headersSent (flushHeaders r) = true.
Proof.
  unfold counted, flushHeaders. destruct (headersSent r) eqn:E; simpl.
  - rewrite E. auto.
  - intros ->. auto.
Qed.

Lemma write_counted (c : Chunk) (r : ServerResponse) : counted r -> counted (write c r).
Proof.
  intros H. destruct (flushHeaders_counted r H) as [Hc Hs].
  unfold counted, write in *. simpl. exact Hc.
Qed.

Lemma finish_counted (r : ServerResponse) : counted r -> counted (finish r).
Proof.
  intros H. destruct (flushHeaders_counted r H) as [Hc Hs].
  unfold counted, finish in *. simpl. exact Hc.
Qed.

Lemma deliver_counted (k : Route) (e : StreamEvent) :
  counted (res k) -> counted (res (deliver k e)).
Proof.
  intros H. unfold deliver. destruct (uncaught k); [exact H|].
  destruct e as [bytes| |on]; simpl.
  - now apply write_counted.
  - now apply finish_counted.
  - destruct (existsb (sameStream on) (errorListeners k)); [|exact H].
    unfold onError. simpl. destruct (headersSent (res k)) eqn:E; simpl; [exact H|].
    unfold send. apply finish_counted, write_counted.
    unfold counted, status in *. simpl. exact H.
Qed.

Lemma run_counted (events : list StreamEvent) (k : Route) :
  counted (res k) -> counted (res (fold_left deliver events k)).
Proof.
  revert k. induction events as [|e events IH]; intros k H; simpl; [exact H|].
  apply IH, deliver_counted, H.
Qed.

(** The parts of C9 that the route keeps: a failed fetch is answered with
    status 500 and the text "Error fetching ZIP file"; whatever the
    streams do, the header block is sent at most once; and an ['error']
    that reaches the listener after the headers were sent changes neither
    the status nor the body. *)
Lemma fetch_failure_and_single_header_block :
  (forall version events,
      statusCode (res (handle version false events)) = 500
      /\ body (res (handle version false events)) = [Text "Error fetching ZIP file"]
      /\ ended (res (handle version false events)) = true)
  /\ (forall version fetched events,
        headerBlocks (res (handle version fetched events)) <= 1)
  /\ (forall k,
        uncaught k = false -> headersSent (res k) = true ->
        res (deliver k (Error Res)) = res k).
Proof.
  repeat split.
  - intros version fetched events.
    assert (H : counted (res (handle version fetched events))).
    { unfold handle. destruct fetched.
      - apply run_counted. reflexivity.
      - reflexivity. }
    unfold counted in H. rewrite H. destruct (headersSent _); lia.
  - intros k Hu Hs. unfold deliver. rewrite Hu.
    destruct (existsb (sameStream Res) (errorListeners k)); [|reflexivity].
    unfold onError. simpl. rewrite Hs. reflexivity.
Qed.

(** C9, at the input on which the code departs from it.  The archive was
    fetched, and the extraction stream fails before it gave any byte, as
    it does when no entry of the archive matches.  The route has put its
    ['error'] listener on what [.pipe(res)] returns, the response, so the
    failure of the extraction stream finds no listener: no status 500 and
    no text are sent, and the response is left open. *)
Theorem extraction_failure_gets_no_answer :
  listenerTarget = Res
  /\ errorListeners (handle "6.0.0" true [Error ParseOne]) = [Res]
  /\ uncaught (handle "6.0.0" true [Error ParseOne]) = true
  /\ statusCode (res (handle "6.0.0" true [Error ParseOne])) = 200
  /\ body (res (handle "6.0.0" true [Error ParseOne])) = []
  /\ headersSent (res (handle "6.0.0" true [Error ParseOne])) = false
  /\ ended (res (handle "6.0.0" true [Error ParseOne])) = false.
Proof. repeat split. Qed.

(** The failure of the upstream stream finds no listener either. *)
Lemma upstream_failure_gets_no_answer :
  uncaught (handle "6.0.0" true [Data [Byte.x00]; Error Upstream]) = true
  /\ ended (res (handle "6.0.0" true [Data [Byte.x00]; Error Upstream])) = false.
Proof. split; reflexivity. Qed.

(** The listener answers an error of the response itself. *)
Lemma response_error_is_answered :
  statusCode (res (handle "6.0.0" true [Error Res])) = 500
  /\ body (res (handle "6.0.0" true [Error Res])) = [Text "Error extracting WASM file"]
  /\ headerBlocks (res (handle "6.0.0" true [Error Res])) = 1.
Proof. repeat split. Qed.

(** After the first bytes went out, an error of the response is not
    answered a second time. *)
Lemma late_response_error_is_not_answered :
  statusCode (res (handle "6.0.0" true [Data [Byte.x00]; Error Res])) = 200
  /\ body (res (handle "6.0.0" true [Data [Byte.x00]; Error Res])) = [Payload [Byte.x00]]
  /\ headerBlocks (res (handle "6.0.0" true [Data [Byte.x00]; Error Res])) = 1.
Proof. repeat split. Qed.

End ProxySpec.

(* ===================================================================== *)
(** * Further properties of the code *)
(* ===================================================================== *)

(** ** The hexdump parser, line by line *)

Module HexDumpMore.
Import Js HexDump.

Lemma splitChar_nonempty (sep : Ascii.ascii) (s : string) : splitChar sep s <> [].
Proof.
  destruct s as [|c s]; simpl; [discriminate|].
  destruct (Ascii.eqb c sep); [discriminate|].
  destruct (splitChar sep s); discriminate.
Qed.

Lemma splitChar_app (sep : Ascii.ascii) (a b : string) :
  splitChar sep (String.append a (String sep b)) = splitChar sep a ++ splitChar sep b.
Proof.
  induction a as [|c a IH]; simpl.
  - rewrite Ascii.eqb_refl. reflexivity.
  - destruct (Ascii.eqb c sep); [now rewrite IH|].
    rewrite IH. pose proof (splitChar_nonempty sep a) as Hne.
    destruct (splitChar sep a) as [|t ts]; [contradiction|]. reflexivity.
Qed.

Lemma linesArray_app (a b : string) :
  linesArray (String.append a (String "010" b)) = linesArray a ++ linesArray b.
Proof.
  unfold linesArray. rewrite splitChar_app. apply List.filter_app.
Qed.

(** X1.  The parser works line by line: the records of two texts joined
    by a line feed are the records of the first followed by the records
    of the second. *)
Theorem parseHexdump_of_joined_texts (a b : string) :
  parseHexdump (String.append a (String "010" b)) = parseHexdump a ++ parseHexdump b.
Proof.
  unfold parseHexdump. rewrite linesArray_app, fold_left_app.
  rewrite (HexDumpSpec.fold_loopBody (linesArray b)).
  rewrite (HexDumpSpec.fold_loopBody (linesArray b) []). reflexivity.
Qed.

Lemma trimEnd_keeps (c : Ascii.ascii) (s : string) :
  isWhiteSpace c = false -> trimEnd (String c s) = String c (trimEnd s).
Proof.
  intros H. simpl. rewrite H. destruct (trimEnd s); reflexivity.
Qed.

Lemma splitWs_nonempty (s : string) : splitWs s <> [].
Proof.
  induction s as [|c s IH]; simpl; [discriminate|].
  destruct (isWhiteSpace c).
  - destruct s as [|c' s']; [discriminate|].
    destruct (isWhiteSpace c'); [exact IH | discriminate].
  - destruct (splitWs s); discriminate.
Qed.

Lemma splitWs_keeps (c : Ascii.ascii) (s : string) :
  isWhiteSpace c = false ->
  exists t ts, splitWs s = t :: ts /\ splitWs (String c s) = String c t :: ts.
Proof.
  intros H. pose proof (splitWs_nonempty s) as Hne.
  destruct (splitWs s) as [|t ts] eqn:E; [contradiction|].
  exists t, ts. split; [reflexivity|]. simpl. rewrite H, E. reflexivity.
Qed.

Lemma startsWith_0x (s : string) :
  startsWith "0x" s = true -> exists rest, s = String "0" (String "x" rest).
Proof.
  destruct s as [|a [|b rest]].
  - discriminate.
  - change (startsWith "0x" (String a EmptyString)) with (Ascii.eqb "0" a && false).
    rewrite andb_false_r. discriminate.
  - change (startsWith "0x" (String a (String b rest)))
      with (Ascii.eqb "0" a && (Ascii.eqb "x" b && true)).
    intros H. apply andb_true_iff in H as [Ha H]. apply andb_true_iff in H as [Hb _].
    apply Ascii.eqb_eq in Ha, Hb. subst a b. exists rest. reflexivity.
Qed.

Lemma offset_keeps_prefix (line : string) :
  startsWith "0x" line = true -> startsWith "0x" (hd EmptyString (partsOf line)) = true.
Proof.
  intros H. destruct (startsWith_0x line H) as [rest ->].
  unfold partsOf, trim. change (trimStart (String "0" (String "x" rest)))
    with (String "0" (String "x" rest)).
  rewrite (trimEnd_keeps "0") by reflexivity.
  rewrite (trimEnd_keeps "x") by reflexivity.
  destruct (splitWs_keeps "x" (trimEnd rest) eq_refl) as (t & ts & E1 & E2).
  destruct (splitWs_keeps "0" (String "x" (trimEnd rest)) eq_refl) as (t' & ts' & E3 & E4).
  rewrite E4. rewrite E2 in E3. injection E3 as <- <-. reflexivity.
Qed.

Lemma parseInt_of_offset (offset : string) :
  startsWith "0x" offset = true ->
  forall n, parseInt offset 16 = Some n -> (0 <= n)%Z.
Proof.
  intros H. destruct (startsWith_0x offset H) as [rest ->].
  intros n. unfold parseInt.
  change (trimStart (String "0" (String "x" rest))) with (String "0" (String "x" rest)).
  cbv beta iota zeta. change (16 =? 16)%N with true.
  change (stripHexPrefix (String "0" (String "x" rest))) with rest.
  destruct (digits 16 None rest) as [m|]; [|discriminate].
  intros E. injection E as <-. lia.
Qed.

(** A byte of a record: two characters, both hexadecimal digits. *)
Definition isPair (b : string) : Prop := strlen b = 2 /\ all isHexDigit b = true.

Lemma bytePairs_shape (s : string) :
  (all isHexDigit s = true -> Forall isPair (bytePairs s))
  /\ (forall c, all isHexDigit (String c s) = true -> Forall isPair (bytePairs (String c s))).
Proof.
  induction s as [|d s [IH1 IH2]]; split; simpl.
  - constructor.
  - constructor.
  - intros H. apply andb_true_iff in H as [Hd Hs]. apply IH2. simpl. now rewrite Hd, Hs.
  - intros c H. apply andb_true_iff in H as [Hc H]. apply andb_true_iff in H as [Hd Hs].
    constructor; [|now apply IH1].
    split; [reflexivity|]. simpl. now rewrite Hc, Hd.
Qed.

Lemma classify_shape (acc : list string * string) (tok : string) :
  Forall isPair (fst acc) -> Forall isPair (fst (classify acc tok)).
Proof.
  intros H. unfold classify.
  destruct (isHexString tok && Nat.leb 2 (strlen tok)) eqn:E.
  - simpl. apply Forall_app. split; [exact H|].
    apply andb_true_iff in E as [E _]. unfold isHexString in E.
    apply andb_true_iff in E as [_ E]. now apply bytePairs_shape.
  - destruct (isPrintable tok); exact H.
Qed.

Lemma scan_shape (toks : list string) (acc : list string * string) :
  Forall isPair (fst acc) -> Forall isPair (fst (fold_left classify toks acc)).
Proof.
  revert acc. induction toks as [|t toks IH]; intros acc H; simpl; [exact H|].
  apply IH, classify_shape, H.
Qed.

Lemma digits_started (radix a : N) (s : string) : digits radix (Some a) s <> None.
Proof.
  revert a. induction s as [|c s IH]; intros a; simpl; [discriminate|].
  destruct (digitValue c) as [d|]; [|discriminate].
  destruct (d <? radix)%N; [apply IH|discriminate].
Qed.

(** The digits of base 16 are the hexadecimal digits. *)
Lemma digit_of_base_16 (c : Ascii.ascii) :
  match digitValue c with Some d => (d <? 16)%N | None => false end = isHexDigit c.
Proof.
  unfold digitValue, isHexDigit, between.
  repeat match goal with
         | |- context [(?a <=? ?b)%N] => destruct (N.leb_spec a b)
         end; cbn [andb orb];
    repeat match goal with
           | |- context [(?a <? ?b)%N] => destruct (N.ltb_spec a b)
           end; try reflexivity; lia.
Qed.

Lemma digits_none (rest : string) :
  digits 16 None rest = None
  <-> match rest with
      | String c _ => isHexDigit c = false
      | EmptyString => True
      end.
Proof.
  destruct rest as [|c s]; [simpl; tauto|].
  rewrite <- digit_of_base_16. cbn [digits].
  destruct (digitValue c) as [d|]; [|tauto].
  destruct (d <? 16)%N; [|tauto].
  split; [intros H; now apply digits_started in H|discriminate].
Qed.

(** X2.  Every record of every result has exactly 16 bytes, each of them
    two hexadecimal digits, and an offset that begins with "0x".  Its
    numeric offset is [NaN] exactly when no hexadecimal digit follows the
    "0x", and is otherwise a number that is not negative. *)
Theorem parseHexdump_records_are_well_formed (output : string) (r : HexLine) :
  In r (parseHexdump output) ->
  length (bytes r) = 16
  /\ Forall (fun b => strlen b = 2 /\ all isHexDigit b = true) (bytes r)
  /\ exists rest,
       offset r = String "0" (String "x" rest)
       /\ (offsetNum r = None
           <-> match rest with
               | String c _ => isHexDigit c = false
               | EmptyString => True
               end)
       /\ (forall n, offsetNum r = Some n -> (0 <= n)%Z).
Proof.
  unfold parseHexdump. rewrite HexDumpSpec.fold_loopBody. simpl.
  intros Hr. apply in_flat_map in Hr. destruct Hr as (line & _ & Hr).
  unfold loopBody in Hr.
  destruct (startsWith "0x" line) eqn:Hs; simpl in Hr; [|contradiction].
  destruct (Nat.ltb (length (partsOf line)) 3); [contradiction|].
  destruct (Nat.eqb_spec (length (fst (scanParts (partsOf line)))) 16) as [E|E];
    [|contradiction].
  destruct Hr as [<- | []]. cbn [offset offsetNum bytes].
  pose proof (offset_keeps_prefix line Hs) as Hp.
  split; [exact E|]. split.
  - apply (scan_shape (tl (partsOf line)) ([], EmptyString)). constructor.
  - destruct (startsWith_0x _ Hp) as [rest Hrest]. exists rest.
    split; [exact Hrest|]. split; [|apply parseInt_of_offset, Hp].
    rewrite Hrest. unfold parseInt.
    change (trimStart (String "0" (String "x" rest))) with (String "0" (String "x" rest)).
    cbv beta iota zeta. change (16 =? 16)%N with true.
    change (stripHexPrefix (String "0" (String "x" rest))) with rest.
    rewrite <- digits_none.
    destruct (digits 16 None rest); split; try discriminate; reflexivity.
Qed.

Lemma sample_record_is_well_formed :
  length ["41"; "42"; "43"; "44"; "45"; "46"; "47"; "48";
          "49"; "4a"; "4b"; "4c"; "4d"; "4e"; "4f"; "50"] = 16
  /\ Forall (fun b => strlen b = 2 /\ all isHexDigit b = true)
       ["41"; "42"; "43"; "44"; "45"; "46"; "47"; "48";
        "49"; "4a"; "4b"; "4c"; "4d"; "4e"; "4f"; "50"]
  /\ exists rest,
       "0x00000000" = String "0" (String "x" rest)
       /\ (Some 0%Z = None
           <-> match rest with
               | String c _ => isHexDigit c = false
               | EmptyString => True
               end)
       /\ (forall n, Some 0%Z = Some n -> (0 <= n)%Z).
Proof.
  apply (parseHexdump_records_are_well_formed HexDumpSpec.sampleLine
           {| offset := "0x00000000"; offsetNum := Some 0%Z;
              bytes := ["41"; "42"; "43"; "44"; "45"; "46"; "47"; "48";
                        "49"; "4a"; "4b"; "4c"; "4d"; "4e"; "4f"; "50"];
              ascii := "ABCDEFGHIJKLMNOP" |}).
  vm_compute. left. reflexivity.
Defined.

(** A record whose offset has no digit: the line is kept, the numeric
    offset is [NaN]. *)
Example offset_without_digits :
  List.map offsetNum
    (parseHexdump "0xzz 41 42 43 44 45 46 47 48 49 4a 4b 4c 4d 4e 4f 50  ABCDEFGHIJKLMNOP")
  = [None].
Proof. vm_compute. reflexivity. Qed.

Lemma bytePairs_app (a b : string) :
  (Nat.even (strlen a) = true ->
   bytePairs (String.append a b) = bytePairs a ++ bytePairs b)
  /\ (forall c, Nat.even (strlen (String c a)) = true ->
      bytePairs (String.append (String c a) b) = bytePairs (String c a) ++ bytePairs b).
Proof.
  induction a as [|d a [IH1 IH2]]; split.
  - reflexivity.
  - intros c H. discriminate.
  - intros H. apply IH2. exact H.
  - intros c H. simpl. f_equal. apply IH1. exact H.
Qed.

Lemma bytePairs_count (s : string) :
  length (bytePairs s) = Nat.div2 (strlen s)
  /\ (forall c, length (bytePairs (String c s)) = Nat.div2 (strlen (String c s))).
Proof.
  induction s as [|d s [IH1 IH2]]; split; try reflexivity.
  - apply IH2.
  - intros c. simpl. f_equal. exact IH1.
Qed.

(** The tokens written one after the other. *)
Definition joined (tokens : list string) : string :=
  fold_right String.append EmptyString tokens.

Lemma strlen_positive_even (t : string) :
  truthy t = true -> Nat.even (strlen t) = true -> Nat.leb 2 (strlen t) = true.
Proof.
  destruct t as [|a [|b t]]; simpl; try discriminate. reflexivity.
Qed.

(** X3.  How the digits of a line are grouped does not matter: tokens of
    hexadecimal digits of even length give the byte pairs of the digits
    written one after the other, and leave the text alone.  A token of
    [n] digits gives [n / 2] pairs, so the last digit of a token of odd
    length is lost. *)
Theorem grouping_of_hex_digits_is_irrelevant :
  (forall tokens acc,
      Forall (fun t => isHexString t = true /\ Nat.even (strlen t) = true) tokens ->
      fold_left classify tokens acc = (fst acc ++ bytePairs (joined tokens), snd acc))
  /\ (forall s, length (bytePairs s) = Nat.div2 (strlen s)).
Proof.
  split; [|intros s; apply bytePairs_count].
  induction tokens as [|t tokens IH]; intros acc H; simpl.
  - rewrite app_nil_r. destruct acc; reflexivity.
  - inversion H as [|? ? [Hh He] Hrest]; subst.
    rewrite IH by exact Hrest.
    unfold classify. rewrite Hh. unfold isHexString in Hh.
    apply andb_true_iff in Hh as [Ht _].
    rewrite (strlen_positive_even t Ht He). simpl.
    rewrite (proj1 (bytePairs_app t (joined tokens)) He).
    now rewrite app_assoc.
Qed.

(** The sixteen bytes of a line written in groups of four digits, as
    radare2 prints them, and in groups of two. *)
Lemma groups_of_four_and_of_two :
  fold_left classify ["7f45"; "4c46"; "0201"; "0100"] ([], EmptyString)
  = fold_left classify ["7f"; "45"; "4c"; "46"; "02"; "01"; "01"; "00"] ([], EmptyString).
Proof.
  rewrite (proj1 grouping_of_hex_digits_is_irrelevant
             ["7f45"; "4c46"; "0201"; "0100"] ([], EmptyString)).
  - rewrite (proj1 grouping_of_hex_digits_is_irrelevant
               ["7f"; "45"; "4c"; "46"; "02"; "01"; "01"; "00"] ([], EmptyString)).
    + reflexivity.
    + repeat constructor.
  - repeat constructor.
Defined.

End HexDumpMore.

(** ** The input handler, beyond the claims *)

Module HandlerMore.
Import Js Tab TabSpec.

Lemma forwarded_app (a b : list Event) : forwarded (a ++ b) = forwarded a ++ forwarded b.
Proof.
  induction a as [|e a IH]; simpl; [reflexivity|].
  destruct e; simpl; rewrite ?IH, <- ?app_assoc; reflexivity.
Qed.

Lemma forwarded_stdinWrite (c : Conn) (text : string) :
  forwarded (stdinWrite c text) = match stdin c with Some _ => encode text | None => [] end.
Proof.
  unfold stdinWrite. destruct (stdin c); simpl; [apply app_nil_r | reflexivity].
Qed.

Lemma forwarded_line (c : Conn) (text : string) :
  forwarded (stdinWrite c text ++ stdinWrite c CR) = []
  \/ exists pre, forwarded (stdinWrite c text ++ stdinWrite c CR) = pre ++ [Byte.x0d].
Proof.
  rewrite forwarded_app, !forwarded_stdinWrite. destruct (stdin c).
  - right. exists (encode text). reflexivity.
  - left. reflexivity.
Qed.

(** X4.  Whatever unit of input the handler receives, what it writes to
    the instance input in response is either nothing or ends with the
    line terminator: the instance never receives a command without its
    terminator. *)
Theorem forwarded_input_is_line_terminated (ui : Ui) (c : Conn) (data : string) :
  forwarded (snd (fst (handler ui c data))) = []
  \/ exists pre, forwarded (snd (fst (handler ui c data))) = pre ++ [Byte.x0d].
Proof.
  unfold handler.
  repeat match goal with
         | |- context [if ?b then _ else _] => destruct b
         | |- context [match ?o with Some _ => _ | None => _ end] => destruct o
         end;
    cbn [fst snd];
    try (left; reflexivity);
    try apply forwarded_line;
    try (change (forwarded (?x :: ?l)) with (forwarded l));
    try (rewrite forwarded_app; change (forwarded [ConsoleLog _; TermWrite _]) with (@nil Byte.byte));
    try apply forwarded_line.
  - change (forwarded (Abort :: TermWrite (String.append "^C" CR) :: stdinWrite c CR))
      with (forwarded (stdinWrite c CR)).
    rewrite forwarded_stdinWrite. destruct (stdin c); [right; exists []|left]; reflexivity.
Qed.

(** The units of input that the handler gives a meaning of their own:
    the tests of the handler, in its order. *)
Definition reserved : list string :=
  [CtrlC; CtrlV; CtrlR; "R"; CtrlL; "L"; CtrlF; "F"; CtrlG; "G";
   CR; ArrowUp; ArrowDown; Backspace].

Definition plain (data : string) : bool :=
  negb (existsb (String.eqb data) reserved).

Lemma handler_plain (ui : Ui) (c : Conn) (data : string) :
  plain data = true ->
  handler ui c data
  = (withController (Some NewAbortController)
       (withInput (String.append (currentInput c) data) c),
     TermWrite data :: (match cancelController c with Some _ => [Abort] | None => [] end),
     false).
Proof.
  unfold plain, reserved. cbn [existsb]. intros H. apply negb_true_iff in H.
  repeat match type of H with
         | (_ || _)%bool = false => apply orb_false_iff in H; destruct H as [? H]
         end.
  unfold handler.
  repeat match goal with
         | E : String.eqb data ?k = false |- _ => rewrite E; clear E
         end.
  reflexivity.
Qed.

Lemma dropLast_append (s : string) (ch : Ascii.ascii) :
  dropLast (String.append s (String ch EmptyString)) = s.
Proof.
  induction s as [|a s IH]; [reflexivity|].
  simpl. rewrite IH. destruct s; reflexivity.
Qed.

Lemma strlen_append (a b : string) : strlen (String.append a b) = strlen a + strlen b.
Proof. induction a as [|x a IH]; simpl; [reflexivity | now rewrite IH]. Qed.

(** X5.  A unit of input that is none of the reserved ones is appended to
    the pending buffer and echoed, and is not forwarded; the erase key
    that follows removes the last code unit of the buffer, so that a unit
    of one code unit, typed and erased, leaves the buffer as it was.  The
    letters R, L, F and G typed alone are reserved: they are neither put
    in the buffer nor echoed, and the variables of the handler stay as
    they are; R calls [restartSession], L clears the terminal, F asks
    for a search term and G for an address. *)
Theorem typing_and_erasing :
  (forall ui c data,
      plain data = true ->
      currentInput (fst (fst (handler ui c data))) = String.append (currentInput c) data
      /\ forwarded (snd (fst (handler ui c data))) = []
      /\ In (TermWrite data) (snd (fst (handler ui c data))))
  /\ (forall ui c data,
        plain data = true -> data <> EmptyString ->
        currentInput (fst (fst (handler ui (fst (fst (handler ui c data))) Backspace)))
        = dropLast (String.append (currentInput c) data))
  /\ (forall ui c ch,
        plain (String ch EmptyString) = true ->
        currentInput (fst (fst (handler ui (fst (fst (handler ui c (String ch EmptyString))))
                                  Backspace)))
        = currentInput c)
  /\ (forall ui c,
        Forall (fun data => plain data = false) ["R"; "L"; "F"; "G"]
        /\ handler ui c "R" = (c, [], true)
        /\ handler ui c "L" = (c, [TermClear], false)
        /\ (exists rest,
              handler ui c "F" = (c, Prompt "Enter search term:" :: rest, false)
              /\ forall s, ~ In (TermWrite s) rest)
        /\ (exists rest,
              handler ui c "G" = (c, Prompt "Enter address:" :: rest, false)
              /\ forall s, ~ In (TermWrite s) rest)).
Proof.
  assert (Hback : forall ui c, currentInput c <> EmptyString ->
            currentInput (fst (fst (handler ui c Backspace))) = dropLast (currentInput c)).
  { intros ui c Hne.
    change (handler ui c Backspace)
      with (if Nat.ltb 0 (strlen (currentInput c))
            then (withInput (dropLast (currentInput c)) c,
                  [TermWrite (String.append ESC (String.append "[D " (String.append ESC "[D")))],
                  false)
            else (c, [], false)).
    destruct (currentInput c) as [|a s]; [contradiction|]. reflexivity. }
  split; [|split; [|split]].
  - intros ui c data H. rewrite (handler_plain ui c data H). cbn [fst snd]. repeat split.
    + destruct (cancelController c); reflexivity.
    + left. reflexivity.
  - intros ui c data H Hne. rewrite Hback.
    + rewrite (handler_plain ui c data H). reflexivity.
    + rewrite (handler_plain ui c data H). cbn [fst snd currentInput withController withInput].
      intros E. apply (f_equal strlen) in E. rewrite strlen_append in E.
      destruct data; [contradiction|]. simpl in E. lia.
  - intros ui c ch H. rewrite Hback.
    + rewrite (handler_plain ui c _ H). cbn [fst snd currentInput withController withInput].
      apply dropLast_append.
    + rewrite (handler_plain ui c _ H). cbn [fst snd currentInput withController withInput].
      intros E. apply (f_equal strlen) in E. rewrite strlen_append in E. simpl in E. lia.
  - intros ui c. split; [repeat constructor|]. split; [reflexivity|].
    split; [reflexivity|]. split.
    + change (handler ui c "F")
        with (match promptAnswer ui with
              | Some searchTerm =>
                  (c, Prompt "Enter search term:" ::
                      (if truthy searchTerm
                       then stdinWrite c (String.append "/ " searchTerm) ++ stdinWrite c CR
                       else []), false)
              | None => (c, [Prompt "Enter search term:"], false)
              end).
      unfold stdinWrite.
      destruct (promptAnswer ui) as [a|]; [destruct (truthy a)|]; destruct (stdin c);
        eexists; (split; [reflexivity|]); intros s Hs; simpl in Hs;
        repeat (destruct Hs as [Hs | Hs]; try discriminate); try contradiction.
    + change (handler ui c "G")
        with (match promptAnswer ui with
              | Some address =>
                  (c, Prompt "Enter address:" ::
                      (if truthy address
                       then stdinWrite c (String.append "s " address) ++ stdinWrite c CR
                       else []), false)
              | None => (c, [Prompt "Enter address:"], false)
              end).
      unfold stdinWrite.
      destruct (promptAnswer ui) as [a|]; [destruct (truthy a)|]; destruct (stdin c);
        eexists; (split; [reflexivity|]); intros s Hs; simpl in Hs;
        repeat (destruct Hs as [Hs | Hs]; try discriminate); try contradiction.
Qed.

Lemma type_p_then_erase :
  currentInput (fst (fst (handler quiet (fst (fst (handler quiet freshConn "p"))) Backspace)))
  = EmptyString.
Proof.
  apply (proj1 (proj2 (proj2 typing_and_erasing)) quiet freshConn "p"%char).
  reflexivity.
Defined.

(** X6.  The history only grows, and only by submitting: whatever the
    unit of input, the history stays as it is, unless the unit is the
    line terminator and the pending buffer is not blank, in which case
    the buffer is appended.  A blank buffer is still forwarded with its
    line terminator, and the cursor stays where it was. *)
Theorem history_grows_only_by_submitting :
  (forall ui c data,
      history (fst (fst (handler ui c data))) = history c
      \/ (data = CR /\ truthy (trim (currentInput c)) = true
          /\ history (fst (fst (handler ui c data))) = history c ++ [currentInput c]))
  /\ (forall ui c,
        truthy (trim (currentInput c)) = false ->
        handler ui c CR
        = (withInput EmptyString c, stdinWrite c (currentInput c) ++ stdinWrite c CR, false)).
Proof.
  split.
  - intros ui c data. destruct (String.eqb_spec data CR) as [->|Hne].
    + rewrite handler_enter. cbv zeta.
      destruct (truthy (trim (currentInput c))); cbn [fst snd history withInput withIndex withHistory];
        [right; repeat split | left; reflexivity].
    + left. apply String.eqb_neq in Hne. unfold handler. rewrite Hne.
      repeat match goal with
             | |- context [if ?b then _ else _] => destruct b
             | |- context [match ?o with Some _ => _ | None => _ end] => destruct o
             end; reflexivity.
  - intros ui c H. rewrite handler_enter. cbv zeta. rewrite H. reflexivity.
Qed.

Lemma blank_line_is_forwarded_not_recorded :
  handler quiet (fst (fst (handler quiet freshConn " "))) CR
  = (withInput EmptyString (fst (fst (handler quiet freshConn " "))),
     [StdinWrite 0 [Byte.x20]; StdinWrite 0 [Byte.x0d]], false).
Proof.
  apply (proj2 history_grows_only_by_submitting quiet (fst (fst (handler quiet freshConn " ")))).
  reflexivity.
Defined.

(** The cursor of a connection: -1 with an empty history, or an index
    between 0 and the length of the history. *)
Definition cursorOk (c : Conn) : Prop :=
  historyIndex c = (-1)%Z /\ history c = []
  \/ (0 <= historyIndex c <= Z.of_nat (length (history c)))%Z.

(** X7.  From the start of a connection on, whatever is typed, the
    history cursor is -1 while the history is empty, or lies between 0
    and the length of the history: the handler never reads the history
    outside its bounds. *)
Theorem cursor_stays_in_bounds (ui : Ui) (c : Conn) (keys : list string) :
  cursorOk c -> cursorOk (afterKeys ui c keys).
Proof.
  revert c. unfold afterKeys.
  induction keys as [|k keys IH]; intros c H; simpl; [exact H|].
  apply IH. apply (cursor_invariant ui c k). exact H.
Qed.

Lemma cursor_after_navigation :
  cursorOk (afterKeys quiet freshConn
              [ArrowDown; "a"; CR; ArrowUp; ArrowUp; "b"; CR; ArrowDown; ArrowDown]).
Proof.
  apply (cursor_stays_in_bounds quiet freshConn). left. split; reflexivity.
Defined.

End HandlerMore.

(** ** Creating and restarting a session, beyond the claims *)

Module SessionMore.
Import Js Tab TabSpec.

(** The writer of an instance, when it has a standard input. *)
Definition writerOf (n : nat) (withStdin : bool) : option Writer :=
  if withStdin then Some n else None.

(** The handler variables of a connection that has just been made. *)
Definition newConn (sc : Scope) (w : option Writer) : Conn :=
  {| scope := sc; stdin := w; cancelController := None; history := [];
     historyIndex := (-1)%Z; currentInput := EmptyString |}.

Ltac reduce_session :=
  cbv beta iota zeta delta
    [bind emits emit try_ ret throw newDirectory setDir run setInstance
     connectStreams setr2Writer setRef setHooks setLog closing freeing args
     fst snd log hooks dir directories instances props_pkg props_file
     onDataDisposableRef fileStore termInstance r2Writer instance
     writerOf newConn id hasStdin].

(** X8.  A restart that succeeds leaves the session on the new instance:
    the state cells hold the new directory, the new instance and its
    writer, and the input handler is a new one, whose history is empty,
    whose cursor is -1 and whose pending buffer is empty: the history of
    the previous connection is gone.  A restart whose run is rejected
    throws after it has released what its closure saw and has replaced the
    directory cell: the instance cell, the writer cell and the input
    handler are those of the old instance. *)
Theorem restart_outcome (env : Env) (sc : Scope) (s : State)
    (p : Wasmer) (term : Terminal) (f : FileEntry) :
  pkg sc = Some p -> termInstance (seen sc) = Some term -> fileStore s = Some f ->
  (forall b, runResult env (instances s) = Some b ->
     fst (restartSession env sc s) = Done tt
     /\ onDataDisposableRef (snd (restartSession env sc s))
        = Some (newConn sc (writerOf (instances s) b))
     /\ hooks (snd (restartSession env sc s))
        = {| termInstance := termInstance (hooks s);
             r2Writer := writerOf (instances s) b;
             dir := Some (directories s);
             instance := Some {| id := instances s; hasStdin := b |} |}
     /\ instances (snd (restartSession env sc s)) = S (instances s))
  /\ (runResult env (instances s) = None ->
     fst (restartSession env sc s) = Thrown
     /\ onDataDisposableRef (snd (restartSession env sc s)) = onDataDisposableRef s
     /\ hooks (snd (restartSession env sc s))
        = {| termInstance := termInstance (hooks s);
             r2Writer := r2Writer (hooks s);
             dir := Some (directories s);
             instance := instance (hooks s) |}
     /\ instances (snd (restartSession env sc s)) = instances s).
Proof.
  intros Hp Ht Hf. destruct s as [pp pf [ht hw hd hi] r fs nd ni lg].
  simpl in Hf. subst fs.
  unfold restartSession. rewrite Hp, Ht.
  split; [intros b E | intros E]; cbn [instances] in E;
    destruct (r2Writer (seen sc)) as [w|]; destruct (instance (seen sc)) as [i|];
    unfold closeWriter, freeInstance;
    try destruct (closeThrows env w); try destruct (freeThrows env (Tab.id i));
    reduce_session; rewrite E; reduce_session;
    try destruct b; repeat split.
Qed.

Lemma restart_of_started_session :
  fst (restartSession calm (currentScope started) started) = Done tt
  /\ onDataDisposableRef (snd (restartSession calm (currentScope started) started))
     = Some (newConn (currentScope started) (writerOf 1 true))
  /\ hooks (snd (restartSession calm (currentScope started) started))
     = {| termInstance := Some 0; r2Writer := writerOf 1 true; dir := Some 1;
          instance := Some {| id := 1; hasStdin := true |} |}
  /\ instances (snd (restartSession calm (currentScope started) started)) = 2.
Proof.
  apply (proj1 (restart_outcome calm (currentScope started) started
                  samplePkg 0 sampleFile eq_refl eq_refl eq_refl) true).
  reflexivity.
Defined.

(** X9.  Creating a session with the package, the terminal and the file
    in place clears the line above, takes a new directory, and runs the
    package with the arguments -e io.cache=1 -e anal.depth=24 and the name
    of the file, mounting the file and the directory.  When the run
    resolves, the cells hold the directory, the instance and its writer
    and the input handler is new; when it is rejected, the effect throws
    with the directory cell set and no instance, writer or handler. *)
Theorem create_outcome (env : Env) (sc : Scope) (s : State)
    (p : Wasmer) (term : Terminal) (f : FileEntry) :
  pkg sc = Some p -> termInstance (seen sc) = Some term -> file sc = Some f ->
  log (snd (createEffect env sc s))
  = log s
    ++ [TermWrite (String.append ESC "[A"); TermWrite (String.append ESC "[2K");
        TermWrite CR; NewDirectory (directories s);
        Run p ["-e"; "io.cache=1"; "-e"; "anal.depth=24"; name f] f (directories s)
          (option_map (fun b => {| id := instances s; hasStdin := b |})
             (runResult env (instances s)))]
  /\ (forall b, runResult env (instances s) = Some b ->
     fst (createEffect env sc s) = Done tt
     /\ onDataDisposableRef (snd (createEffect env sc s))
        = Some (newConn sc (writerOf (instances s) b))
     /\ hooks (snd (createEffect env sc s))
        = {| termInstance := termInstance (hooks s);
             r2Writer := writerOf (instances s) b;
             dir := Some (directories s);
             instance := Some {| id := instances s; hasStdin := b |} |})
  /\ (runResult env (instances s) = None ->
     fst (createEffect env sc s) = Thrown
     /\ onDataDisposableRef (snd (createEffect env sc s)) = onDataDisposableRef s
     /\ hooks (snd (createEffect env sc s))
        = {| termInstance := termInstance (hooks s);
             r2Writer := r2Writer (hooks s);
             dir := Some (directories s);
             instance := instance (hooks s) |}).
Proof.
  intros Hp Ht Hf. destruct s as [pp pf [ht hw hd hi] r fs nd ni lg].
  unfold createEffect. rewrite Hp, Ht, Hf.
  split; [|split; [intros b E | intros E]]; cbn [instances] in *.
  - destruct (runResult env ni) as [b|] eqn:E;
      reduce_session; rewrite E; reduce_session;
      rewrite <- ?app_assoc; reflexivity.
  - reduce_session; rewrite E; reduce_session; destruct b; repeat split.
  - reduce_session; rewrite E; reduce_session; repeat split.
Qed.

Lemma create_of_mounted_tab :
  fst (create calm (mounted (Some samplePkg) (Some sampleFile))) = Done tt
  /\ onDataDisposableRef started
     = Some (newConn (currentScope (mounted (Some samplePkg) (Some sampleFile)))
               (writerOf 0 true))
  /\ hooks started
     = {| termInstance := Some 0; r2Writer := writerOf 0 true; dir := Some 0;
          instance := Some {| id := 0; hasStdin := true |} |}.
Proof.
  apply (proj1 (proj2 (create_outcome calm
                         (currentScope (mounted (Some samplePkg) (Some sampleFile)))
                         (mounted (Some samplePkg) (Some sampleFile))
                         samplePkg 0 sampleFile eq_refl eq_refl eq_refl)) true).
  reflexivity.
Defined.

End SessionMore.

(* ===================================================================== *)
(** ** The package loader: the downloaded binary *)
(* ===================================================================== *)

Module LoaderMore.
Import Js Loader LoaderSpec.

(** The same world with another content of the cache. *)
Definition withCache (w : World) (c : gmap string (list Byte.byte)) : World :=
  {| cache := c; fetch := fetch w; fromWasm := fromWasm w;
     cachePutFails := cachePutFails w; MODE := MODE w;
     VITE_VERCEL_PROJECT_PRODUCTION_URL := VITE_VERCEL_PROJECT_PRODUCTION_URL w;
     BASE_URL := BASE_URL w |}.

(** The effects that keep the binary: the package handed to the page and
    the entry put in the cache. *)
Definition keeps (e : Effect) : bool :=
  match e with SetPkg _ | CachePut _ _ => true | _ => false end.

(** The page after all the effects of a run. *)
Definition final (effects : list Effect) (s : Page) : Page :=
  fold_left (fun s e => apply e s) effects s.

(** The effects that end the download indicator, report an error or
    announce completion. *)
Definition settles (e : Effect) : bool :=
  match e with
  | ConsoleError | SetTimeout _ | SetIsDownloading false | SetDownloadPhase complete => true
  | _ => false
  end.

Definition announce (w : World) (version : string) : list Effect :=
  [SetDownloadPhase initializing; SetIsDownloading true; SetDownloadProgress 10%Q;
   SetDownloadPhase downloading; SetDownloadProgress 30%Q;
   Fetch (wasmUrl w version); Await].

(** The run of a version that is not in the cache and whose fetch
    resolved. *)
Lemma miss_run (round : Q -> Q) (w : World) (version : string) (doCache : bool)
    (response : Response) :
  cache w !! version = None ->
  fetch w (wasmUrl w version) = Some response ->
  initializeWasmer round w version doCache
  = let x := match body response with
             | Some reads => readLoop round (totalOf response) 0 [] reads
             | None => ([], Some [])
             end in
    match snd x with
    | None => (start version ++ announce w version ++ fst x, Rejected)
    | Some chunks =>
        (start version ++ announce w version ++ fst x
           ++ fst (finish w version doCache chunks),
         snd (finish w version doCache chunks))
    end.
Proof.
  intros Hmiss Hfetch. unfold initializeWasmer. rewrite Hmiss, Hfetch.
  cbv zeta.
  destruct (match body response with
            | Some reads => readLoop round (totalOf response) 0 [] reads
            | None => ([], Some [])
            end) as [streamed [chunks|]]; cbn [fst snd]; [|reflexivity].
  destruct (finish w version doCache chunks) as [rest outcome]. reflexivity.
Qed.

Lemma readLoop_result (round : Q -> Q) (total : option Z) (reads : list Read) :
  forall loaded chunks,
    match snd (readLoop round total loaded chunks reads) with
    | Some cs => exists values, reads = List.map Chunk values /\ cs = chunks ++ values
    | None => True
    end.
Proof.
  induction reads as [|r rest IH]; intros loaded chunks.
  - simpl. exists []. split; [reflexivity|]. now rewrite app_nil_r.
  - destruct r as [value|]; [|exact I].
    simpl readLoop.
    specialize (IH (loaded + Z.of_nat (length value))%Z (chunks ++ [value])).
    destruct (readLoop round total (loaded + Z.of_nat (length value))
                (chunks ++ [value]) rest) as [effects result].
    cbn [snd] in *. destruct result as [cs|]; [|exact I].
    destruct IH as [values [-> ->]]. exists (value :: values). split; [reflexivity|].
    now rewrite <- app_assoc.
Qed.

Lemma readLoop_chunks (round : Q -> Q) (total : option Z) (values : list (list Byte.byte)) :
  forall loaded chunks,
    snd (readLoop round total loaded chunks (List.map Chunk values)) = Some (chunks ++ values).
Proof.
  induction values as [|value values IH]; intros loaded chunks.
  - simpl. now rewrite app_nil_r.
  - simpl. specialize (IH (loaded + Z.of_nat (length value))%Z (chunks ++ [value])).
    destruct (readLoop round total (loaded + Z.of_nat (length value))
                (chunks ++ [value]) (List.map Chunk values)) as [effects result].
    cbn [snd] in *. rewrite IH. now rewrite <- app_assoc.
Qed.

(** The loop only waits and reports progress. *)
Lemma readLoop_effects (round : Q -> Q) (total : option Z) (reads : list Read) :
  forall loaded chunks,
    Forall (fun e => e = Await \/ exists v, e = SetDownloadProgress v)
      (fst (readLoop round total loaded chunks reads)).
Proof.
  induction reads as [|r rest IH]; intros loaded chunks.
  - simpl. repeat constructor.
  - destruct r as [value|]; [|simpl; repeat constructor].
    simpl readLoop.
    specialize (IH (loaded + Z.of_nat (length value))%Z (chunks ++ [value])).
    destruct (readLoop round total (loaded + Z.of_nat (length value))
                (chunks ++ [value]) rest) as [effects result].
    cbn [fst] in *. constructor; [now left|].
    apply Forall_app. split; [|exact IH].
    destruct (positive total); [|constructor].
    constructor; [right; eauto|constructor].
Qed.

Lemma streamed_effects (round : Q -> Q) (response : Response) :
  Forall (fun e => e = Await \/ exists v, e = SetDownloadProgress v)
    (fst match body response with
         | Some reads => readLoop round (totalOf response) 0 [] reads
         | None => ([], Some [])
         end).
Proof.
  destruct (body response); [apply readLoop_effects|constructor].
Qed.

Lemma filter_none {A : Type} (f : A -> bool) (l : list A) :
  Forall (fun x => f x = false) l -> List.filter f l = [].
Proof.
  induction 1 as [|x l Hx _ IH]; simpl; [reflexivity|]. now rewrite Hx.
Qed.

Lemma streamed_keeps_nothing (round : Q -> Q) (response : Response) :
  List.filter keeps
    (fst match body response with
         | Some reads => readLoop round (totalOf response) 0 [] reads
         | None => ([], Some [])
         end) = [].
Proof.
  apply filter_none. eapply List.Forall_impl; [|apply streamed_effects].
  intros e [->|[v ->]]; reflexivity.
Qed.

(** X10.  What a download keeps does not depend on how the body was cut
    into chunks: when the version is not in the cache and the body
    arrives as the chunks [values], the run hands to the page the package
    decoded from their concatenation, and puts that concatenation in the
    cache under the version when caching is on; nothing else is handed
    over or cached, and nothing at all when the decoder throws. *)
Theorem download_keeps_the_concatenation
    (round : Q -> Q) (w : World) (version : string) (doCache : bool)
    (response : Response) (values : list (list Byte.byte)) :
  cache w !! version = None ->
  fetch w (wasmUrl w version) = Some response ->
  body response = Some (List.map Chunk values) ->
  List.filter keeps (fst (initializeWasmer round w version doCache))
  = match fromWasm w (List.concat values) with
    | None => []
    | Some p => SetPkg p :: (if doCache then [CachePut version (List.concat values)] else [])
    end.
Proof.
  intros Hmiss Hfetch Hbody.
  rewrite (miss_run round w version doCache response Hmiss Hfetch).
  pose proof (streamed_keeps_nothing round response) as Hs.
  rewrite Hbody in *. cbv zeta.
  rewrite (readLoop_chunks round (totalOf response) values 0 []).
  cbn [fst snd app]. rewrite !List.filter_app, Hs.
  unfold finish. cbn [app].
  destruct (fromWasm w (concat values)) as [p|]; [|reflexivity].
  destruct doCache; [destruct (cachePutFails w)|]; reflexivity.
Qed.

Definition twoChunks : Response :=
  {| contentLength := Some "4";
     body := Some (List.map Chunk [[Byte.x00; Byte.x61]; [Byte.x73; Byte.x6d]]) |}.

Lemma two_chunks_are_one_binary :
  List.filter keeps (fst (initializeWasmer (fun q => q) downloadWorld "6.0.9" true))
  = [SetPkg (WasmerPkg wasmHeader); CachePut "6.0.9" wasmHeader].
Proof.
  exact (download_keeps_the_concatenation (fun q => q) downloadWorld "6.0.9" true
           twoChunks [[Byte.x00; Byte.x61]; [Byte.x73; Byte.x6d]]
           eq_refl eq_refl eq_refl).
Defined.

(** X11.  A download that was cached is reused.  When a version that is
    not in the cache is downloaded with caching on and the run returns
    after its fetch resolved, the run has put a binary in the cache under
    the version and handed a package to the page; with that entry in the
    cache, every later run for the version, with caching on or off, hands
    over the same package after the five waits of a cache hit and does
    nothing else: no fetch, no progress. *)
Theorem cached_download_is_reused
    (round : Q -> Q) (w : World) (version : string) (response : Response) :
  cache w !! version = None ->
  fetch w (wasmUrl w version) = Some response ->
  snd (initializeWasmer round w version true) = Returned ->
  exists buffer p,
    In (CachePut version buffer) (fst (initializeWasmer round w version true))
    /\ In (SetPkg p) (fst (initializeWasmer round w version true))
    /\ forall round' doCache',
         initializeWasmer round' (withCache w (<[version := buffer]> (cache w)))
           version doCache'
         = (start version ++ [Await; SetPkg p], Returned).
Proof.
  intros Hmiss Hfetch.
  rewrite (miss_run round w version true response Hmiss Hfetch). cbv zeta.
  destruct (snd match body response with
                | Some reads => readLoop round (totalOf response) 0 [] reads
                | None => ([], Some [])
                end) as [chunks|]; cbn [fst snd]; [|discriminate].
  unfold finish.
  destruct (fromWasm w (concat chunks)) as [p|] eqn:Hp; cbn [fst snd]; [|discriminate].
  destruct (cachePutFails w); cbn [fst snd]; [discriminate|]. intros _.
  exists (concat chunks), p. split; [|split].
  - rewrite !in_app_iff. do 3 right. simpl. tauto.
  - rewrite !in_app_iff. do 3 right. simpl. tauto.
  - intros round' doCache'. unfold initializeWasmer, withCache. cbn [cache fromWasm].
    rewrite lookup_insert. 
    destruct (decide (version = version)) as [_|Hne]; [|contradiction].
    rewrite Hp. reflexivity.
Qed.

Lemma downloaded_version_is_reused :
  exists buffer p,
    In (CachePut "6.0.9" buffer)
       (fst (initializeWasmer (fun q => q) downloadWorld "6.0.9" true))
    /\ In (SetPkg p) (fst (initializeWasmer (fun q => q) downloadWorld "6.0.9" true))
    /\ forall round' doCache',
         initializeWasmer round'
           (withCache downloadWorld (<["6.0.9" := buffer]> (cache downloadWorld)))
           "6.0.9" doCache'
         = (start "6.0.9" ++ [Await; SetPkg p], Returned).
Proof.
  exact (cached_download_is_reused (fun q => q) downloadWorld "6.0.9" twoChunks
           eq_refl eq_refl eq_refl).
Defined.

Lemma final_app (a b : list Effect) (s : Page) : final (a ++ b) s = final b (final a s).
Proof. unfold final. apply fold_left_app. Qed.

(** Effects that do not settle keep the indicator on and the phase short
    of complete. *)
Lemma unsettled_final (effects : list Effect) :
  forall s,
    Forall (fun e => settles e = false) effects ->
    isDownloading s = true -> downloadPhase s <> complete ->
    isDownloading (final effects s) = true /\ downloadPhase (final effects s) <> complete.
Proof.
  induction effects as [|e effects IH]; intros s Hall Hd Hp; [now split|].
  inversion Hall as [|? ? He Hrest]; subst.
  change (final (e :: effects) s) with (final effects (apply e s)).
  apply IH; [exact Hrest| |];
    destruct e as [| | | | | |ph|[]| | | | |]; simpl in *; try assumption;
    try discriminate; try reflexivity.
  destruct ph; try discriminate; simpl in He; discriminate.
Qed.

Lemma not_in_of_forall {A : Type} (P : A -> Prop) (l : list A) (x : A) :
  Forall P l -> ~ P x -> ~ In x l.
Proof.
  intros Hall Hx Hin. apply Hx. rewrite List.Forall_forall in Hall. now apply Hall.
Qed.

(** X12.  A download that fails after its fetch resolved is never
    settled.  When the version is not in the cache and the run rejects
    (a read of the body, the decoder or the write to the cache failed),
    the run has neither logged an error, nor set [isDownloading] to
    false, nor scheduled the timer that does, nor announced the phase
    complete: the page is left with the download indicator on, in a phase
    other than complete. *)
Theorem rejected_download_is_not_settled
    (round : Q -> Q) (w : World) (version : string) (doCache : bool) :
  cache w !! version = None ->
  snd (initializeWasmer round w version doCache) = Rejected ->
  Forall (fun e => settles e = false) (fst (initializeWasmer round w version doCache))
  /\ isDownloading (final (fst (initializeWasmer round w version doCache)) initialPage) = true
  /\ downloadPhase (final (fst (initializeWasmer round w version doCache)) initialPage)
     <> complete.
Proof.
  intros Hmiss Hrej.
  assert (Hall : Forall (fun e => settles e = false)
                   (fst (initializeWasmer round w version doCache))).
  { destruct (fetch w (wasmUrl w version)) as [response|] eqn:Hfetch.
    - rewrite (miss_run round w version doCache response Hmiss Hfetch) in *. cbv zeta in *.
      pose proof (streamed_effects round response) as Hs.
      assert (Hs' : Forall (fun e => settles e = false)
                      (fst match body response with
                           | Some reads => readLoop round (totalOf response) 0 [] reads
                           | None => ([], Some [])
                           end)).
      { eapply List.Forall_impl; [|exact Hs]. intros e [->|[v ->]]; reflexivity. }
      destruct (snd match body response with
                    | Some reads => readLoop round (totalOf response) 0 [] reads
                    | None => ([], Some [])
                    end) as [chunks|]; cbn [fst snd] in *.
      + rewrite !Forall_app. split; [repeat constructor|].
        split; [repeat constructor|]. split; [exact Hs'|].
        unfold finish in *.
        destruct (fromWasm w (concat chunks)); [|repeat constructor].
        destruct doCache; [destruct (cachePutFails w)|]; cbn [fst snd] in *;
          try discriminate.
        repeat constructor.
      + rewrite !Forall_app. split; [repeat constructor|].
        split; [repeat constructor|]. exact Hs'.
    - unfold initializeWasmer in Hrej. rewrite Hmiss, Hfetch in Hrej. discriminate. }
  split; [exact Hall|].
  assert (Hshape : exists rest,
             fst (initializeWasmer round w version doCache)
             = (start version ++ [SetDownloadPhase initializing; SetIsDownloading true])
                 ++ rest).
  { unfold initializeWasmer. rewrite Hmiss.
    destruct (fetch w (wasmUrl w version)) as [response|].
    - cbv zeta.
      destruct (match body response with
                | Some reads => readLoop round (totalOf response) 0 [] reads
                | None => ([], Some [])
                end) as [streamed [chunks|]].
      + destruct (finish w version doCache chunks) as [rest outcome]. cbn [fst].
        eexists. rewrite <- app_assoc. reflexivity.
      + cbn [fst]. eexists. rewrite <- app_assoc. reflexivity.
    - cbn [fst]. eexists. rewrite <- app_assoc. reflexivity. }
  destruct Hshape as [rest Hshape]. rewrite Hshape in *.
  rewrite final_app. apply Forall_app in Hall. destruct Hall as [_ Hrest].
  apply unsettled_final; [exact Hrest|reflexivity|discriminate].
Qed.

(** A world with an empty cache where the second read of the body
    rejects. *)
Definition brokenWorld : World :=
  {| cache := ∅;
     fetch := fun _ => Some {| contentLength := Some "4";
                               body := Some [Chunk [Byte.x00; Byte.x61]; ReadFails] |};
     fromWasm := fun image => Some (WasmerPkg image);
     cachePutFails := false;
     MODE := "development";
     VITE_VERCEL_PROJECT_PRODUCTION_URL := EmptyString;
     BASE_URL := EmptyString |}.

Lemma broken_body_is_not_settled :
  Forall (fun e => settles e = false)
    (fst (initializeWasmer (fun q => q) brokenWorld "6.0.9" true))
  /\ isDownloading
       (final (fst (initializeWasmer (fun q => q) brokenWorld "6.0.9" true)) initialPage)
     = true
  /\ downloadPhase
       (final (fst (initializeWasmer (fun q => q) brokenWorld "6.0.9" true)) initialPage)
     <> complete.
Proof.
  exact (rejected_download_is_not_settled (fun q => q) brokenWorld "6.0.9" true
           eq_refl eq_refl).
Defined.

End LoaderMore.

(* ===================================================================== *)
(** ** The proxy route: what the client receives *)
(* ===================================================================== *)

Module ProxyMore.
Import Proxy ProxySpec.

(** The headers of the route once the archive was fetched. *)
Definition wasmHeaders : list (string * string) :=
  [("Content-Type", "application/wasm");
   ("Access-Control-Allow-Origin", "*");
   ("Access-Control-Allow-Methods", "GET, OPTIONS");
   ("Access-Control-Allow-Headers", "*")].

(** The route while the entry is extracted: the headers are set, the
    listener is on the response, no error was raised. *)
Definition streaming (k : Route) (sent : list (list Byte.byte)) : Prop :=
  uncaught k = false
  /\ errorListeners k = [Res]
  /\ statusCode (res k) = 200
  /\ headers (res k) = wasmHeaders
  /\ body (res k) = List.map Payload sent
  /\ ended (res k) = false
  /\ headersSent (res k) = negb (match sent with [] => true | _ => false end)
  /\ headerBlocks (res k) = match sent with [] => 0 | _ => 1 end.

Lemma data_streaming (chunks : list (list Byte.byte)) :
  forall k sent,
    streaming k sent ->
    streaming (fold_left deliver (List.map Data chunks) k) (sent ++ chunks).
Proof.
  induction chunks as [|c chunks IH]; intros k sent H.
  - simpl. now rewrite app_nil_r.
  - simpl. replace (sent ++ c :: chunks) with ((sent ++ [c]) ++ chunks)
      by now rewrite <- app_assoc.
    apply IH. destruct H as (Hu & Hl & Hs & Hh & Hb & He & Hhs & Hn).
    unfold deliver. rewrite Hu. unfold streaming, withRes, write, flushHeaders.
    cbn [res uncaught errorListeners].
    destruct sent as [|s sent]; cbn [negb] in Hhs; rewrite Hhs;
      cbn [headersSent statusCode headers body ended headerBlocks];
      rewrite Hb, List.map_app; repeat split; try assumption;
      try (destruct (_ ++ [c]) eqn:E; [now destruct sent|reflexivity]);
      try (rewrite Hn; reflexivity).
Qed.

Lemma handle_streaming (version : string) (chunks : list (list Byte.byte))
    (rest : list StreamEvent) :
  exists k, streaming k chunks
            /\ handle version true (List.map Data chunks ++ rest) = fold_left deliver rest k.
Proof.
  unfold handle. rewrite fold_left_app. eexists. split; [|reflexivity].
  apply (data_streaming chunks _ []). repeat split.
Qed.

(** X13.  The answer to a request whose entry is extracted.  When the
    archive was fetched and the extraction gives the chunks [chunks] and
    ends, the client receives one header block with status 200, the
    content type application/wasm and a single Access-Control-Allow-Origin
    header, then the chunks in their order, and the response is ended;
    no error is left unhandled.  This holds as well for an entry of no
    bytes at all. *)
Theorem extracted_entry_is_streamed
    (version : string) (chunks : list (list Byte.byte)) :
  let k := handle version true (List.map Data chunks ++ [End]) in
  statusCode (res k) = 200
  /\ headers (res k) = [("Content-Type", "application/wasm");
                        ("Access-Control-Allow-Origin", "*");
                        ("Access-Control-Allow-Methods", "GET, OPTIONS");
                        ("Access-Control-Allow-Headers", "*")]
  /\ body (res k) = List.map Payload chunks
  /\ ended (res k) = true
  /\ headersSent (res k) = true
  /\ headerBlocks (res k) = 1
  /\ uncaught k = false.
Proof.
  cbv zeta. destruct (handle_streaming version chunks [End]) as [k [H ->]].
  destruct H as (Hu & Hl & Hs & Hh & Hb & He & Hhs & Hn).
  simpl fold_left. unfold deliver. rewrite Hu.
  unfold withRes, finish, flushHeaders. cbn [res uncaught].
  destruct chunks as [|c chunks]; cbn [negb] in Hhs; rewrite Hhs;
    cbn [headersSent statusCode headers body ended headerBlocks];
    repeat split; try assumption. now rewrite Hn.
Qed.

(** X14.  A failure of the extraction or of the upstream stream is never
    answered, at whatever point it happens.  When the archive was fetched,
    the extraction gave the chunks [chunks] and then the stream [on],
    which is not the response itself, emits an error, the error finds no
    listener; whatever the streams do afterwards, the client has received
    exactly those chunks under status 200, no error text, and the
    response is never ended. *)
Theorem stream_failure_is_never_answered
    (version : string) (chunks : list (list Byte.byte)) (on : Stream)
    (rest : list StreamEvent) :
  on <> Res ->
  let k := handle version true (List.map Data chunks ++ Error on :: rest) in
  uncaught k = true
  /\ statusCode (res k) = 200
  /\ body (res k) = List.map Payload chunks
  /\ ended (res k) = false.
Proof.
  intros Hon. cbv zeta.
  destruct (handle_streaming version chunks (Error on :: rest)) as [k [H ->]].
  destruct H as (Hu & Hl & Hs & Hh & Hb & He & Hhs & Hn).
  simpl fold_left.
  assert (Hstuck : forall events k', uncaught k' = true -> fold_left deliver events k' = k').
  { induction events as [|e events IH]; intros k' Hk; [reflexivity|].
    simpl. unfold deliver at 2. rewrite Hk. now apply IH. }
  assert (Hd : deliver k (Error on)
               = {| res := res k; errorListeners := errorListeners k; uncaught := true;
                    console := console k |}).
  { unfold deliver. rewrite Hu, Hl. destruct on; try reflexivity. contradiction. }
  rewrite Hd, Hstuck by reflexivity. cbn [res uncaught]. now repeat split.
Qed.

Lemma missing_entry_after_two_chunks :
  let k := handle "6.0.0" true
             (List.map Data [[Byte.x00]; [Byte.x61]] ++ Error ParseOne :: [End]) in
  uncaught k = true
  /\ statusCode (res k) = 200
  /\ body (res k) = List.map Payload [[Byte.x00]; [Byte.x61]]
  /\ ended (res k) = false.
Proof.
  apply (stream_failure_is_never_answered "6.0.0" [[Byte.x00]; [Byte.x61]] ParseOne [End]).
  discriminate.
Defined.

End ProxyMore.

(* ===================================================================== *)
(** ** The terminal page: the tab bar *)
(* ===================================================================== *)

Module BarSpec.
Import Js JsMore Page.

Lemma fold_max_ge (rest : list Z) :
  forall x, (x <= fold_left Z.max rest x)%Z
            /\ Forall (fun y => (y <= fold_left Z.max rest x)%Z) rest.
Proof.
  induction rest as [|y rest IH]; intros x; simpl.
  - split; [lia|constructor].
  - destruct (IH (Z.max x y)) as [H1 H2]. split; [lia|]. constructor; [lia|exact H2].
Qed.

Lemma maxOf_ge (prev : list Z) (x : Z) : In x prev -> (x <= maxOf prev)%Z.
Proof.
  destruct prev as [|y rest]; [intros []|]. simpl.
  destruct (fold_max_ge rest y) as [H1 H2].
  intros [<-|Hin]; [exact H1|]. rewrite List.Forall_forall in H2. now apply H2.
Qed.

(** X15.  The + button opens a tab with an id that no open tab has: the
    new id is put after the open tabs, becomes the active tab, is larger
    than every open id (0 when no tab is open), and ids that were
    distinct stay distinct. *)
Theorem added_tab_is_new (b : Bar) :
  exists id,
    tabs (addTab b) = tabs b ++ [id]
    /\ activeTab (addTab b) = Some id
    /\ Forall (fun t => (t < id)%Z) (tabs b)
    /\ ~ In id (tabs b)
    /\ (tabs b = [] -> id = 0%Z)
    /\ (List.NoDup (tabs b) -> List.NoDup (tabs (addTab b))).
Proof.
  destruct b as [prev a]. unfold addTab. cbn [tabs activeTab].
  set (id := match prev with [] => 0%Z | _ => (maxOf prev + 1)%Z end).
  assert (Hlt : Forall (fun t => (t < id)%Z) prev).
  { apply List.Forall_forall. intros t Ht. pose proof (maxOf_ge prev t Ht).
    subst id. destruct prev; [destruct Ht|]. lia. }
  assert (Hnot : ~ In id prev).
  { intros Hin. rewrite List.Forall_forall in Hlt. specialize (Hlt id Hin). lia. }
  exists id. repeat split; try assumption.
  - intros ->. reflexivity.
  - intros Hnd. apply List.NoDup_rev in Hnd.
    rewrite <- (List.rev_involutive (prev ++ [id])). apply List.NoDup_rev.
    rewrite List.rev_app_distr. simpl. constructor; [|exact Hnd].
    now rewrite <- List.in_rev.
Qed.

Lemma indexOf_found (id : Z) (pre post : list Z) :
  ~ In id pre -> indexOf id (pre ++ id :: post) = Z.of_nat (length pre).
Proof.
  induction pre as [|y pre IH]; intros Hn; simpl.
  - now rewrite Z.eqb_refl.
  - assert (Hy : (y =? id)%Z = false) by (apply Z.eqb_neq; intros ->; apply Hn; now left).
    rewrite Hy, IH by (intros H; apply Hn; now right).
    destruct (Z.ltb_spec (Z.of_nat (length pre)) 0); lia.
Qed.

Lemma indexOf_absent (id : Z) (l : list Z) : ~ In id l -> indexOf id l = (-1)%Z.
Proof.
  induction l as [|y l IH]; intros Hn; simpl; [reflexivity|].
  assert (Hy : (y =? id)%Z = false) by (apply Z.eqb_neq; intros ->; apply Hn; now left).
  rewrite Hy, IH by (intros H; apply Hn; now right). reflexivity.
Qed.

Lemma filter_others (id : Z) (l : list Z) :
  ~ In id l -> List.filter (fun tid => negb (tid =? id)%Z) l = l.
Proof.
  induction l as [|y l IH]; intros Hn; simpl; [reflexivity|].
  assert (Hy : (y =? id)%Z = false) by (apply Z.eqb_neq; intros ->; apply Hn; now left).
  rewrite Hy. simpl. rewrite IH; [reflexivity|]. intros H; apply Hn; now right.
Qed.

Lemma nth_error_last (pre post : list Z) (y : Z) :
  nth_error ((y :: pre) ++ post) (length pre) = Some (List.last (y :: pre) 0%Z).
Proof.
  revert y. induction pre as [|z pre IH]; intros y; [reflexivity|].
  change (nth_error ((z :: pre) ++ post) (length pre) = Some (List.last (z :: pre) 0%Z)).
  apply IH.
Qed.

(** X16.  The x of a tab removes that tab and keeps the others in their
    order.  When the closed tab was the active one, the tab on its left
    becomes active, or the tab on its right when it was the first, or
    the id -1 when it was the only one; when another tab was active, it
    stays active. *)
Theorem closed_tab_and_its_neighbour
    (pre post : list Z) (id : Z) (active : option Z) :
  ~ In id pre -> ~ In id post ->
  tabs (closeTab id {| tabs := pre ++ id :: post; activeTab := active |}) = pre ++ post
  /\ activeTab (closeTab id {| tabs := pre ++ id :: post; activeTab := active |})
     = if isActive {| tabs := pre ++ id :: post; activeTab := active |} id
       then Some match pre, post with
                 | [], [] => (-1)%Z
                 | [], next :: _ => next
                 | _ :: _, _ => List.last pre 0%Z
                 end
       else active.
Proof.
  intros Hpre Hpost. unfold closeTab. cbn [tabs activeTab].
  assert (Hf : List.filter (fun tid => negb (tid =? id)%Z) (pre ++ id :: post) = pre ++ post).
  { rewrite List.filter_app. simpl. rewrite Z.eqb_refl. simpl.
    now rewrite !filter_others. }
  rewrite Hf, indexOf_found by exact Hpre. split; [reflexivity|].
  destruct (isActive _ id); [|reflexivity].
  destruct pre as [|y pre].
  - destruct post as [|next post]; reflexivity.
  - cbn [length]. replace (Z.max 0 (Z.of_nat (S (length pre)) - 1)) with (Z.of_nat (length pre))
      by lia.
    unfold at_. destruct (Z.ltb_spec (Z.of_nat (length pre)) 0); [lia|].
    rewrite Nat2Z.id.
    change (match (y :: pre) ++ post with
            | [] => Some (-1)%Z
            | _ :: _ => nth_error ((y :: pre) ++ post) (length pre)
            end = Some (List.last (y :: pre) 0%Z)).
    cbn [app]. apply (nth_error_last pre post y).
Qed.

Lemma closing_the_active_middle_tab :
  tabs (closeTab 2 {| tabs := [0; 1] ++ 2 :: [3]; activeTab := Some 2 |})%Z = [0; 1; 3]%Z
  /\ activeTab (closeTab 2 {| tabs := [0; 1] ++ 2 :: [3]; activeTab := Some 2 |})%Z
     = Some 1%Z.
Proof.
  apply (closed_tab_and_its_neighbour [0; 1]%Z [3]%Z 2%Z (Some 2%Z)).
  - simpl. lia.
  - simpl. lia.
Defined.

Lemma nth_error_in_range {A : Type} (l : list A) (i : nat) :
  i < length l -> exists a, nth_error l i = Some a /\ In a l.
Proof.
  intros H. destruct (nth_error l i) as [a|] eqn:E.
  - exists a. split; [reflexivity|]. eapply nth_error_In. exact E.
  - apply nth_error_None in E. lia.
Qed.

Lemma at_in_range (l : list Z) (i : Z) :
  (0 <= i < Z.of_nat (length l))%Z -> exists a, at_ l i = Some a /\ In a l.
Proof.
  intros H. unfold at_. destruct (Z.ltb_spec i 0); [lia|].
  apply nth_error_in_range. lia.
Qed.

Lemma indexOf_range (a : Z) (l : list Z) :
  (-1 <= indexOf a l < Z.of_nat (length l))%Z.
Proof.
  induction l as [|y l IH]; simpl; [lia|].
  destruct (y =? a)%Z; [lia|]. destruct (Z.ltb_spec (indexOf a l) 0); lia.
Qed.

Lemma curIndex_range (b : Bar) : (-1 <= curIndex b < Z.of_nat (length (tabs b)))%Z.
Proof.
  unfold curIndex. destruct (activeTab b); [apply indexOf_range|].
  destruct (tabs b); simpl; lia.
Qed.

Lemma rem_range (x n : Z) : (0 <= x)%Z -> (0 < n)%Z -> (0 <= Z.rem x n < n)%Z.
Proof. intros Hx Hn. rewrite Z.rem_mod_nonneg by lia. apply Z.mod_pos_bound. lia. Qed.

(** X17.  The keyboard shortcuts never leave the open tabs.  While a tab
    is open, Alt+1 to Alt+9, Alt+ArrowRight and Alt+ArrowLeft make one of
    the open tabs active, whatever was active before (also the id -1
    left by closing the last active tab), and do not change the tabs; a
    digit beyond the number of tabs selects the last tab. *)
Theorem shortcuts_select_an_open_tab (b : Bar) (num : Z) :
  tabs b <> [] -> (1 <= num <= 9)%Z ->
  (exists a, activeTab (altDigit num b) = Some a /\ In a (tabs b))
  /\ (exists a, activeTab (altRight b) = Some a /\ In a (tabs b))
  /\ (exists a, activeTab (altLeft b) = Some a /\ In a (tabs b))
  /\ tabs (altDigit num b) = tabs b
  /\ tabs (altRight b) = tabs b
  /\ tabs (altLeft b) = tabs b
  /\ ((Z.of_nat (length (tabs b)) <= num)%Z ->
      activeTab (altDigit num b) = Some (List.last (tabs b) 0%Z)).
Proof.
  intros Hne Hnum. pose proof (curIndex_range b) as Hc.
  assert (Hlen : (0 < Z.of_nat (length (tabs b)))%Z).
  { destruct (tabs b); [contradiction|simpl; lia]. }
  assert (Hd : altDigit num b
               = setActive (at_ (tabs b) (Z.min (num - 1) (Z.of_nat (length (tabs b)) - 1))) b).
  { unfold altDigit. destruct (Z.leb_spec 1 num); [|lia].
    destruct (Z.leb_spec num 9); [reflexivity|lia]. }
  rewrite Hd. unfold altRight, altLeft.
  destruct (Z.eqb_spec (Z.of_nat (length (tabs b))) 0); [lia|].
  cbn [setActive tabs activeTab].
  split; [apply at_in_range; lia|].
  split; [apply at_in_range|].
  { destruct (Z.eq_dec (curIndex b + 1)%Z 0%Z) as [->|];
      [rewrite Z.rem_0_l by lia; lia|apply rem_range; lia]. }
  split; [apply at_in_range|].
  { destruct (Z.eq_dec (curIndex b - 1 + Z.of_nat (length (tabs b)))%Z (-1)%Z) as [E|].
    - rewrite E. assert (Z.of_nat (length (tabs b)) = 1)%Z as -> by lia.
      rewrite Z.rem_1_r. lia.
    - apply rem_range; lia. }
  repeat split.
  intros Hbig. replace (Z.min (num - 1) (Z.of_nat (length (tabs b)) - 1))
    with (Z.of_nat (length (tabs b)) - 1)%Z by lia.
  unfold at_. destruct (Z.ltb_spec (Z.of_nat (length (tabs b)) - 1) 0); [lia|].
  destruct (tabs b) as [|y l]; [contradiction|].
  replace (Z.to_nat (Z.of_nat (length (y :: l)) - 1)) with (length l) by (simpl; lia).
  pose proof (nth_error_last l [] y) as H'. now rewrite app_nil_r in H'.
Qed.

Lemma shortcuts_after_closing_the_last_active_tab :
  (exists a, activeTab (altDigit 9 {| tabs := [4; 7]; activeTab := Some (-1) |})%Z = Some a
             /\ In a [4; 7]%Z)
  /\ (exists a, activeTab (altRight {| tabs := [4; 7]; activeTab := Some (-1) |})%Z = Some a
                /\ In a [4; 7]%Z)
  /\ (exists a, activeTab (altLeft {| tabs := [4; 7]; activeTab := Some (-1) |})%Z = Some a
                /\ In a [4; 7]%Z)
  /\ tabs (altDigit 9 {| tabs := [4; 7]; activeTab := Some (-1) |})%Z = [4; 7]%Z
  /\ tabs (altRight {| tabs := [4; 7]; activeTab := Some (-1) |})%Z = [4; 7]%Z
  /\ tabs (altLeft {| tabs := [4; 7]; activeTab := Some (-1) |})%Z = [4; 7]%Z
  /\ ((Z.of_nat 2 <= 9)%Z ->
      activeTab (altDigit 9 {| tabs := [4; 7]; activeTab := Some (-1) |})%Z = Some 7%Z).
Proof.
  apply (shortcuts_select_an_open_tab {| tabs := [4; 7]; activeTab := Some (-1) |}%Z 9%Z).
  - discriminate.
  - lia.
Defined.

Lemma indexOf_nth (l : list Z) :
  List.NoDup l -> forall i a, nth_error l i = Some a -> indexOf a l = Z.of_nat i.
Proof.
  induction 1 as [|y l Hy Hnd IH]; intros i a Hi; [destruct i; discriminate|].
  destruct i as [|i]; simpl in *.
  - injection Hi as ->. now rewrite Z.eqb_refl.
  - assert (Hya : (y =? a)%Z = false).
    { apply Z.eqb_neq. intros ->. apply Hy. eapply nth_error_In. exact Hi. }
    rewrite Hya, (IH i a Hi). destruct (Z.ltb_spec (Z.of_nat i) 0); lia.
Qed.

Lemma at_nat (l : list Z) (i : nat) : at_ l (Z.of_nat i) = nth_error l i.
Proof. unfold at_. destruct (Z.ltb_spec (Z.of_nat i) 0); [lia|]. now rewrite Nat2Z.id. Qed.

(** The position after Alt+ArrowRight and after Alt+ArrowLeft. *)
Definition rightOf (count i : nat) : nat := if Nat.eqb (S i) count then 0 else S i.
Definition leftOf (count i : nat) : nat := if Nat.eqb i 0 then count - 1 else i - 1.

Lemma altRight_at (l : list Z) (i : nat) (a : Z) :
  List.NoDup l -> nth_error l i = Some a ->
  altRight {| tabs := l; activeTab := Some a |}
  = {| tabs := l; activeTab := nth_error l (rightOf (length l) i) |}.
Proof.
  intros Hnd Hi. assert (Hlt : i < length l) by (apply nth_error_Some; congruence).
  unfold altRight, setActive, curIndex. cbn [tabs activeTab].
  rewrite (indexOf_nth l Hnd i a Hi).
  destruct (Z.eqb_spec (Z.of_nat (length l)) 0); [lia|]. f_equal.
  unfold rightOf. destruct (Nat.eqb_spec (S i) (length l)) as [E|E].
  - replace (Z.of_nat i + 1)%Z with (Z.of_nat (length l)) by lia.
    rewrite Z.rem_same by lia. apply (at_nat l 0).
  - rewrite Z.rem_small by lia. replace (Z.of_nat i + 1)%Z with (Z.of_nat (S i)) by lia.
    apply at_nat.
Qed.

Lemma altLeft_at (l : list Z) (i : nat) (a : Z) :
  List.NoDup l -> nth_error l i = Some a ->
  altLeft {| tabs := l; activeTab := Some a |}
  = {| tabs := l; activeTab := nth_error l (leftOf (length l) i) |}.
Proof.
  intros Hnd Hi. assert (Hlt : i < length l) by (apply nth_error_Some; congruence).
  unfold altLeft, setActive, curIndex. cbn [tabs activeTab].
  rewrite (indexOf_nth l Hnd i a Hi).
  destruct (Z.eqb_spec (Z.of_nat (length l)) 0); [lia|]. f_equal.
  unfold leftOf. destruct (Nat.eqb_spec i 0) as [E|E].
  - subst i. rewrite Z.rem_small by lia.
    replace (Z.of_nat 0 - 1 + Z.of_nat (length l))%Z with (Z.of_nat (length l - 1)) by lia.
    apply at_nat.
  - replace (Z.of_nat i - 1 + Z.of_nat (length l))%Z
      with (Z.of_nat (i - 1) + 1 * Z.of_nat (length l))%Z by lia.
    rewrite Z.rem_mod_nonneg by lia. rewrite Z_mod_plus_full, Z.mod_small by lia.
    apply at_nat.
Qed.

(** X18.  Alt+ArrowRight and Alt+ArrowLeft walk the tab bar in a circle
    and undo each other.  With distinct ids and the tab at position [i]
    active, the right arrow activates the tab at the next position, or
    the first tab from the last position; the left arrow activates the
    tab at the previous position, or the last tab from the first
    position; a right arrow followed by a left arrow, or a left arrow
    followed by a right arrow, gives back the bar as it was. *)
Theorem arrows_walk_in_a_circle (l : list Z) (i : nat) (a : Z) :
  List.NoDup l -> nth_error l i = Some a ->
  activeTab (altRight {| tabs := l; activeTab := Some a |})
  = nth_error l (if Nat.eqb (S i) (length l) then 0 else S i)
  /\ activeTab (altLeft {| tabs := l; activeTab := Some a |})
     = nth_error l (if Nat.eqb i 0 then length l - 1 else i - 1)
  /\ altLeft (altRight {| tabs := l; activeTab := Some a |})
     = {| tabs := l; activeTab := Some a |}
  /\ altRight (altLeft {| tabs := l; activeTab := Some a |})
     = {| tabs := l; activeTab := Some a |}.
Proof.
  intros Hnd Hi. assert (Hlt : i < length l) by (apply nth_error_Some; congruence).
  rewrite (altRight_at l i a Hnd Hi), (altLeft_at l i a Hnd Hi). cbn [activeTab].
  split; [reflexivity|]. split; [reflexivity|]. split.
  - assert (Hr : rightOf (length l) i < length l)
      by (unfold rightOf; destruct (Nat.eqb_spec (S i) (length l)); lia).
    destruct (nth_error_in_range l _ Hr) as [a' [Ha' _]]. rewrite Ha'.
    rewrite (altLeft_at l _ a' Hnd Ha'). f_equal. rewrite <- Hi. f_equal.
    unfold leftOf, rightOf. destruct (Nat.eqb_spec (S i) (length l)); simpl; lia.
  - assert (Hr : leftOf (length l) i < length l)
      by (unfold leftOf; destruct (Nat.eqb_spec i 0); lia).
    destruct (nth_error_in_range l _ Hr) as [a' [Ha' _]]. rewrite Ha'.
    rewrite (altRight_at l _ a' Hnd Ha'). f_equal. rewrite <- Hi. f_equal.
    unfold leftOf, rightOf. destruct (Nat.eqb_spec i 0).
    + subst i. destruct (Nat.eqb_spec (S (length l - 1)) (length l)); lia.
    + destruct (Nat.eqb_spec (S (i - 1)) (length l)); lia.
Qed.

Lemma arrows_from_the_last_of_three_tabs :
  activeTab (altRight {| tabs := [0; 1; 2]; activeTab := Some 2 |})%Z
  = nth_error [0; 1; 2]%Z 0
  /\ activeTab (altLeft {| tabs := [0; 1; 2]; activeTab := Some 2 |})%Z
     = nth_error [0; 1; 2]%Z 1
  /\ altLeft (altRight {| tabs := [0; 1; 2]; activeTab := Some 2 |})%Z
     = {| tabs := [0; 1; 2]; activeTab := Some 2 |}%Z
  /\ altRight (altLeft {| tabs := [0; 1; 2]; activeTab := Some 2 |})%Z
     = {| tabs := [0; 1; 2]; activeTab := Some 2 |}%Z.
Proof.
  apply (arrows_walk_in_a_circle [0; 1; 2]%Z 2 2%Z).
  - repeat constructor; simpl; lia.
  - reflexivity.
Defined.

End BarSpec.

(* ===================================================================== *)
(** ** The terminal page: versions and file names *)
(* ===================================================================== *)

Module PageSpec.
Import Js JsMore Page.

Lemma ltString_trans (a : string) :
  forall b c, ltString a b = true -> ltString b c = true -> ltString a c = true.
Proof.
  induction a as [|x a IH]; intros [|y b] [|z c]; simpl; try congruence.
  destruct (N.ltb_spec (code x) (code y)), (N.eqb_spec (code x) (code y)),
    (N.ltb_spec (code y) (code z)), (N.eqb_spec (code y) (code z)),
    (N.ltb_spec (code x) (code z)), (N.eqb_spec (code x) (code z));
    simpl; try congruence; try lia.
  apply IH.
Qed.

Lemma ltString_empty (a : string) : ltString a EmptyString = false.
Proof. now destruct a. Qed.

(** X19.  The buttons compare versions as texts.  A version that shows
    the structured views (at least "6.0.9") also offers to save the file
    (at least "6.0.3").  The comparison goes character by character: every
    version that begins with "6.0.9", "6.1" or "7" shows the structured
    views, while every version that begins with "6.0.1", such as 6.0.10,
    or with "10.", shows neither them nor the save button, and neither
    does the empty version ([currentVersion] before the effect has run). *)
Theorem version_buttons_compare_texts (v rest : string) :
  (hasStructuredViews v = true -> canSaveFile v = true)
  /\ hasStructuredViews (String.append "6.0.9" rest) = true
  /\ hasStructuredViews (String.append "6.1" rest) = true
  /\ hasStructuredViews (String.append "7" rest) = true
  /\ hasStructuredViews (String.append "6.0.1" rest) = false
  /\ canSaveFile (String.append "6.0.1" rest) = false
  /\ hasStructuredViews (String.append "10." rest) = false
  /\ canSaveFile (String.append "10." rest) = false
  /\ hasStructuredViews EmptyString = false
  /\ canSaveFile EmptyString = false.
Proof.
  unfold hasStructuredViews, canSaveFile, geString. split.
  - destruct (ltString v "6.0.3") eqn:E; [|reflexivity].
    rewrite (ltString_trans v "6.0.3" "6.0.9" E eq_refl). discriminate.
  - repeat split; try reflexivity.
    simpl. now rewrite ltString_empty.
Qed.

Lemma join_cons (sep p : string) (rest : list string) :
  rest <> [] -> join sep (p :: rest) = String.append p (String.append sep (join sep rest)).
Proof. destruct rest; [contradiction|reflexivity]. Qed.

(** Splitting at a character and joining with it gives the text back. *)
Lemma join_splitChar (sep : Ascii.ascii) (s : string) :
  join (String sep EmptyString) (splitChar sep s) = s.
Proof.
  induction s as [|c s IH]; [reflexivity|].
  pose proof (HexDumpMore.splitChar_nonempty sep s) as Hne. simpl splitChar.
  destruct (Ascii.eqb_spec c sep) as [->|Hc].
  - rewrite join_cons by exact Hne. simpl. now rewrite IH.
  - destruct (splitChar sep s) as [|t ts]; [contradiction|].
    destruct ts as [|u ts]; simpl in *; now rewrite <- IH.
Qed.

Definition noDot (s : string) : bool := all (fun c => negb (Ascii.eqb c ".")) s.

Lemma splitChar_noDot (s : string) : noDot s = true -> splitChar "." s = [s].
Proof.
  induction s as [|c s IH]; [reflexivity|]. unfold noDot. simpl.
  destruct (Ascii.eqb c "."); simpl; [discriminate|].
  intros H. now rewrite (IH H).
Qed.

(** X20.  The name of the saved copy.  For a file name with an
    extension, that is a stem, a dot and an extension without dot, the
    copy is named by the stem, "_m." and the extension: the marker goes
    before the last dot only.  For a name without any dot the whole name
    is taken as the extension, and the copy is named "_m." followed by
    the name. *)
Theorem saved_copy_name (stem ext : string) :
  noDot ext = true ->
  savedName (String.append stem (String "." ext))
  = String.append stem (String.append "_m." ext)
  /\ savedName ext = String.append "_m." ext.
Proof.
  intros Hext. unfold savedName. split.
  - rewrite HexDumpMore.splitChar_app, (splitChar_noDot ext Hext).
    rewrite List.removelast_last, List.last_last.
    now rewrite (join_splitChar "." stem).
  - now rewrite (splitChar_noDot ext Hext).
Qed.

Lemma saved_copy_of_versioned_library :
  savedName (String.append "lib.so" (String "." "6")) = String.append "lib.so" (String.append "_m." "6")
  /\ savedName "6" = String.append "_m." "6".
Proof. apply (saved_copy_name "lib.so" "6"). reflexivity. Defined.

End PageSpec.

(* ===================================================================== *)
(** ** The tab component: banner, [dispose], [uploadFiles] *)
(* ===================================================================== *)

Module TabHandleSpec.
Import Js JsMore Tab TabHandle.

Lemma strlen_repeat (s : string) (n : nat) : strlen (repeatString s n) = n * strlen s.
Proof.
  induction n as [|n IH]; simpl; [reflexivity|].
  rewrite HandlerMore.strlen_append, IH. reflexivity.
Qed.

Lemma append_empty (s : string) : String.append s EmptyString = s.
Proof.
  induction s as [|c s IH]; [reflexivity|].
  change (String c (String.append s EmptyString) = String c s). now rewrite IH.
Qed.

(** X21.  The banner fills the width of the terminal.  A centred text is
    the text between [left] and [right] spaces, where the two differ by
    at most one, the larger on the right, and together fill the line up
    to the columns of the terminal; a text longer than the terminal is
    left as it is.  The ruler of dashes has the length of the
    terminal.  From 42 columns on, the four lines of the welcome banner
    all have the length of the terminal. *)
Theorem banner_fills_the_width (cols : nat) (text : string) :
  (exists left right,
      centerPad cols text
      = String.append (repeatString " " left)
          (String.append text (repeatString " " right))
      /\ left + strlen text + right = Nat.max cols (strlen text)
      /\ left <= right <= left + 1)
  /\ strlen (centerPad cols text) = Nat.max cols (strlen text)
  /\ (cols <= strlen text -> centerPad cols text = text)
  /\ strlen (fullWidthLine cols "-") = cols
  /\ (42 <= cols -> Forall (fun line => strlen line = cols) (firstn 4 (welcomeLines cols))).
Proof.
  assert (Hpad : forall t,
             exists left right,
               centerPad cols t
               = String.append (repeatString " " left)
                   (String.append t (repeatString " " right))
               /\ left + strlen t + right = Nat.max cols (strlen t)
               /\ left <= right <= left + 1).
  { intros t. unfold centerPad. cbv zeta.
    set (padding := Z.max 0 (Z.of_nat cols - Z.of_nat (strlen t))).
    exists (Z.to_nat (padding / 2)), (Z.to_nat (padding - padding / 2)).
    split; [reflexivity|].
    assert (H0 : (0 <= padding)%Z) by (subst padding; lia).
    pose proof (Z.div_mod padding 2 ltac:(lia)) as Hdm.
    pose proof (Z.mod_pos_bound padding 2 ltac:(lia)) as Hm.
    assert (Hp : Z.to_nat padding = cols - strlen t) by (subst padding; lia).
    lia. }
  assert (Hlen : forall t, strlen (centerPad cols t) = Nat.max cols (strlen t)).
  { intros t. destruct (Hpad t) as (left & right & -> & Hsum & _).
    rewrite !HandlerMore.strlen_append, !strlen_repeat. simpl. lia. }
  split; [apply Hpad|]. split; [apply Hlen|]. split; [|split].
  - intros Hfull. unfold centerPad. cbv zeta.
    replace (Z.max 0 (Z.of_nat cols - Z.of_nat (strlen text))) with 0%Z by lia.
    simpl. apply append_empty.
  - unfold fullWidthLine. rewrite strlen_repeat. simpl. lia.
  - intros Hcols. unfold welcomeLines. cbn [firstn].
    repeat constructor.
    + unfold fullWidthLine. rewrite strlen_repeat. simpl. lia.
    + rewrite Hlen. simpl. lia.
    + rewrite Hlen. simpl. lia.
    + unfold fullWidthLine. rewrite strlen_repeat. simpl. lia.
Qed.

Definition released {A : Type} (f : A -> Release) (x : option A) : list Release :=
  match x with Some a => [f a] | None => [] end.

(** X22.  [dispose] never throws and gives up nothing because of a
    failure: whichever of the four calls throw, it closes the stdin
    writer, frees the instance, removes the input handler and disposes of
    the terminal, in this order, each one when it is present in the
    render that published the handle. *)
Theorem dispose_attempts_every_release (faults : Faults) (sc : Scope) (handler : bool) :
  dispose faults sc handler
  = (released CloseWriter (r2Writer (seen sc))
       ++ released (fun i => FreeInstance (id i)) (instance (seen sc))
       ++ (if handler then [DisposeHandler] else [])
       ++ released DisposeTerminal (termInstance (seen sc)),
     false).
Proof.
  unfold dispose.
  destruct (r2Writer (seen sc)), (instance (seen sc)), handler, (termInstance (seen sc));
    reflexivity.
Qed.

Definition path (f : FileEntry) : string := String "/" (name f).

Definition written (uploads : list FileEntry) (content : Files) : Files :=
  fold_left (fun d f => <[String "/" (name f) := data f]> d) uploads content.

Lemma written_elsewhere (uploads : list FileEntry) :
  forall content p,
    (forall f, In f uploads -> String "/" (name f) <> p) ->
    written uploads content !! p = content !! p.
Proof.
  induction uploads as [|g uploads IH]; intros content p Hp; [reflexivity|].
  change (written (g :: uploads) content)
    with (written uploads (<[String "/" (name g) := data g]> content)).
  rewrite IH by (intros f Hf; apply Hp; now right).
  apply lookup_insert_ne. apply Hp. now left.
Qed.

Lemma written_there (uploads : list FileEntry) :
  forall content f,
    List.NoDup (List.map name uploads) -> In f uploads ->
    written uploads content !! String "/" (name f) = Some (data f).
Proof.
  induction uploads as [|g uploads IH]; intros content f Hnd Hin; [destruct Hin|].
  change (written (g :: uploads) content)
    with (written uploads (<[String "/" (name g) := data g]> content)).
  inversion Hnd as [|? ? Hg Hrest]; subst.
  destruct Hin as [->|Hin]; [|now apply IH].
  rewrite written_elsewhere; [apply lookup_insert_eq|].
  intros h Hh E. apply Hg. injection E as E. rewrite <- E. now apply in_map.
Qed.

(** X23.  What [uploadFiles] leaves in the directory.  Without a
    directory in the render that published the handle, nothing is
    written.  With one, and files of distinct names, every uploaded file
    is at the path made of a slash and its name, with its bytes, every
    other path holds what it held, and the result is the same in
    whatever order the writes are done. *)
Theorem uploaded_files_are_in_the_directory
    (sc : Scope) (uploads : list FileEntry) (content : Files) :
  List.NoDup (List.map name uploads) ->
  (dir (seen sc) = None -> uploadFiles sc uploads content = content)
  /\ (dir (seen sc) <> None ->
      (forall f, In f uploads ->
         uploadFiles sc uploads content !! String "/" (name f) = Some (data f))
      /\ (forall p, (forall f, In f uploads -> String "/" (name f) <> p) ->
            uploadFiles sc uploads content !! p = content !! p)
      /\ (forall other, Permutation uploads other ->
            uploadFiles sc other content = uploadFiles sc uploads content)).
Proof.
  intros Hnd. unfold uploadFiles. split; [now intros ->|].
  destruct (dir (seen sc)) as [d|]; [intros _|contradiction].
  fold (written uploads content). split; [|split].
  - intros f Hf. now apply written_there.
  - intros p Hp. now apply written_elsewhere.
  - intros other Hperm. change (written other content = written uploads content).
    assert (Hnd' : List.NoDup (List.map name other)).
    { eapply Permutation_NoDup; [|exact Hnd]. now apply Permutation_map. }
    apply map_eq. intros p.
    destruct (List.in_dec String.string_dec p (List.map path uploads)) as [Hin|Hout].
    + apply in_map_iff in Hin. destruct Hin as [f [<- Hf]]. unfold path.
      transitivity (Some (data f)); [|symmetry; now apply written_there].
      apply written_there; [exact Hnd'|]. eapply Permutation_in; eassumption.
    + transitivity (content !! p); [|symmetry]; apply written_elsewhere.
      * intros f Hf E. apply Hout. rewrite <- E. apply (in_map path).
        eapply Permutation_in; [symmetry; exact Hperm|exact Hf].
      * intros f Hf E. apply Hout. rewrite <- E. now apply (in_map path).
Qed.

Definition uploading : Scope :=
  {| pkg := None; file := None;
     seen := {| termInstance := None; r2Writer := None; dir := Some 0;
                instance := None |} |}.

Definition twoFiles : list FileEntry :=
  [{| name := "a.out"; data := [Byte.x7f; Byte.x45] |};
   {| name := "notes.txt"; data := [Byte.x68; Byte.x69] |}].

Lemma two_files_are_in_the_directory :
  (dir (seen uploading) = None -> uploadFiles uploading twoFiles ∅ = ∅)
  /\ (dir (seen uploading) <> None ->
      (forall f, In f twoFiles ->
         uploadFiles uploading twoFiles ∅ !! String "/" (name f) = Some (data f))
      /\ (forall p, (forall f, In f twoFiles -> String "/" (name f) <> p) ->
            uploadFiles uploading twoFiles ∅ !! p = (∅ : Files) !! p)
      /\ (forall other, Permutation twoFiles other ->
            uploadFiles uploading other ∅ = uploadFiles uploading twoFiles ∅)).
Proof.
  apply (uploaded_files_are_in_the_directory uploading twoFiles ∅).
  simpl. constructor; [|constructor; [|constructor]].
  - simpl. intros [H|[]]. discriminate H.
  - simpl. intros [].
Defined.

End TabHandleSpec.

(* ===================================================================== *)
(** ** The strings view: pages and addresses *)
(* ===================================================================== *)

Module StringsViewSpec.
Import Js JsMore StringsView.

Section Pages.
Context {A : Type}.

(** A page from the first on is the hundred items after those of the
    pages before it. *)
Lemma visible_page (l : list A) (p : nat) :
  visibleStrings l (Z.of_nat (S p)) = firstn 100 (skipn (100 * p) l).
Proof.
  unfold visibleStrings, slice, ITEMS_PER_PAGE. cbv zeta.
  replace ((Z.of_nat (S p) - 1) * Z.of_nat 100)%Z with (Z.of_nat (100 * p)) by lia.
  destruct (Z.ltb_spec (Z.of_nat (100 * p)) 0); [lia|].
  destruct (Z.ltb_spec (Z.of_nat (100 * p) + Z.of_nat 100) 0); [lia|].
  destruct (Nat.le_gt_cases (List.length l) (100 * p)) as [Hout|Hin].
  - rewrite !skipn_all2 by lia. now rewrite !firstn_nil.
  - replace (Z.to_nat (Z.min (Z.of_nat (100 * p)) (Z.of_nat (List.length l)))) with (100 * p)
      by lia.
    destruct (Nat.le_gt_cases (100 * p + 100) (List.length l)) as [Hfull|Hpart].
    + f_equal. lia.
    + rewrite (firstn_all2 (n := 100)) by (rewrite length_skipn; lia).
      apply firstn_all2. rewrite length_skipn. lia.
Qed.

Lemma chunks_concat (n : nat) :
  forall l : list A,
    List.length l <= 100 * n ->
    concat (List.map (fun i => firstn 100 (skipn (100 * i) l)) (seq 0 n)) = l.
Proof.
  induction n as [|n IH]; intros l Hl.
  - destruct l; [reflexivity|simpl in Hl; lia].
  - change (seq 0 (S n)) with (0 :: seq 1 n). rewrite <- seq_shift.
    cbn [List.map concat]. rewrite List.map_map. change (skipn (100 * 0) l) with l.
    transitivity (firstn 100 l ++ skipn 100 l); [|apply firstn_skipn]. f_equal.
    etransitivity; [|apply (IH (skipn 100 l)); rewrite length_skipn; lia].
    f_equal. apply List.map_ext. intros i.
    replace (100 * S i) with (100 * i + 100) by lia.
    now rewrite skipn_skipn.
Qed.

Lemma totalPages_covers (count : nat) :
  count <= 100 * totalPages count /\ 100 * totalPages count <= count + 99.
Proof.
  unfold totalPages, ITEMS_PER_PAGE.
  pose proof (Nat.div_mod_eq (count + (100 - 1)) 100) as Hd.
  pose proof (Nat.mod_upper_bound (count + (100 - 1)) 100 ltac:(lia)) as Hm.
  lia.
Qed.

(** X24.  The pages of the strings view cut the filtered list into
    consecutive pieces.  The pages 1 to [totalPages], one after the
    other, give the filtered list, each item once and in its order; each
    of these pages shows at least one item, and no page, whatever its
    number, shows more than a hundred.  The page buttons and the page
    field keep the current page between 1 and [totalPages]: a page
    outside is refused and the current page stays. *)
Theorem pages_cut_the_filtered_list (filteredStrings : list A) :
  concat (List.map (fun page => visibleStrings filteredStrings (Z.of_nat page))
            (seq 1 (totalPages (List.length filteredStrings))))
  = filteredStrings
  /\ (forall page, 1 <= page <= totalPages (List.length filteredStrings) ->
        visibleStrings filteredStrings (Z.of_nat page) <> [])
  /\ (forall page : Z, List.length (visibleStrings filteredStrings page) <= 100)
  /\ (forall currentPage page : Z,
        let total := Z.of_nat (totalPages (List.length filteredStrings)) in
        (1 <= currentPage <= total)%Z ->
        (1 <= handlePageChange (List.length filteredStrings) currentPage page <= total)%Z
        /\ ((page < 1 \/ total < page)%Z ->
            handlePageChange (List.length filteredStrings) currentPage page = currentPage))
  /\ (forall (currentPage : Z) (pageInput : string),
        let total := Z.of_nat (totalPages (List.length filteredStrings)) in
        (1 <= currentPage <= total)%Z ->
        (1 <= handlePageJump (List.length filteredStrings) currentPage pageInput <= total)%Z).
Proof.
  pose proof (totalPages_covers (List.length filteredStrings)) as [Hlo Hhi].
  split; [|split; [|split; [|split]]].
  - rewrite <- seq_shift, List.map_map.
    rewrite (List.map_ext _ (fun i => firstn 100 (skipn (100 * i) filteredStrings)))
      by (intros i; apply visible_page).
    now apply chunks_concat.
  - intros [|p] [H1 H2]; [lia|]. rewrite visible_page.
    assert (Hp : 100 * p < List.length filteredStrings) by lia.
    intros E. apply (f_equal (@List.length A)) in E.
    rewrite length_firstn, length_skipn in E. cbn [List.length] in E. lia.
  - intros page. unfold visibleStrings, slice, ITEMS_PER_PAGE. cbv zeta.
    rewrite length_firstn.
    destruct (Z.ltb_spec ((page - 1) * Z.of_nat 100) 0),
      (Z.ltb_spec ((page - 1) * Z.of_nat 100 + Z.of_nat 100) 0); lia.
  - intros currentPage page total Hcur. unfold handlePageChange. fold total.
    destruct (Z.leb_spec 1 page), (Z.leb_spec page total); simpl; lia.
  - intros currentPage pageInput total Hcur. unfold handlePageJump. fold total.
    destruct (parseInt pageInput 10) as [pageNum|]; [|exact Hcur].
    destruct (Z.leb_spec 1 pageNum), (Z.leb_spec pageNum total); simpl; lia.
Qed.

End Pages.

Lemma digitValue_hexDigit (d : N) : (d < 16)%N -> digitValue (hexDigit d) = Some d.
Proof.
  intros H.
  assert (Hd : In d [0; 1; 2; 3; 4; 5; 6; 7; 8; 9; 10; 11; 12; 13; 14; 15]%N).
  { simpl. lia. }
  simpl in Hd.
  repeat (destruct Hd as [<-|Hd]; [reflexivity|]). destruct Hd.
Qed.

Definition valueOf (k : option N) : N := match k with Some a => a | None => 0%N end.

Lemma digits_hexDigit (k : option N) (d : N) (s : string) :
  (d < 16)%N ->
  digits 16 k (String (hexDigit d) s) = digits 16 (Some (valueOf k * 16 + d)%N) s.
Proof.
  intros H. cbn [digits]. rewrite (digitValue_hexDigit d H).
  destruct (N.ltb_spec d 16); [|lia]. destruct k; reflexivity.
Qed.

Lemma toHex_digits (fuel : nat) :
  forall (n : N) (acc : string) (k : option N),
    (n < 16 ^ N.of_nat (S fuel))%N ->
    exists e, digits 16 k (toHex (S fuel) n acc)
              = digits 16 (Some (valueOf k * 16 ^ e + n)%N) acc.
Proof.
  induction fuel as [|fuel IH]; intros n acc k Hn.
  - exists 1%N. change (16 ^ N.of_nat 1)%N with 16%N in Hn.
    assert (Hm : (n mod 16 = n)%N) by (apply N.mod_small; exact Hn).
    cbn [toHex]. cbv zeta. rewrite Hm.
    destruct (n / 16 =? 0)%N; rewrite digits_hexDigit by exact Hn;
      now rewrite N.pow_1_r.
  - change (toHex (S (S fuel)) n acc)
      with (if (n / 16 =? 0)%N then String (hexDigit (n mod 16)) acc
            else toHex (S fuel) (n / 16)%N (String (hexDigit (n mod 16)) acc)).
    pose proof (N.mod_upper_bound n 16 ltac:(lia)) as Hmod.
    pose proof (N.div_mod n 16 ltac:(lia)) as Hdm.
    destruct (N.eqb_spec (n / 16) 0) as [Hz|Hnz].
    + exists 1%N. rewrite digits_hexDigit by exact Hmod. rewrite N.pow_1_r.
      do 2 f_equal. lia.
    + assert (Hq : (n / 16 < 16 ^ N.of_nat (S fuel))%N).
      { apply N.Div0.div_lt_upper_bound.
        replace (N.of_nat (S (S fuel))) with (N.succ (N.of_nat (S fuel))) in Hn by lia.
        now rewrite N.pow_succ_r' in Hn. }
      destruct (IH (n / 16)%N (String (hexDigit (n mod 16)) acc) k Hq) as [e He].
      exists (N.succ e). rewrite He, digits_hexDigit by exact Hmod.
      do 2 f_equal. cbn [valueOf]. rewrite N.pow_succ_r'. lia.
Qed.

Lemma toString16_fuel (n : N) : (n < 16 ^ N.of_nat (S (N.to_nat (N.log2 n))))%N.
Proof.
  replace (N.of_nat (S (N.to_nat (N.log2 n)))) with (N.succ (N.log2 n)) by lia.
  destruct (N.eq_dec n 0%N) as [->|Hn]; [reflexivity|].
  pose proof (N.log2_spec n ltac:(lia)) as [_ Hlt].
  eapply N.lt_le_trans; [exact Hlt|]. apply N.pow_le_mono_l. lia.
Qed.

Lemma digits_zeros (n : nat) (s : string) :
  digits 16 (Some 0%N) (String.append (repeatString "0" n) s) = digits 16 (Some 0%N) s.
Proof. induction n as [|n IH]; [reflexivity|]. exact IH. Qed.

Lemma digits_padded (width : nat) (addr : N) :
  digits 16 None (padStart0 width (toString16 addr)) = Some addr.
Proof.
  unfold padStart0, toString16.
  destruct (width - strlen (toHex (S (N.to_nat (N.log2 addr))) addr EmptyString)) as [|n].
  - destruct (toHex_digits _ addr EmptyString None (toString16_fuel addr)) as [e He].
    change (String.append (repeatString "0" 0) ?s) with s. rewrite He. reflexivity.
  - change (digits 16 None (String.append (repeatString "0" (S n)) ?s))
      with (digits 16 (Some 0%N) (String.append (repeatString "0" n) s)).
    rewrite digits_zeros.
    destruct (toHex_digits _ addr EmptyString (Some 0%N) (toString16_fuel addr)) as [e He].
    rewrite He. reflexivity.
Qed.

(** X25.  An address up to 2^53 shown by the strings view reads back as
    the same address.  Up to 2^53 the integers are numbers of JavaScript
    and [parseInt] is exact.  The text of such an address begins with
    "0x" and has at least eight digits after it, and [parseInt] in base
    16 gives the address back from it, so that two such addresses are
    shown alike only when they are equal. *)
Theorem shown_address_reads_back (addr other : N) :
  (addr <= 2 ^ 53)%N -> (other <= 2 ^ 53)%N ->
  parseInt (formatAddress addr) 16 = Some (Z.of_N addr)
  /\ startsWith "0x" (formatAddress addr) = true
  /\ 10 <= strlen (formatAddress addr)
  /\ (formatAddress addr = formatAddress other -> addr = other).
Proof.
  intros _ _.
  assert (Hparse : forall a, parseInt (formatAddress a) 16 = Some (Z.of_N a)).
  { intros a. unfold formatAddress, parseInt.
    change (String.append "0x" ?s) with (String "0" (String "x" s)).
    cbn [trimStart]. change (isWhiteSpace "0") with false. cbv iota zeta.
    change (16 =? 16)%N with true. cbv iota. cbn [stripHexPrefix].
    rewrite digits_padded. f_equal. lia. }
  split; [apply Hparse|]. split; [reflexivity|]. split.
  - unfold formatAddress, padStart0.
    rewrite !HandlerMore.strlen_append, TabHandleSpec.strlen_repeat. simpl. lia.
  - intros E. pose proof (Hparse addr) as H1. rewrite E, Hparse in H1.
    injection H1 as H1. lia.
Qed.

Lemma entry_point_reads_back :
  parseInt (formatAddress 4198400) 16 = Some (Z.of_N 4198400)
  /\ startsWith "0x" (formatAddress 4198400) = true
  /\ 10 <= strlen (formatAddress 4198400)
  /\ (formatAddress 4198400 = formatAddress 4198401 -> 4198400%N = 4198401%N).
Proof.
  apply (shown_address_reads_back 4198400 4198401);
    apply N.leb_le; vm_compute; reflexivity.
Defined.

Lemma startsWith_shorter (sub extra s : string) :
  startsWith (String.append sub extra) s = true -> startsWith sub s = true.
Proof.
  revert s. induction sub as [|a sub IH]; intros s; [reflexivity|].
  change (String.append (String a sub) extra) with (String a (String.append sub extra)).
  destruct s as [|b s]; cbn [startsWith]; [discriminate|].
  destruct (Ascii.eqb a b); [apply IH|discriminate].
Qed.

Lemma includes_shorter (sub extra s : string) :
  includes s (String.append sub extra) = true -> includes s sub = true.
Proof.
  induction s as [|b s IH]; cbn [includes]; intros H;
    apply orb_true_iff in H; apply orb_true_iff; destruct H as [H|H].
  - left. exact (startsWith_shorter sub extra _ H).
  - discriminate.
  - left. exact (startsWith_shorter sub extra _ H).
  - right. now apply IH.
Qed.

Lemma toLowerCase_append (a b : string) :
  toLowerCase (String.append a b) = String.append (toLowerCase a) (toLowerCase b).
Proof.
  induction a as [|c a IH]; [reflexivity|].
  change (String.append (String c a) b) with (String c (String.append a b)).
  cbn [toLowerCase]. now rewrite IH.
Qed.

Lemma matchesSearch_shorter (term extra : string) (s : StringInfo) :
  matchesSearch (String.append term extra) s = true -> matchesSearch term s = true.
Proof.
  unfold matchesSearch. rewrite toLowerCase_append. intros H.
  apply orb_true_iff in H. destruct H as [H|H].
  - apply orb_true_iff in H. destruct H as [H|H].
    + apply orb_true_iff in H. destruct H as [H|H].
      * apply String.eqb_eq in H. destruct term; [reflexivity|discriminate].
      * rewrite (includes_shorter _ _ _ H). now rewrite orb_true_r.
    + rewrite (includes_shorter _ _ _ H). now rewrite orb_true_r.
  - rewrite (includes_shorter _ _ _ H). now rewrite orb_true_r.
Qed.

(** X26.  Typing more in the search box only narrows the list, for
    strings and search terms of code units below 256 (Latin-1), which
    [toLowerCase] lowers one by one.  Every string that the view keeps
    for a search term followed by further characters is also kept for
    the term alone, with the same section and type selected; and the
    view keeps only strings it was given. *)
Theorem longer_search_term_narrows
    (strings : list StringInfo) (term extra filterSection filterType : string) :
  incl (filteredStrings strings (String.append term extra) filterSection filterType)
       (filteredStrings strings term filterSection filterType)
  /\ incl (filteredStrings strings term filterSection filterType) strings.
Proof.
  unfold filteredStrings. split; intros s Hs; apply List.filter_In in Hs;
    destruct Hs as [Hin Hm]; [|exact Hin].
  apply List.filter_In. split; [exact Hin|].
  apply andb_true_iff in Hm. destruct Hm as [Hm Ht].
  apply andb_true_iff in Hm. destruct Hm as [Hm Hsec].
  now rewrite (matchesSearch_shorter term extra s Hm), Hsec, Ht.
Qed.

(** Whether a character occurs in a text. *)
Fixpoint has (c : Ascii.ascii) (s : string) : bool :=
  match s with
  | EmptyString => false
  | String d s' => Ascii.eqb c d || has c s'
  end.

Lemma startsWith_has (c : Ascii.ascii) (p : string) :
  forall s, startsWith p s = true -> has c p = true -> has c s = true.
Proof.
  induction p as [|a p IH]; intros [|b s]; cbn [startsWith has]; try discriminate.
  intros H Hc. apply andb_true_iff in H. destruct H as [Hab Hp].
  apply Ascii.eqb_eq in Hab. subst b.
  apply orb_true_iff in Hc. apply orb_true_iff. destruct Hc as [Hc|Hc]; [now left|].
  right. now apply IH.
Qed.

Lemma includes_has (c : Ascii.ascii) (sub s : string) :
  includes s sub = true -> has c sub = true -> has c s = true.
Proof.
  intros H Hc. induction s as [|b s IH]; cbn [includes] in H;
    apply orb_true_iff in H; destruct H as [H|H].
  - exact (startsWith_has c sub _ H Hc).
  - discriminate.
  - exact (startsWith_has c sub _ H Hc).
  - cbn [has]. rewrite (IH H). apply orb_true_r.
Qed.

Lemma hexDigit_not_x (d : N) : (d < 16)%N -> Ascii.eqb "x" (hexDigit d) = false.
Proof.
  intros H.
  assert (Hd : In d [0; 1; 2; 3; 4; 5; 6; 7; 8; 9; 10; 11; 12; 13; 14; 15]%N).
  { simpl. lia. }
  simpl in Hd.
  repeat (destruct Hd as [<-|Hd]; [reflexivity|]). destruct Hd.
Qed.

Lemma toHex_has_x (fuel : nat) :
  forall n acc, has "x" (toHex fuel n acc) = has "x" acc.
Proof.
  induction fuel as [|fuel IH]; intros n acc; [reflexivity|].
  cbn [toHex]. cbv zeta.
  assert (Hx : has "x" (String (hexDigit (n mod 16)) acc) = has "x" acc).
  { cbn [has]. rewrite hexDigit_not_x; [reflexivity|]. apply N.mod_upper_bound. lia. }
  destruct (n / 16 =? 0)%N; [exact Hx|]. now rewrite IH.
Qed.

Lemma address_does_not_include (a addr : N) :
  includes (toString16 a) (toLowerCase (formatAddress addr)) = false.
Proof.
  destruct (includes (toString16 a) (toLowerCase (formatAddress addr))) eqn:E;
    [|reflexivity].
  assert (Hx : has "x" (toString16 a) = true).
  { apply (includes_has "x" _ _ E). reflexivity. }
  unfold toString16 in Hx. rewrite toHex_has_x in Hx. discriminate Hx.
Qed.

(** X27.  An address copied from the view does not find its string by
    address.  The search compares the term with the addresses written in
    base 16 without prefix and without padding, while the view shows
    them with "0x" and eight digits: for the text of any address as the
    view shows it, no string matches by its virtual or physical address,
    and a string is kept only when its own text contains the term. *)
Theorem shown_address_is_not_found_by_address (addr : N) (s : StringInfo) :
  includes (toString16 (vaddr s)) (toLowerCase (formatAddress addr)) = false
  /\ includes (toString16 (paddr s)) (toLowerCase (formatAddress addr)) = false
  /\ matchesSearch (formatAddress addr) s
     = includes (toLowerCase (string_ s)) (toLowerCase (formatAddress addr)).
Proof.
  split; [apply address_does_not_include|]. split; [apply address_does_not_include|].
  unfold matchesSearch. rewrite !address_does_not_include, !orb_false_r.
  reflexivity.
Qed.

End StringsViewSpec.
